(** * telegram-channel-joiner: a shallow embedding of [src/bot.py]

    The development follows the Python source function by function:

    - [Text]      : the [str] and [re] operations the source relies on;
    - [Links]     : [UserAccount.extract_chat_links];
    - [Py]        : abrupt completion, [except] and [finally];
    - [Locks]     : [SessionManager.acquire_lock] / [release_lock];
    - [Join]      : [UserAccount.join_chats] with its nested [update_status];
    - [Binary64]  : the pacing arithmetic once more, with Python's rounding;
    - [Resources] : [ResourceManager.cleanup_old_files];
    - [Account]   : [UserAccount.start_client] and [disconnect], and the
                    names of the session files;
    - [Files]     : [TelegramBot.process_file];
    - [Info]      : [UserAccount.get_account_info] and [phone_handler];
    - [Json], [Webhook], [Index] : the entry points [api/bot.py] and
                    [api/index.py];
    - [Login]     : [UserAccount.send_code] and [sign_in];
    - [Accounts]  : [TelegramBot.get_or_create_user_account];
    - [Upload]    : [process_file_handler], which ties [process_file],
                    [extract_chat_links] and [join_chats] together;
    - [Teardown]  : [SessionManager.__del__].

    Each module of definitions has a module of facts ([LinksFacts],
    [LocksFacts], ...) after the last definition module.

    Modelling choices.

    - Strings are sequences of one-byte characters; the character classes
      ([str.strip], [str.lower], the regular expressions) are the ASCII ones.
    - Delays are exact rationals ([Q]), so [current_delay * 1.1] is computed
      without rounding; [Binary64] re-checks the bounds in IEEE arithmetic.
    - Wall-clock instants are integers counting microseconds, the
      resolution of [datetime]; the clock itself is a collaborator.
    - The collaborators (the Telegram client, the clock, the operating
      system) are arguments: they say how each call ends, with a value or
      with an exception.  [asyncio.sleep] and the logger never raise, and the
      coroutine is never cancelled.
    - What the code does to the outside world is recorded as a trace of
      events. *)

From Corelib Require Import PrimFloat.
From Stdlib Require Import QArith Qminmax Lqa Ascii String.
From stdpp Require Import base decidable option list strings gmap fin_maps pretty.

Set Default Proof Using "Type".
Set Warnings "-clear-no-such-hyp".

(* ===================================================================== *)
(** ** Python [str] and [re] primitives *)
(* ===================================================================== *)

Module Text.

Local Open Scope string_scope.
Local Open Scope char_scope.

Definition newline : ascii := "010".

(** [bool(s)] for a string: non-empty. *)
Definition truthy (s : string) : bool :=
  match s with EmptyString => false | String _ _ => true end.

(** [s.removeprefix(p)] when [s.startswith(p)], [None] otherwise. *)
Fixpoint strip_prefix (p s : string) : option string :=
  match p with
  | EmptyString => Some s
  | String a p' =>
      match s with
      | EmptyString => None
      | String b s' => if Ascii.eqb a b then strip_prefix p' s' else None
      end
  end.

(** [s.startswith(p)] *)
Definition startswith (p s : string) : bool :=
  match strip_prefix p s with Some _ => true | None => false end.

(** [needle in hay] *)
Fixpoint contains (needle hay : string) : bool :=
  match hay with
  | EmptyString => startswith needle EmptyString
  | String _ hay' => startswith needle hay || contains needle hay'
  end.

(** [s.split(sep)] for a one-character separator: never returns [[]]. *)
Fixpoint split (sep : ascii) (s : string) : list string :=
  match s with
  | EmptyString => [EmptyString]
  | String c s' =>
      if Ascii.eqb c sep then EmptyString :: split sep s'
      else match split sep s' with
           | [] => [String c EmptyString]
           | w :: ws => String c w :: ws
           end
  end.

(** [sep.join(parts)] *)
Fixpoint join (sep : string) (parts : list string) : string :=
  match parts with
  | [] => EmptyString
  | [p] => p
  | p :: ps => p +:+ sep +:+ join sep ps
  end.

(** [s.split('/')[-1]]: the list is never empty, so the index is valid. *)
Definition last_segment (s : string) : string :=
  List.last (split "/" s) EmptyString.

(** [c.isspace()] on ASCII: TAB, LF, VT, FF, CR, FS, GS, RS, US, SPACE. *)
Definition isspace (c : ascii) : bool :=
  let n := nat_of_ascii c in
  ((9 <=? n)%nat && (n <=? 13)%nat) || ((28 <=? n)%nat && (n <=? 32)%nat).

Fixpoint lstrip (s : string) : string :=
  match s with
  | EmptyString => EmptyString
  | String c s' => if isspace c then lstrip s' else s
  end.

Fixpoint rstrip (s : string) : string :=
  match s with
  | EmptyString => EmptyString
  | String c s' =>
      match rstrip s' with
      | EmptyString => if isspace c then EmptyString else String c EmptyString
      | r => String c r
      end
  end.

(** [s.strip()] *)
Definition strip (s : string) : string := rstrip (lstrip s).

Definition in_range (lo hi c : ascii) : bool :=
  (nat_of_ascii lo <=? nat_of_ascii c)%nat && (nat_of_ascii c <=? nat_of_ascii hi)%nat.

Definition lower_char (c : ascii) : ascii :=
  if in_range "A" "Z" c then ascii_of_nat (nat_of_ascii c + 32) else c.

(** [s.lower()] *)
Fixpoint lower (s : string) : string :=
  match s with
  | EmptyString => EmptyString
  | String c s' => String (lower_char c) (lower s')
  end.

(** The character class [[a-zA-Z0-9_-]]. *)
Definition is_hash_char (c : ascii) : bool :=
  in_range "a" "z" c || in_range "A" "Z" c || in_range "0" "9" c
  || Ascii.eqb c "_" || Ascii.eqb c "-".

(** Longest prefix made of characters of the class: a greedy [[...]*]. *)
Fixpoint take_while (f : ascii -> bool) (s : string) : string :=
  match s with
  | EmptyString => EmptyString
  | String c s' => if f c then String c (take_while f s') else EmptyString
  end.

Definition or_else {A} (x y : option A) : option A :=
  match x with Some _ => x | None => y end.

(** [https?://] anchored at the head of [s]; the rest of [s] on success. *)
Definition scheme (s : string) : option string :=
  or_else (strip_prefix "https://" s) (strip_prefix "http://" s).

(** [(?:t|telegram)\.me/(?:joinchat/|\+)([a-zA-Z0-9_-]+)] anchored at the
    head of [s]; the result is group 1. *)
Definition match_host_marker (s : string) : option string :=
  match or_else (strip_prefix "t.me/" s) (strip_prefix "telegram.me/" s) with
  | None => None
  | Some r =>
      match or_else (strip_prefix "joinchat/" r) (strip_prefix "+" r) with
      | None => None
      | Some h =>
          let g := take_while is_hash_char h in
          if truthy g then Some g else None
      end
  end.

(** The whole pattern
    [(?:https?://)?(?:t|telegram)\.me/(?:joinchat/|\+)([a-zA-Z0-9_-]+)]
    tried at the head of [s]: the optional scheme is tried first and given
    up when the rest does not match behind it. *)
Definition match_invite_at (s : string) : option string :=
  match scheme s with
  | Some r => or_else (match_host_marker r) (match_host_marker s)
  | None => match_host_marker s
  end.

(** [re.search(pattern, s)] followed by [.group(1)]: leftmost match. *)
Fixpoint search_invite (s : string) : option string :=
  match match_invite_at s with
  | Some g => Some g
  | None =>
      match s with
      | EmptyString => None
      | String _ s' => search_invite s'
      end
  end.

(** [re.sub(r'^(?:https?://)?(?:t\.me/)?', '', s)]: the pattern is anchored,
    both groups are optional and greedy, so exactly one (possibly empty)
    prefix is removed. *)
Definition sub_scheme_host (s : string) : string :=
  let r := default s (scheme s) in
  default r (strip_prefix "t.me/" r).

End Text.

(* ===================================================================== *)
(** ** [UserAccount.extract_chat_links] *)
(* ===================================================================== *)

Module Links.

Import Text.
Local Open Scope string_scope.

(** The private branch of the loop body: the guard
    ['joinchat' in line or '+' in line] and the [re.search] behind it. *)
Definition invite_hash_of (line : string) : option string :=
  if contains "joinchat" line || contains "+" line
  then search_invite line else None.

(** The public branch: the three-way [if] computing [username]. *)
Definition username_of (line : string) : string :=
  if startswith "@" line then
    match line with String _ rest => rest | EmptyString => EmptyString end
  else if startswith "https://" line || startswith "http://" line
          || startswith "t.me" line
  then sub_scheme_host line
  else line.

(** The link a single raw line stands for, if any. *)
Definition line_link (raw : string) : option string :=
  let line := strip raw in
  if negb (truthy line) then None
  else match invite_hash_of line with
       | Some invite_hash => Some ("https://t.me/joinchat/" +:+ invite_hash)
       | None =>
           let username := username_of line in
           if truthy username then Some ("https://t.me/" +:+ username)
           else None
       end.

(** The loop state: the list [links] and the set [seen_links]. *)
Record acc := Acc { links : list string; seen_links : gset string }.

(** [if link not in seen_links: links.append(link); seen_links.add(link)] *)
Definition remember (link : string) (a : acc) : acc :=
  if decide (link ∈ seen_links a) then a
  else Acc (links a ++ [link]) ({[ link ]} ∪ seen_links a).

(** One iteration of [for line in text.split('\n')]. *)
Definition extract_line (a : acc) (raw : string) : acc :=
  match line_link raw with
  | Some link => remember link a
  | None => a
  end.

Definition extract_chat_links (text : string) : list string :=
  links (foldl extract_line (Acc [] ∅) (split newline text)).

(** How [join_chats] reads a link back: the test
    ['/joinchat/' in link or '+' in link] selects the invite import, and
    [link.split('/')[-1]] is the hash or the username. *)
Definition is_invite_link (link : string) : bool :=
  contains "/joinchat/" link || contains "+" link.

Inductive canonical_form := PUBLIC_USERNAME | PRIVATE_INVITE.

Global Instance canonical_form_eq_dec : EqDecision canonical_form.
Proof. solve_decision. Defined.

Definition form_of (link : string) : canonical_form :=
  if is_invite_link link then PRIVATE_INVITE else PUBLIC_USERNAME.

(** The key [(canonical_form, identifier.lower())] of an emitted link. *)
Definition dedup_key (link : string) : canonical_form * string :=
  (form_of link, lower (last_segment link)).

End Links.

(* ===================================================================== *)
(** ** Python control flow: abrupt completion, [except], [finally] *)
(* ===================================================================== *)

Module Py.

(** How a block of statements ends: it runs to its end, executes a
    [return], or raises an exception (identified by [str(e)]). *)
Inductive completion (R : Type) :=
| Normal
| Return (v : R)
| Raise (e : string).
Global Arguments Normal {R}.
Global Arguments Return {R} v.
Global Arguments Raise {R} e.

(** [try: c  except Exception as e: handler(e)] *)
Definition except_Exception {R} (c : completion R)
    (handler : string -> completion R) : completion R :=
  match c with
  | Raise e => handler e
  | _ => c
  end.

(** [try: c  finally: fin]: a [finally] block that itself returns or raises
    discards whatever [c] was about to do. *)
Definition finally {R} (c fin : completion R) : completion R :=
  match fin with
  | Normal => c
  | _ => fin
  end.

(** What the caller of a function observes. *)
Inductive outcome (R : Type) :=
| Value (v : option R)          (* [None] is Python's implicit [None] *)
| Propagates (e : string).
Global Arguments Value {R} v.
Global Arguments Propagates {R} e.

Definition call {R} (body : completion R) : outcome R :=
  match body with
  | Normal => Value None
  | Return v => Value (Some v)
  | Raise e => Propagates e
  end.

(** The answer of a collaborator: a value, or an exception. *)
Inductive answer (A : Type) :=
| Ok (a : A)
| Fails (e : string).
Global Arguments Ok {A} a.
Global Arguments Fails {A} e.

End Py.

(* ===================================================================== *)
(** ** [SessionManager] *)
(* ===================================================================== *)

Module Locks.

Import Text Py.
Local Open Scope string_scope.

(** An open file object: the path it was opened on and its descriptor. *)
Record file := File { name : string; fileno : nat }.

(** The manager's two dictionaries together with the part of the operating
    system they talk to: the paths that exist, the paths carrying an
    exclusive [flock], and the descriptors still open. *)
Record manager := Manager {
  session_dir : string;
  locks : gmap string file;
  lock_files : gmap string string;
  existing : gset string;
  flocked : gset string;
  opened : gset nat;
}.

(** What the operating system does to the calls of one invocation. *)
Record os := OS {
  open_fails : bool;        (* [open(lock_file, 'w')] raises [IOError] *)
  fresh_fd : nat;           (* the descriptor [open] hands out *)
  flock_fails : bool;       (* [fcntl.flock(...)] raises *)
  close_fails : bool;       (* [f.close()] raises *)
  remove_fails : bool;      (* [os.remove(...)] raises [OSError] *)
}.

(** [os.path.join(self.session_dir, f"{session_name}.lock")] *)
Definition lock_path (m : manager) (session_name : string) : string :=
  session_dir m +:+ "/" +:+ session_name +:+ ".lock".

Definition set_locks (f : gmap string file -> gmap string file) (m : manager) :=
  Manager (session_dir m) (f (locks m)) (lock_files m) (existing m) (flocked m) (opened m).
Definition set_lock_files (f : gmap string string -> gmap string string) (m : manager) :=
  Manager (session_dir m) (locks m) (f (lock_files m)) (existing m) (flocked m) (opened m).
Definition set_existing (f : gset string -> gset string) (m : manager) :=
  Manager (session_dir m) (locks m) (lock_files m) (f (existing m)) (flocked m) (opened m).
Definition set_flocked (f : gset string -> gset string) (m : manager) :=
  Manager (session_dir m) (locks m) (lock_files m) (existing m) (f (flocked m)) (opened m).
Definition set_opened (f : gset nat -> gset nat) (m : manager) :=
  Manager (session_dir m) (locks m) (lock_files m) (existing m) (flocked m) (f (opened m)).

(** The [try] block of [acquire_lock].  [open(lock_file, 'w')] creates the
    file.  [LOCK_EX | LOCK_NB] fails when the path is already locked (by
    anyone, this process included: the lock belongs to the open file, and
    [open] makes a new one) or when the system call fails; the file object
    is then dropped, and closed with it. *)
Definition acquire_lock_try (o : os) (session_name : string) (m : manager)
  : completion bool * manager :=
  let lock_file := lock_path m session_name in
  if open_fails o then (Raise "IOError", m)
  else
    let f := File lock_file (fresh_fd o) in
    let m := set_existing (union {[ lock_file ]}) m in
    if flock_fails o || bool_decide (lock_file ∈ flocked m) then (Raise "IOError", m)
    else
      let m := set_opened (union {[ fresh_fd o ]}) m in
      let m := set_flocked (union {[ lock_file ]}) m in
      let m := set_locks <[ session_name := f ]> m in
      let m := set_lock_files <[ session_name := lock_file ]> m in
      (Return true, m).

(** Both handlers ([except IOError], [except Exception]) log and
    [return False]. *)
Definition acquire_lock (o : os) (session_name : string) (m : manager)
  : outcome bool * manager :=
  let '(c, m') := acquire_lock_try o session_name m in
  (call (except_Exception c (fun _ => Return false)), m').

(** The innermost [try: os.remove(lock_file)  except OSError: pass]. *)
Definition remove_quietly (o : os) (lock_file : string) (m : manager) : manager :=
  if remove_fails o then m else set_existing (fun fs => fs ∖ {[ lock_file ]}) m.

(** The [try] block of [release_lock].  When [flock] or [close] raises, the
    statements after it are skipped: the entry of [lock_files] stays. *)
Definition release_lock_try (o : os) (session_name : string) (m : manager)
  : completion () * manager :=
  match locks m !! session_name with
  | None => (Normal, m)                       (* [session_name not in self.locks] *)
  | Some f =>
      let m := set_locks (delete session_name) m in          (* [self.locks.pop] *)
      if flock_fails o then (Raise "OSError", m)
      else
        let m := set_flocked (fun l => l ∖ {[ name f ]}) m in  (* [LOCK_UN] *)
        if close_fails o then (Raise "OSError", m)
        else
          let m := set_opened (fun d => d ∖ {[ fileno f ]}) m in
          let lock_file := lock_files m !! session_name in   (* [pop(name, None)] *)
          let m := set_lock_files (delete session_name) m in
          match lock_file with
          | Some p =>
              if truthy p && bool_decide (p ∈ existing m)
              then (Normal, remove_quietly o p m)
              else (Normal, m)
          | None => (Normal, m)
          end
  end.

(** [except Exception as e: logger.error(...)] swallows the exception. *)
Definition release_lock (o : os) (session_name : string) (m : manager)
  : outcome () * manager :=
  let '(c, m') := release_lock_try o session_name m in
  (call (except_Exception c (fun _ => Normal)), m').

End Locks.

(* ===================================================================== *)
(** ** [UserAccount.join_chats] *)
(* ===================================================================== *)

Module Join.

Import Text Py.
Local Open Scope string_scope.

(** *** Data *)

(** A dialog as the loop reads it: [d.is_channel], [d.entity.username]. *)
Record dialog := Dialog { is_channel : bool; username : option string }.

Record failed_chat := FailedChat { link : string; error : string }.

(** The [results] dictionary created on entry. *)
Record run_result := Results {
  success : nat;
  failed : nat;
  failed_chats : list failed_chat;
  captcha_required : list string;
  captcha_screenshots : list string;
  captcha_solved : list string;
  already_member : nat;
}.

Definition fresh_results : run_result := Results 0 0 [] [] [] [] 0.

(** The two shapes of dictionary the body can hand to [return]. *)
Inductive dict :=
| ErrorDict (error : string)
| ResultsDict (r : run_result).

(** The status message handle; [deleted] is [getattr(m, 'deleted', False)]. *)
Record message := Message { deleted : bool; chat_id : Z }.

(** [status_msg and not getattr(status_msg, 'deleted', False)] *)
Definition usable (status_msg : option message) : bool :=
  match status_msg with
  | Some m => negb (deleted m)
  | None => false
  end.

(** Which of the two f-string templates a text passed to [update_status]
    was built from. *)
Inductive status_text :=
| Processing (link : string)
| FloodNotice (wait_time : Z).

(** How the join request of one iteration ends. *)
Inductive join_answer :=
| Joined
| FloodWaitError (seconds : Z)
| OtherError (message : string).

(** The collaborators.  [request i link] answers the join request of the
    [i]-th iteration; [now k] is the value of the [k]-th call of
    [datetime.now()], in microseconds; [edit_message k] is [None] when the
    [k]-th call of [client.edit_message] succeeds and the exception
    otherwise. *)
Record telegram := Telegram {
  is_connected : bool;
  connect : option string;
  is_user_authorized : answer bool;
  get_dialogs : answer (list dialog);
}.

Record env := Env {
  client : option telegram;
  request : nat -> string -> join_answer;
  now : nat -> Z;
  edit_message : nat -> option string;
  send_message : option string;
}.

(** What the run does to the outside world, oldest first. *)
Inductive event :=
| Connect
| GetDialogs
| ImportChatInvite (invite_hash : string)
| JoinChannel (username : string)
| Sleep (seconds : Q)
| StatusEdit (current_time : Z) (text : status_text) (ok : bool)
| FinalEdit (ok : bool)
| FinalSend (ok : bool).

(** The mutable state: the [results] object, the two attributes of [self],
    the closure variable [last_status_update], and the bookkeeping of the
    collaborators (how often the clock and [edit_message] were used). *)
Record state := State {
  results : run_result;
  join_count : nat;
  current_delay : Q;
  last_status_update : Z;
  clock_reads : nat;
  edit_calls : nat;
  trace : list event;
}.

Definition set_results (f : run_result -> run_result) (s : state) : state :=
  State (f (results s)) (join_count s) (current_delay s) (last_status_update s)
        (clock_reads s) (edit_calls s) (trace s).
Definition set_join_count (n : nat) (s : state) : state :=
  State (results s) n (current_delay s) (last_status_update s)
        (clock_reads s) (edit_calls s) (trace s).
Definition set_current_delay (d : Q) (s : state) : state :=
  State (results s) (join_count s) d (last_status_update s)
        (clock_reads s) (edit_calls s) (trace s).
Definition set_last_status_update (t : Z) (s : state) : state :=
  State (results s) (join_count s) (current_delay s) t
        (clock_reads s) (edit_calls s) (trace s).
Definition emit (ev : event) (s : state) : state :=
  State (results s) (join_count s) (current_delay s) (last_status_update s)
        (clock_reads s) (edit_calls s) (trace s ++ [ev]).

(** [datetime.now()] *)
Definition datetime_now (e : env) (s : state) : Z * state :=
  (now e (clock_reads s),
   State (results s) (join_count s) (current_delay s) (last_status_update s)
         (S (clock_reads s)) (edit_calls s) (trace s)).

(** [await self.client.edit_message(status_msg, text)] *)
Definition call_edit_message (e : env) (s : state) : option string * state :=
  (edit_message e (edit_calls s),
   State (results s) (join_count s) (current_delay s) (last_status_update s)
         (clock_reads s) (S (edit_calls s)) (trace s)).

(** [await asyncio.sleep(d)] *)
Definition sleep (d : Q) (s : state) : state := emit (Sleep d) s.

(** Updates of the [results] dictionary. *)
Definition incr_success (r : run_result) : run_result :=
  Results (S (success r)) (failed r) (failed_chats r) (captcha_required r)
          (captcha_screenshots r) (captcha_solved r) (already_member r).
Definition incr_failed (r : run_result) : run_result :=
  Results (success r) (S (failed r)) (failed_chats r) (captcha_required r)
          (captcha_screenshots r) (captcha_solved r) (already_member r).
Definition incr_already_member (r : run_result) : run_result :=
  Results (success r) (failed r) (failed_chats r) (captcha_required r)
          (captcha_screenshots r) (captcha_solved r) (S (already_member r)).
Definition append_failed_chat (fc : failed_chat) (r : run_result) : run_result :=
  Results (success r) (failed r) (failed_chats r ++ [fc]) (captcha_required r)
          (captcha_screenshots r) (captcha_solved r) (already_member r).
Definition append_captcha_required (l : string) (r : run_result) : run_result :=
  Results (success r) (failed r) (failed_chats r) (captcha_required r ++ [l])
          (captcha_screenshots r) (captcha_solved r) (already_member r).

(** *** Membership *)

(** [{d.entity.username.lower(): d.entity for d in dialogs
      if d.is_channel and d.entity.username}] *)
Definition existing_chats (dialogs : list dialog) : gmap string dialog :=
  foldl (fun m d =>
           match username d with
           | Some u => if is_channel d && truthy u then <[ lower u := d ]> m else m
           | None => m
           end) ∅ dialogs.

(** [link.split('/')[-1].lower() in existing_chats] *)
Definition is_member (existing : gmap string dialog) (link : string) : bool :=
  bool_decide (lower (last_segment link) ∈ dom existing).

(** The first pass over [chat_links], counting the links already joined. *)
Definition count_members (existing : gmap string dialog)
    (chat_links : list string) (s : state) : state :=
  foldl (fun s link => if is_member existing link
                       then set_results incr_already_member s else s)
        s chat_links.

(** *** Pacing *)

(** Python's [min(a, b)]: [b] when [b < a], else [a]. *)
Definition py_min (a b : Q) : Q :=
  match (b ?= a)%Q with Lt => b | _ => a end.

(** The [if / elif / else] on [self.join_count] after a successful join;
    [n] is the counter after its increment. *)
Definition next_delay (n : nat) (delay : Q) : Q :=
  if (n =? 1)%nat then 10%Q
  else if (n =? 2)%nat then 60%Q
  else py_min 600%Q (delay * 1.1)%Q.

(** *** Progress reporting *)

(** The nested [update_status]: both [try] blocks log and swallow. *)
Definition update_status (e : env) (status_msg : option message)
    (text : status_text) (s : state) : state :=
  let '(current_time, s) := datetime_now e s in
  if (current_time - last_status_update s <? 2000000)%Z then s
  else if usable status_msg then
    match call_edit_message e s with
    | (None, s) =>
        set_last_status_update current_time
          (emit (StatusEdit current_time text true) s)
    | (Some _, s) => emit (StatusEdit current_time text false) s
    end
  else s.

(** *** The loop *)

(** The request sent for a link. *)
Definition request_of (link : string) : event :=
  if Links.is_invite_link link then ImportChatInvite (last_segment link)
  else JoinChannel (last_segment link).

(** f"Нужно подождать {wait_time} секунд" *)
Definition flood_text (wait_time : Z) : string :=
  "Нужно подождать " +:+ pretty wait_time +:+ " секунд".

(** The three ways the inner [try] of one iteration ends. *)
Definition on_joined (s : state) : state :=
  let s := set_results incr_success s in
  let s := set_join_count (S (join_count s)) s in
  let s := set_current_delay (next_delay (join_count s) (current_delay s)) s in
  sleep (current_delay s) s.

Definition on_flood_wait (e : env) (status_msg : option message)
    (link : string) (wait_time : Z) (s : state) : state :=
  let s := set_results (append_failed_chat (FailedChat link (flood_text wait_time))) s in
  let s := set_results incr_failed s in
  let s := update_status e status_msg (FloodNotice wait_time) s in
  let s := sleep (inject_Z wait_time) s in
  set_current_delay 10%Q s.

Definition on_error (link message : string) (s : state) : state :=
  if contains "captcha" (lower message) then
    set_results incr_failed (set_results (append_captcha_required link) s)
  else
    set_results incr_failed (set_results (append_failed_chat (FailedChat link message)) s).

(** The body of [for i, link in enumerate(chat_links, 1)].  Nothing
    outside the inner [try] raises ([update_status] swallows its own
    exceptions), so the handler of the enclosing [try] is never entered. *)
Definition join_one (e : env) (status_msg : option message)
    (existing : gmap string dialog) (i : nat) (link : string) (s : state) : state :=
  let '(_, s) := datetime_now e s in                  (* [time_passed] *)
  if is_member existing link then s                   (* [continue] *)
  else
    let s := update_status e status_msg (Processing link) s in
    let s := emit (request_of link) s in
    match request e i link with
    | Joined => on_joined s
    | FloodWaitError wait_time => on_flood_wait e status_msg link wait_time s
    | OtherError message => on_error link message s
    end.

Fixpoint join_loop (e : env) (status_msg : option message)
    (existing : gmap string dialog) (i : nat) (chat_links : list string)
    (s : state) : state :=
  match chat_links with
  | [] => s
  | link :: rest =>
      join_loop e status_msg existing (S i) rest
                (join_one e status_msg existing i link s)
  end.

(** The final summary: one [edit_message], and one [send_message] when the
    edit raised. *)
Definition final_status (e : env) (status_msg : option message) (s : state) : state :=
  let '(_, s) := datetime_now e s in        (* the elapsed time in the text *)
  if usable status_msg then
    match call_edit_message e s with
    | (None, s) => emit (FinalEdit true) s
    | (Some _, s) =>
        let s := emit (FinalEdit false) s in
        match send_message e with
        | None => emit (FinalSend true) s
        | Some _ => emit (FinalSend false) s
        end
    end
  else s.

(** From the first pass over [chat_links] to the assignment of
    [last_status_update]: the state in which the loop is entered. *)
Definition loop_entry (e : env) (existing : gmap string dialog)
    (chat_links : list string) (s : state) : state :=
  let s := count_members existing chat_links s in
  let '(start_time, s) := datetime_now e s in
  let s := set_current_delay 10%Q (set_join_count 0 s) in
  let '(t, s) := datetime_now e s in
  set_last_status_update t s.

(** Everything after the setup checks. *)
Definition run (e : env) (status_msg : option message) (dialogs : list dialog)
    (chat_links : list string) (s : state) : state :=
  let existing := existing_chats dialogs in
  let s := loop_entry e existing chat_links s in
  let s := join_loop e status_msg existing 1 chat_links s in
  final_status e status_msg s.

(** The body of the outer [try]. *)
Definition join_chats_try (e : env) (chat_links : list string)
    (status_msg : option message) (s : state) : completion dict * state :=
  match chat_links with
  | [] => (Return (ErrorDict "Список каналов пуст"), s)
  | _ =>
      match client e with
      | None => (Return (ErrorDict "Клиент не инициализирован"), s)
      | Some c =>
          let connected :=
            if is_connected c then (None, s) else (connect c, emit Connect s) in
          match connected with
          | (Some exn, s) => (Raise exn, s)
          | (None, s) =>
              match is_user_authorized c with
              | Fails exn => (Raise exn, s)
              | Ok false => (Return (ErrorDict "Клиент не авторизован"), s)
              | Ok true =>
                  let s := emit GetDialogs s in
                  match get_dialogs c with
                  | Fails exn => (Raise exn, s)
                  | Ok dialogs => (Normal, run e status_msg dialogs chat_links s)
                  end
              end
          end
      end
  end.

(** The state on entry: [self.join_count] and [self.current_delay] are
    whatever the account object carries over. *)
Definition entry (join_count0 : nat) (current_delay0 : Q) : state :=
  State fresh_results join_count0 current_delay0 0 0 0 [].

(** [join_chats]: the outer [try], its [except Exception] handler and the
    [finally: return results] that closes it.  [results] is one object, so
    the [finally] returns it as the body left it. *)
Definition join_chats (e : env) (chat_links : list string)
    (status_msg : option message) (join_count0 : nat) (current_delay0 : Q)
  : outcome dict * state :=
  let '(c, s) := join_chats_try e chat_links status_msg
                                (entry join_count0 current_delay0) in
  let c := except_Exception c (fun exn => Return (ErrorDict exn)) in
  let c := finally c (Return (ResultsDict (results s))) in
  (call c, s).

(** *** Observations on a trace *)

Definition sleeps (t : list event) : list Q :=
  omap (fun ev => match ev with Sleep d => Some d | _ => None end) t.

Definition requests (t : list event) : list event :=
  omap (fun ev => match ev with
                  | ImportChatInvite _ | JoinChannel _ => Some ev
                  | _ => None
                  end) t.

Definition render_times (t : list event) : list Z :=
  omap (fun ev => match ev with
                  | StatusEdit at_ _ true => Some at_
                  | _ => None
                  end) t.

Definition final_edits (t : list event) : list bool :=
  omap (fun ev => match ev with FinalEdit ok => Some ok | _ => None end) t.

End Join.

(* ===================================================================== *)
(** ** The pacing arithmetic in binary64 *)
(* ===================================================================== *)

(** [Join.next_delay] computes over the rationals.  Python evaluates
    [self.current_delay * 1.1] in IEEE binary64; this module repeats the
    [if / elif / else] of the source over the kernel's binary64 numbers, so
    that the bounds proved over the rationals can be re-checked with the
    rounding Python performs. *)
Module Binary64.

Local Open Scope float_scope.

(** The float Python reads the literal [1.1] as. *)
Definition growth_factor : float := 0x1.199999999999ap+0.

(** [min(600, delay * 1.1)] *)
Definition next_delay (n : nat) (delay : float) : float :=
  if (n =? 1)%nat then 10
  else if (n =? 2)%nat then 60
  else let x := delay * growth_factor in if x <? 600 then x else 600.

End Binary64.

(* ===================================================================== *)
(** ** [ResourceManager.cleanup_old_files] *)
(* ===================================================================== *)

Module Resources.

Local Open Scope Z_scope.

(** A directory is a [gmap string Z]: the names it lists, each with the
    instant of its [os.path.getctime], in microseconds. *)

(** What the operating system does to the calls of one cleanup. *)
Record os := OS {
  listdir_fails : bool;               (* [os.listdir(directory)] raises *)
  getctime_fails : string -> bool;    (* [os.path.getctime(filepath)] raises *)
  remove_fails : string -> bool;      (* [os.remove(filepath)] raises *)
}.

(** [(current_time - file_time).total_seconds() > max_age_hours * 3600],
    on instants counted in microseconds. *)
Definition too_old (current_time max_age_hours file_time : Z) : bool :=
  max_age_hours * 3600 * 1000000 <? current_time - file_time.

(** The inner [try] of the loop: one file.  Every exception is logged and
    the loop goes on with the next file. *)
Definition cleanup_file (o : os) (current_time max_age_hours : Z)
    (dir : gmap string Z) (filename : string) : gmap string Z :=
  if getctime_fails o filename then dir
  else
    match dir !! filename with
    | None => dir                          (* the file is gone: [getctime] raises *)
    | Some file_time =>
        if too_old current_time max_age_hours file_time then
          if remove_fails o filename then dir else delete filename dir
        else dir
    end.

(** [cleanup_old_files(directory, max_age_hours)], run at [current_time]. *)
Definition cleanup_old_files (o : os) (current_time max_age_hours : Z)
    (dir : gmap string Z) : gmap string Z :=
  if listdir_fails o then dir
  else foldl (cleanup_file o current_time max_age_hours) dir (map_to_list dir).*1.

End Resources.

(* ===================================================================== *)
(** ** [UserAccount.start_client], [UserAccount.disconnect] and the session
       files of [get_or_create_user_account] *)
(* ===================================================================== *)

Module Account.

Import Text Py Locks.
Local Open Scope string_scope.

(** [self.session_name = f'user_{phone}'] *)
Definition session_name (phone : string) : string := "user_" +:+ phone.

(** How [client.sign_in(phone=..., code=..., phone_code_hash=...)] ends. *)
Inductive sign_in_answer :=
| SignedIn
| SessionPasswordNeededError
| SignInFails (e : string).

(** The Telegram side of one account: how each call ends.  An [option
    string] is the exception raised, if any. *)
Record telegram := Telegram {
  new_client : option string;                 (* [TelegramClient(...)] *)
  connect : option string;                    (* [client.connect()] *)
  is_user_authorized : answer bool;
  send_code_request : answer string;          (* its [phone_code_hash] *)
  sign_in_code : sign_in_answer;
  sign_in_password : nat -> option string;    (* the [k]-th [sign_in(password=...)] *)
  client_disconnect : option string;          (* [client.disconnect()] *)
}.

(** The attributes of a [UserAccount] that the two methods touch. *)
Record account := Account {
  phone : string;
  client : bool;                       (* [self.client] is not [None] *)
  phone_code_hash : option string;
}.

(** The account, the [SessionManager] it shares with the other accounts,
    and the lines still to be read from the terminal. *)
Record world := World {
  self : account;
  session_manager : manager;
  stdin : list string;
}.

Definition set_client (b : bool) (w : world) : world :=
  World (Account (phone (self w)) b (phone_code_hash (self w)))
        (session_manager w) (stdin w).
Definition set_phone_code_hash (h : option string) (w : world) : world :=
  World (Account (phone (self w)) (client (self w)) h)
        (session_manager w) (stdin w).
Definition set_session_manager (m : manager) (w : world) : world :=
  World (self w) m (stdin w).
Definition set_stdin (l : list string) (w : world) : world :=
  World (self w) (session_manager w) l.

(** [self.session_manager.release_lock(self.session_name)] *)
Definition release (o : os) (w : world) : world :=
  set_session_manager
    (release_lock o (session_name (phone (self w))) (session_manager w)).2 w.

(** How the [while True] loop asking for the two-factor password ends. *)
Inductive loop_end :=
| Break                    (* the password was accepted *)
| GiveUp                   (* the answer to the retry question was not [y] *)
| LoopRaises (e : string). (* [input] met the end of the terminal *)

(** The loop, by the lines it reads: a password, then, when [sign_in]
    refuses it, the answer to the retry question.  An [input] at the end
    of the terminal raises [EOFError]: the one for the password is caught
    by the loop's own handler, whose [input] then raises it again. *)
Fixpoint password_loop (t : telegram) (k : nat) (lines : list string)
  : loop_end * list string :=
  match lines with
  | [] => (LoopRaises "EOFError", [])
  | password :: rest =>
      match sign_in_password t k with
      | None => (Break, rest)
      | Some _ =>
          match rest with
          | [] => (LoopRaises "EOFError", [])
          | retry :: rest' =>
              if String.eqb (lower retry) "y"
              then password_loop t (S k) rest'
              else (GiveUp, rest')
          end
      end
  end.

(** The [try] block of [start_client]; [o_acquire] and [o_release] say what
    the operating system does to the calls of [acquire_lock] and of
    [release_lock]. *)
Definition start_client_try (t : telegram) (o_acquire o_release : os) (w : world)
  : completion bool * world :=
  let name := session_name (phone (self w)) in
  let '(locked, m) := acquire_lock o_acquire name (session_manager w) in
  let w := set_session_manager m w in
  match locked with
  | Value (Some true) =>
      match new_client t with
      | Some exn => (Raise exn, w)
      | None =>
          let w := set_client true w in
          match connect t with
          | Some exn => (Raise exn, w)
          | None =>
              match is_user_authorized t with
              | Fails exn => (Raise exn, w)
              | Ok true => (Return true, w)
              | Ok false =>
                  match send_code_request t with
                  | Fails exn => (Raise exn, w)
                  | Ok hash =>
                      let w := set_phone_code_hash (Some hash) w in
                      match stdin w with
                      | [] => (Raise "EOFError", w)
                      | code :: rest =>
                          let w := set_stdin rest w in
                          match sign_in_code t with
                          | SignedIn => (Return true, w)
                          | SignInFails exn => (Raise exn, w)
                          | SessionPasswordNeededError =>
                              match password_loop t 0 (stdin w) with
                              | (Break, rest) => (Return true, set_stdin rest w)
                              | (GiveUp, rest) =>
                                  (Return false, release o_release (set_stdin rest w))
                              | (LoopRaises exn, rest) => (Raise exn, set_stdin rest w)
                              end
                          end
                      end
                  end
              end
          end
      end
  | _ => (Return false, w)
  end.

(** [start_client]: the handler releases the lock, disconnects the client
    when there is one, and returns [False]; an exception of that
    [disconnect] is the only one that leaves the method. *)
Definition start_client (t : telegram) (o_acquire o_release : os) (w : world)
  : outcome bool * world :=
  match start_client_try t o_acquire o_release w with
  | (Raise _, w) =>
      let w := release o_release w in
      if client (self w) then
        match client_disconnect t with
        | Some exn => (Propagates exn, w)
        | None => (Value (Some false), w)
        end
      else (Value (Some false), w)
  | (c, w) => (call c, w)
  end.

(** [disconnect]: everything happens under [if self.client:], and every
    exception is logged and dropped. *)
Definition disconnect (t : telegram) (o : os) (w : world) : world :=
  if client (self w) then
    match client_disconnect t with
    | Some _ => w
    | None => release o (set_phone_code_hash None (set_client false w))
    end
  else w.

(** *** Session files *)

(** [s.endswith(suffix)] *)
Fixpoint endswith (suffix s : string) : bool :=
  String.eqb s suffix
  || match s with
     | EmptyString => false
     | String _ s' => endswith suffix s'
     end.

(** [s[n:]] *)
Fixpoint slice_from (n : nat) (s : string) : string :=
  match n, s with
  | 0, _ => s
  | S _, EmptyString => EmptyString
  | S n', String _ s' => slice_from n' s'
  end.

(** The filter of the list comprehension:
    [f.startswith('user_') and not f.endswith('.lock')]. *)
Definition is_session_file (f : string) : bool :=
  startswith "user_" f && negb (endswith ".lock" f).

(** [session_file[5:].split('.')[0].split('_')[0]] *)
Definition phone_of_session_file (session_file : string) : string :=
  let stem := hd EmptyString (split "." (slice_from 5 session_file)) in
  hd EmptyString (split "_" stem).

End Account.

(* ===================================================================== *)
(** ** [TelegramBot.process_file] *)
(* ===================================================================== *)

Module Files.

Import Text Py.
Local Open Scope string_scope.
Local Open Scope char_scope.

(** *** The uploaded file *)

(** An [io.BytesIO]: its bytes and the position of the next read. *)
Record bytes_io := BytesIO { getvalue : string; tell : nat }.

(** [file.read()]: everything from the position on; the position moves to
    the end. *)
Definition read (file : bytes_io) : string * bytes_io :=
  (Account.slice_from (tell file) (getvalue file),
   BytesIO (getvalue file) (String.length (getvalue file))).

(** [file.seek(0)] *)
Definition seek0 (file : bytes_io) : bytes_io := BytesIO (getvalue file) 0.

(** The readers the method relies on.  [read_excel] is the outcome of
    [pd.read_excel(file)]: the [str(value)] of the cells that are not
    null, column by column, or the exception (an [ImportError] of pandas
    included).  [read_text encoding data] is what [open(temp_path, 'r',
    encoding=encoding).read()] returns for a temporary file holding [data],
    or the exception it raises; [unlink encoding] is the outcome of
    [os.unlink(temp_path)] in the turn of [encoding].  Creating and writing
    the temporary file is taken to succeed. *)
Record readers := Readers {
  read_excel : answer (list string);
  read_text : string -> string -> answer string;
  unlink : string -> answer ();
}.

(** *** The two regular expressions *)

(** The character class [[a-zA-Z0-9_@/+-]]. *)
Definition is_link_char (c : ascii) : bool :=
  in_range "a" "z" c || in_range "A" "Z" c || in_range "0" "9" c
  || Ascii.eqb c "_" || Ascii.eqb c "@" || Ascii.eqb c "/"
  || Ascii.eqb c "+" || Ascii.eqb c "-".

(** [[a-zA-Z]] and [[a-zA-Z0-9_]] *)
Definition is_letter (c : ascii) : bool :=
  in_range "a" "z" c || in_range "A" "Z" c.
Definition is_word_char (c : ascii) : bool :=
  is_letter c || in_range "0" "9" c || Ascii.eqb c "_".

(** [(?:t\.me|telegram\.me)/[a-zA-Z0-9_@/+-]+] tried at the head of [s]:
    the text matched. *)
Definition host_path_at (s : string) : option string :=
  let after host :=
    match strip_prefix host s with
    | Some (String "/" rest) =>
        let run := take_while is_link_char rest in
        if truthy run then Some (host +:+ "/" +:+ run)%string else None
    | _ => None
    end in
  or_else (after "t.me"%string) (after "telegram.me"%string).

(** [(?:https?://)?(?:t\.me|telegram\.me)/[a-zA-Z0-9_@/+-]+] tried at the
    head of [s]: with the scheme first, without it when that fails. *)
Definition tg_link_at (s : string) : option string :=
  let with_scheme sch :=
    match strip_prefix sch s with
    | Some rest =>
        match host_path_at rest with
        | Some m => Some (sch +:+ m)%string
        | None => None
        end
    | None => None
    end in
  or_else (or_else (with_scheme "https://"%string) (with_scheme "http://"%string))
          (host_path_at s).

(** [@[a-zA-Z][a-zA-Z0-9_]{3,}(?:\s|$)] tried at the head of [s].  The
    repetition is greedy, and giving characters back cannot help: what
    would follow is a word character.  The white space matched, if any, is
    part of the text. *)
Definition username_at (s : string) : option string :=
  match s with
  | String "@" (String c rest) =>
      if is_letter c then
        let run := take_while is_word_char rest in
        if (3 <=? String.length run)%nat then
          match Account.slice_from (String.length run) rest with
          | EmptyString => Some (String "@" (String c run))
          | String w _ =>
              if isspace w
              then Some (String "@" (String c (run +:+ String w EmptyString)))
              else None
          end
        else None
      else None
  | _ => None
  end.

(** [re.findall(pattern, s)] for a pattern without groups whose matches
    are never empty: the matches from left to right, each search starting
    where the last match ended.  [skip] counts the characters of the last
    match still to be passed. *)
Fixpoint findall_from (match_at : string -> option string) (skip : nat)
    (s : string) : list string :=
  match skip, s with
  | _, EmptyString => []
  | S k, String _ s' => findall_from match_at k s'
  | 0, String _ s' =>
      match match_at s with
      | Some m => m :: findall_from match_at (String.length m - 1) s'
      | None => findall_from match_at 0 s'
      end
  end.

Definition findall (match_at : string -> option string) (s : string) : list string :=
  findall_from match_at 0 s.

(** *** The passes over the file *)

(** The test on a cell of the sheet:
    [value.startswith(('https://t.me/', 'http://t.me/', '@', 't.me/'))]. *)
Definition looks_like_link (value : string) : bool :=
  startswith "https://t.me/" value || startswith "http://t.me/" value
  || startswith "@" value || startswith "t.me/" value.

(** The loop over the cells. *)
Definition excel_links (cells : list string) : list string :=
  List.filter (fun value => truthy value && looks_like_link value)
              (strip <$> cells).

(** [if x not in links: links.append(x)] *)
Definition append_new (links : list string) (x : string) : list string :=
  if decide (x ∈ links) then links else links ++ [x].

(** The two loops over the matches found in a decoded text: they go on
    appending to [links]. *)
Definition text_links (links : list string) (content : string) : list string :=
  let tg_links := findall tg_link_at content in
  let username_links := findall username_at content in
  let links := foldl append_new links tg_links in
  foldl (fun links username => append_new links (strip username))
        links username_links.

(** The loop over the encodings: each turn copies [file.read()] to a
    temporary file and reads it back as text.  A turn that raises, in the
    reading or in the final [os.unlink], goes on with the next encoding,
    keeping what [links] has got; a turn that does not raise ends the
    loop. *)
Fixpoint try_encodings (r : readers) (encodings : list string) (file : bytes_io)
    (links : list string) : list string * bytes_io :=
  match encodings with
  | [] => (links, file)
  | encoding :: rest =>
      let '(data, file) := read file in
      match read_text r encoding data with
      | Ok content =>
          let links := text_links links content in
          match unlink r encoding with
          | Ok _ => (links, file)
          | Fails _ => try_encodings r rest file links
          end
      | Fails _ => try_encodings r rest file links
      end
  end.

Definition encodings : list string :=
  ["utf-8"; "windows-1251"; "cp1251"]%string.

(** *** Normalisation *)

(** The body of [for link in links]: drop a leading [@], put
    [https://t.me/] in front of what has no scheme. *)
Definition normalize_link (link : string) : string :=
  let link :=
    if startswith "@" link
    then match link with String _ rest => rest | EmptyString => EmptyString end
    else link in
  if startswith "http://" link || startswith "https://" link then link
  else ("https://t.me/" +:+ link)%string.

(** The loop, with its set [seen]. *)
Definition normalize (links : list string) : list string :=
  Links.links
    (foldl (fun a link => Links.remember (normalize_link link) a)
           (Links.Acc [] ∅) links).

(** The links of the sheet: none when [pd.read_excel] raises. *)
Definition sheet_links (r : readers) : list string :=
  match read_excel r with
  | Ok cells => excel_links cells
  | Fails _ => []
  end.

(** [process_file]: the sheet first, the text formats only when the sheet
    gave no link. *)
Definition process_file (r : readers) (file : bytes_io) : list string :=
  let links := sheet_links r in
  let links :=
    match links with
    | [] => (try_encodings r encodings (seek0 file) links).1
    | _ => links
    end in
  normalize links.

End Files.

(* ===================================================================== *)
(** ** [UserAccount.get_account_info] and the handler of a phone number *)
(* ===================================================================== *)

Module Info.

Import Text Py.
Local Open Scope string_scope.
Local Open Scope Z_scope.

(** *** What Telegram tells *)

(** [d.entity.participants_count]: the attribute may be missing
    ([hasattr] is false), hold [None], or hold a number. *)
Inductive attribute := Missing | IsNone | Count (n : Z).

Record dialog := Dialog {
  is_channel : bool;
  is_group : bool;
  is_user : bool;
  participants_count : attribute;
}.

(** What the method reads of [me]. *)
Record user := User {
  first_name : option string;
  username : option string;
  premium : bool;
}.

(** How each call on the client ends; an [option string] is the exception
    raised, if any. *)
Record telegram := Telegram {
  is_connected : bool;
  connect : option string;
  is_user_authorized : answer bool;
  get_me : answer user;
  get_entity : option string;
  get_dialogs : answer (list dialog);
}.

(** *** The dictionary *)

(** The values of the dictionary: strings, numbers, and the inner
    dictionary of [limits].  A dictionary literal is the list of its
    items, in the order written. *)
Inductive value :=
| Str (s : string)
| Int (n : Z)
| Dict (d : list (string * Z)).

(** [d[key]] *)
Fixpoint item {A} (key : string) (d : list (string * A)) : answer A :=
  match d with
  | [] => Fails "KeyError"
  | (k, v) :: rest => if String.eqb k key then Ok v else item key rest
  end.

(** [x or default] *)
Definition or_default (x : option string) (default : string) : string :=
  match x with
  | Some s => if truthy s then s else default
  | None => default
  end.

(** [d.is_group and hasattr(d.entity, 'participants_count') and
    d.entity.participants_count > 200]: comparing [None] with a number
    raises [TypeError]. *)
Definition large_group (d : dialog) : answer bool :=
  if is_group d then
    match participants_count d with
    | Missing => Ok false
    | IsNone => Fails "TypeError"
    | Count n => Ok (200 <? n)
    end
  else Ok false.

(** The same with [<= 200]. *)
Definition small_group (d : dialog) : answer bool :=
  if is_group d then
    match participants_count d with
    | Missing => Ok false
    | IsNone => Fails "TypeError"
    | Count n => Ok (n <=? 200)
    end
  else Ok false.

(** [sum(1 for d in dialogs if test(d))] *)
Fixpoint count (test : dialog -> answer bool) (dialogs : list dialog) : answer Z :=
  match dialogs with
  | [] => Ok 0
  | d :: rest =>
      match test d with
      | Fails e => Fails e
      | Ok b =>
          match count test rest with
          | Fails e => Fails e
          | Ok n => Ok ((if b then 1 else 0) + n)
          end
      end
  end.

(** [get_account_info]: [None] stands for both [return None] and an
    exception, which the method logs and turns into [None]. *)
Definition get_account_info (t : telegram) (self : Account.account)
  : option (list (string * value)) :=
  if negb (Account.client self) then None
  else
    match (if is_connected t then None else connect t) with
    | Some _ => None
    | None =>
    match is_user_authorized t with
    | Ok true =>
    match get_me t with
    | Ok me =>
    match get_entity t with
    | None =>
    match get_dialogs t with
    | Ok dialogs =>
    match count (fun d => Ok (is_channel d)) dialogs with
    | Ok channels =>
    match count large_group dialogs with
    | Ok large_groups =>
    match count small_group dialogs with
    | Ok small_groups =>
    match count (fun d => Ok (is_user d)) dialogs with
    | Ok private_chats =>
        let limited_chats := channels + large_groups in
        let max_limited_chats := if premium me then 1000 else 500 in
        Some
          [ ("first_name", Str (or_default (first_name me) "Без имени"));
            ("username", Str (or_default (username me) "Без username"));
            ("phone", Str (Account.phone self));
            ("account_type", Str (if premium me then "Premium" else "Обычный"));
            ("channels", Int channels);
            ("large_groups", Int large_groups);
            ("small_groups", Int small_groups);
            ("private_chats", Int private_chats);
            ("total_chats", Int (Z.of_nat (length dialogs)));
            ("limited_chats", Int limited_chats);
            ("limits",
             Dict [ ("max_limited_chats", max_limited_chats);
                    ("joins_per_day", if premium me then 300 else 200) ]);
            ("available_joins", Int (max_limited_chats - limited_chats)) ]
    | Fails _ => None end
    | Fails _ => None end
    | Fails _ => None end
    | Fails _ => None end
    | Fails _ => None end
    | Some _ => None end
    | Fails _ => None end
    | _ => None end
    end.

(** *** Formatted messages *)

(** The pieces of an f-string over a dictionary: literal text,
    [{d['key']}] and [{d['key1']['key2']}]. *)
Inductive piece :=
| Text (s : string)
| Item (key : string)
| Item2 (key1 key2 : string).

(** [str(v)] *)
Definition str (v : value) : string :=
  match v with
  | Str s => s
  | Int n => pretty n
  | Dict d =>
      "{" +:+ join ", " ((fun kv => "'" +:+ kv.1 +:+ "': " +:+ pretty kv.2) <$> d)
          +:+ "}"
  end.

Definition piece_text (d : list (string * value)) (p : piece) : answer string :=
  match p with
  | Text s => Ok s
  | Item key =>
      match item key d with
      | Ok v => Ok (str v)
      | Fails e => Fails e
      end
  | Item2 key1 key2 =>
      match item key1 d with
      | Ok (Dict inner) =>
          match item key2 inner with
          | Ok n => Ok (pretty n)
          | Fails e => Fails e
          end
      | Ok _ => Fails "TypeError"
      | Fails e => Fails e
      end
  end.

(** The f-string is evaluated from left to right; the first piece that
    raises ends it. *)
Fixpoint format (pieces : list piece) (d : list (string * value)) : answer string :=
  match pieces with
  | [] => Ok ""
  | p :: rest =>
      match piece_text d p with
      | Fails e => Fails e
      | Ok s =>
          match format rest d with
          | Fails e => Fails e
          | Ok r => Ok (s +:+ r)
          end
      end
  end.

Definition nl : string := String newline "".


(** The message of [phone_handler] after a successful log-in. *)
Definition connected : list piece :=
  [ Text ("✅ Аккаунт успешно подключен!" +:+ nl +:+ nl);
    Text "👤 Пользователь: "; Item "first_name"; Text nl;
    Text "📱 Телефон: "; Item "phone"; Text nl;
    Text "💎 Тип аккаунта: "; Item "account_type"; Text nl;
    Text "📊 Каналов: "; Item "channels_and_large_groups"; Text "/";
    Item2 "limits" "channels_max" ].

(** The fixed messages of [phone_handler]. *)
Definition check_terminal : string :=
  "🔄 Проверьте терминал для ввода кода подтверждения...".
Definition authorization_failed : string :=
  "❌ Ошибка при авторизации." +:+ nl
  +:+ "Проверьте номер телефона и попробуйте снова.".
Definition try_later : string := "❌ Произошла ошибка. Попробуйте позже.".
Definition no_account_info : string :=
  "Не удалось получить информацию об аккаунте".

(** *** [phone_handler] *)

(** An entry of [user_states]: the keys [step] and [account]. *)
Record user_state := UserState {
  step : option string;
  account : option Account.account;
}.

(** A message that reached the user: [event.respond] or
    [status_msg.edit]. *)
Inductive message :=
| Respond (text : string)
| Edit (text : string).

(** The bot: its two dictionaries, the [SessionManager] shared by all
    accounts, the terminal, and the messages sent so far. *)
Record bot := Bot {
  user_states : gmap Z user_state;
  user_accounts : gmap Z Account.account;
  session_manager : Locks.manager;
  stdin : list string;
  sent : list message;
}.

Definition set_user_states (f : gmap Z user_state -> gmap Z user_state)
    (b : bot) : bot :=
  Bot (f (user_states b)) (user_accounts b) (session_manager b) (stdin b) (sent b).
Definition set_user_accounts
    (f : gmap Z Account.account -> gmap Z Account.account) (b : bot) : bot :=
  Bot (user_states b) (f (user_accounts b)) (session_manager b) (stdin b) (sent b).
Definition send (m : message) (b : bot) : bot :=
  Bot (user_states b) (user_accounts b) (session_manager b) (stdin b)
      (sent b ++ [m]).

(** The collaborators of the handler: Telegram as the user's account sees
    it, the operating system under the lock files, and whether sending a
    message with a given text raises. *)
Record env := Env {
  log_in : Account.telegram;
  look_up : telegram;
  o_acquire : Locks.os;
  o_release : Locks.os;
  respond : string -> option string;
  edit : string -> option string;
}.

Definition call_respond (e : env) (text : string) (b : bot)
  : completion () * bot :=
  match respond e text with
  | Some exn => (Raise exn, b)
  | None => (Normal, send (Respond text) b)
  end.

Definition call_edit (e : env) (text : string) (b : bot)
  : completion () * bot :=
  match edit e text with
  | Some exn => (Raise exn, b)
  | None => (Normal, send (Edit text) b)
  end.

(** [user_account.start_client()] on the bot's session manager and
    terminal.  The account is one object: the entry [account] of the
    user's state, when there is one, changes with it. *)
Definition run_start_client (e : env) (sender : Z) (user_account : Account.account)
    (b : bot) : outcome bool * Account.account * bot :=
  let '(started, w) :=
    Account.start_client (log_in e) (o_acquire e) (o_release e)
      (Account.World user_account (session_manager b) (stdin b)) in
  let user_account := Account.self w in
  (started, user_account,
   Bot (alter (fun st => UserState (step st) (Some user_account)) sender
              (user_states b))
       (user_accounts b) (Account.session_manager w) (Account.stdin w) (sent b)).

(** The [try] block. *)
Definition phone_handler_try (e : env) (sender : Z) (phone : string) (b : bot)
  : completion () * bot :=
  let user_account := Account.Account phone false None in
  let b :=
    set_user_states
      (alter (fun st => UserState (step st) (Some user_account)) sender) b in
  match call_respond e check_terminal b with
  | (Raise exn, b) => (Raise exn, b)
  | (_, b) =>
      match run_start_client e sender user_account b with
      | (Propagates exn, _, b) => (Raise exn, b)
      | (Value (Some true), user_account, b) =>
          let b := set_user_accounts <[sender := user_account]> b in
          let b := set_user_states (delete sender) b in
          match get_account_info (look_up e) user_account with
          | Some ((_ :: _) as account_info) =>
              match format connected account_info with
              | Fails exn => (Raise exn, b)
              | Ok text => call_edit e text b
              end
          | _ => (Raise no_account_info, b)
          end
      | (Value _, _, b) =>
          match call_edit e authorization_failed b with
          | (Raise exn, b) => (Raise exn, b)
          | (_, b) => (Normal, set_user_states (delete sender) b)
          end
      end
  end.

(** [phone_handler]: the guard, the [try] block, and the handler of
    [except Exception], whose own [event.respond] may raise. *)
Definition phone_handler (e : env) (sender : Z) (phone : string) (b : bot)
  : outcome () * bot :=
  match user_states b !! sender with
  | None => (Value None, b)
  | Some st =>
      if negb (bool_decide (step st = Some "waiting_phone"))
      then (Value None, b)
      else
        match phone_handler_try e sender phone b with
        | (Raise _, b) =>
            match call_respond e try_later b with
            | (Raise exn, b) => (Propagates exn, b)
            | (_, b) => (Value None, set_user_states (delete sender) b)
            end
        | (_, b) => (Value None, b)
        end
  end.

End Info.

(* ===================================================================== *)
(** ** The webhook entry points: [api/bot.py] and [api/index.py] *)
(* ===================================================================== *)

Module Json.

Import Text Py.
Local Open Scope string_scope.

#[local] Set Warnings "-register-all".

(** What [json.loads] returns.  Numbers are integers here: the handlers
    pass them on and never compute with them. *)
Inductive json :=
| JNull
| JBool (b : bool)
| JNumber (n : Z)
| JString (s : string)
| JList (l : list json)
| JDict (d : list (string * json)).

(** A dictionary is the list of its items; a key is looked up from the
    left. *)
Fixpoint lookup (key : string) (d : list (string * json)) : option json :=
  match d with
  | [] => None
  | (k, v) :: rest => if String.eqb k key then Some v else lookup key rest
  end.

(** [x == s] for a string [s] *)
Definition is_string (s : string) (x : json) : bool :=
  match x with
  | JString s' => String.eqb s' s
  | _ => false
  end.

(** [key in x] for a string [key]: a key of a dictionary, an element of a
    list, a substring of a string; anything else is not iterable. *)
Definition contains_key (key : string) (x : json) : answer bool :=
  match x with
  | JDict d => Ok (bool_decide (is_Some (lookup key d)))
  | JList l => Ok (existsb (is_string key) l)
  | JString s => Ok (contains key s)
  | _ => Fails "TypeError"
  end.

(** [x[key]] for a string [key]: only a dictionary can be indexed so. *)
Definition getitem (key : string) (x : json) : answer json :=
  match x with
  | JDict d =>
      match lookup key d with
      | Some v => Ok v
      | None => Fails "KeyError"
      end
  | _ => Fails "TypeError"
  end.

(** [x.get(key, default)]: only a dictionary has the method. *)
Definition get_or (key : string) (default : json) (x : json) : answer json :=
  match x with
  | JDict d => Ok (from_option id default (lookup key d))
  | _ => Fails "AttributeError"
  end.

End Json.

(** *** [api/bot.py] *)

Module Webhook.

Import Text Py Json.
Local Open Scope string_scope.

Definition greeting : string :=
  "👋 Привет! Я помогу вам управлять подписками на каналы Telegram.".

(** The collaborators: [json.loads], the constructor and the [start] of
    the Telegram client, and [client.send_message(chat_id, text)]; an
    [option string] is the exception raised, if any. *)
Record env := Env {
  loads : string -> answer json;
  new_client : option string;
  start : option string;
  send_message : json -> string -> option string;
}.

(** The global [client] (whether it is set) and the messages sent. *)
Record state := State {
  client : bool;
  sent : list (json * string);
}.

(** The dictionaries [{"status": "success"}] and
    [{"status": "error", "message": ...}]. *)
Inductive status :=
| Success
| Error (message : string).

Record response := Response { statusCode : Z; body : status }.

(** [get_client]: the global is assigned before [start] is awaited. *)
Definition get_client (e : env) (s : state) : completion () * state :=
  if client s then (Normal, s)
  else
    match new_client e with
    | Some exn => (Raise exn, s)
    | None =>
        let s := State true (sent s) in
        match start e with
        | Some exn => (Raise exn, s)
        | None => (Normal, s)
        end
    end.

(** The [try] block of [handle_webhook]. *)
Definition handle_webhook_try (e : env) (request_data : json) (s : state)
  : completion status * state :=
  match get_client e s with
  | (Raise exn, s) => (Raise exn, s)
  | (_, s) =>
      match contains_key "message" request_data with
      | Fails exn => (Raise exn, s)
      | Ok false => (Return Success, s)
      | Ok true =>
          match getitem "message" request_data with
          | Fails exn => (Raise exn, s)
          | Ok message =>
          match getitem "chat" message with
          | Fails exn => (Raise exn, s)
          | Ok chat =>
          match getitem "id" chat with
          | Fails exn => (Raise exn, s)
          | Ok chat_id =>
          match get_or "text" (JString "") message with
          | Fails exn => (Raise exn, s)
          | Ok text =>
              if is_string "/start" text then
                match send_message e chat_id greeting with
                | Some exn => (Raise exn, s)
                | None => (Return Success,
                           State (client s) (sent s ++ [(chat_id, greeting)]))
                end
              else (Return Success, s)
          end end end end
      end
  end.

(** [handle_webhook]: every exception becomes an error status. *)
Definition handle_webhook (e : env) (request_data : json) (s : state)
  : status * state :=
  match handle_webhook_try e request_data s with
  | (Raise exn, s) => (Error exn, s)
  | (Return r, s) => (r, s)
  | (Normal, s) => (Success, s)
  end.

(** The body of the request as the handler reads it:
    [request.get('body', '{}')], parsed when it is a string. *)
Definition request_data (e : env) (request : list (string * json)) : answer json :=
  match from_option id (JString "{}") (lookup "body" request) with
  | JString text => loads e text
  | body => Ok body
  end.

(** [handle_request]; [handler] runs it on the event loop and returns what
    it returns. *)
Definition handle_request (e : env) (request : list (string * json)) (s : state)
  : response * state :=
  if negb (is_string "POST" (from_option id (JString "") (lookup "method" request)))
  then (Response 405 (Error "Method not allowed"), s)
  else
    match request_data e request with
    | Fails exn => (Response 500 (Error exn), s)
    | Ok data =>
        let '(r, s) := handle_webhook e data s in
        (Response 200 r, s)
    end.

End Webhook.

(** *** [api/index.py] *)

Module Index.

Import Text Py Json.
Local Open Scope string_scope.

(** The attributes of a [TelegramBot], besides those of every object:
    what [__init__] assigns and the methods of the class, which defines no
    [__getattr__]. *)
Definition TelegramBot_attributes : list string :=
  [ "client"; "api_id"; "api_hash"; "bot_token"; "session_manager";
    "resource_manager"; "user_states"; "user_accounts"; "session_name";
    "cleanup_task";
    "start_client"; "get_or_create_user_account"; "setup_handlers";
    "process_file"; "periodic_cleanup"; "cleanup"; "run"; "test_links" ].

(** The environment variables as [__init__] reads them:
    [int(os.getenv('API_ID', 0))], which may raise, and the two strings. *)
Record environ := Environ {
  api_id : answer Z;
  api_hash : string;
  bot_token : string;
}.

(** [TelegramBot.__init__]: the exception it raises, if any. *)
Definition TelegramBot_init (v : environ) : option string :=
  match api_id v with
  | Fails exn => Some exn
  | Ok n =>
      if negb (Z.eqb n 0) && truthy (api_hash v) && truthy (bot_token v)
      then None
      else Some "Отсутствуют необходимые переменные окружения (API_ID, API_HASH, BOT_TOKEN)"
  end.

Record env := Env {
  getenv : environ;
  loads : json -> answer json;          (* [json.loads] of any value *)
  handle_update : option string;        (* were the method to exist *)
}.

Record response := Response { statusCode : Z; body : string }.

(** [init_bot]: the global [bot] (whether it is set). *)
Definition init_bot (e : env) (bot : bool) : completion () * bool :=
  if bot then (Normal, bot)
  else
    match TelegramBot_init (getenv e) with
    | Some exn => (Raise exn, bot)
    | None => (Normal, true)
    end.

(** The [try] block of [handler]. *)
Definition handler_try (e : env) (event : list (string * json)) (bot : bool)
  : completion response * bool :=
  match lookup "body" event with
  | None => (Raise "KeyError", bot)
  | Some text =>
      match loads e text with
      | Fails exn => (Raise exn, bot)
      | Ok body =>
          match init_bot e bot with
          | (Raise exn, bot) => (Raise exn, bot)
          | (_, bot) =>
              if bool_decide ("handle_update" ∈ TelegramBot_attributes) then
                match handle_update e with
                | Some exn => (Raise exn, bot)
                | None => (Return (Response 200 "OK"), bot)
                end
              else (Raise "AttributeError", bot)
          end
      end
  end.

(** [handler(event, context)]: [event['httpMethod']] is read outside the
    [try]. *)
Definition handler (e : env) (event : list (string * json)) (bot : bool)
  : outcome response * bool :=
  match lookup "httpMethod" event with
  | None => (Propagates "KeyError", bot)
  | Some method =>
      if is_string "POST" method then
        match handler_try e event bot with
        | (Raise exn, bot) => (Value (Some (Response 500 exn)), bot)
        | (c, bot) => (call c, bot)
        end
      else (Value (Some (Response 405 "Method not allowed")), bot)
  end.

End Index.

(* ===================================================================== *)
(** ** [UserAccount.send_code] and [UserAccount.sign_in] *)
(* ===================================================================== *)

Module Login.

Import Text Py.
Local Open Scope string_scope.

(** How [client.send_code_request(phone=...)] ends: with a result that
    carries a [phone_code_hash] (and a [type] or not), with a result that
    is empty or has no hash, or with an exception. *)
Inductive code_answer :=
| CodeSent (phone_code_hash : string) (has_type : bool)
| NoHash
| PhoneNumberInvalidError
| FloodWaitError (seconds : Z)
| CodeFails (e : string).

(** How [client.sign_in(phone=..., code=..., phone_code_hash=...)] ends. *)
Inductive sign_in_answer :=
| SignedIn
| SessionPasswordNeededError
| SignInFails (e : string).

Record telegram := Telegram {
  new_client : option string;                 (* [TelegramClient(...)] raises *)
  is_connected : bool;
  connect : option string;
  is_user_authorized : answer bool;
  send_code_request : code_answer;
  sign_in : string -> string -> sign_in_answer;   (* by code and hash *)
  client_disconnect : option string;
}.

(** The calls that reach Telegram. *)
Inductive call :=
| Connect
| IsUserAuthorized
| SendCodeRequest
| SignIn (code phone_code_hash : string)
| Disconnect.

(** The account and the calls made so far. *)
Record state := State {
  self : Account.account;
  calls : list call;
}.

Definition did (c : call) (s : state) : state := State (self s) (calls s ++ [c]).
Definition set_client (b : bool) (s : state) : state :=
  State (Account.Account (Account.phone (self s)) b
                         (Account.phone_code_hash (self s))) (calls s).
Definition set_phone_code_hash (h : option string) (s : state) : state :=
  State (Account.Account (Account.phone (self s)) (Account.client (self s)) h)
        (calls s).

(** [if not self.client.is_connected(): await self.client.connect()] *)
Definition ensure_connected (t : telegram) (s : state) : completion bool * state :=
  if is_connected t then (Normal, s)
  else
    let s := did Connect s in
    match connect t with
    | Some exn => (Raise exn, s)
    | None => (Normal, s)
    end.

(** The inner [try] of [send_code], with its two handlers; any other
    exception goes on to the outer handler. *)
Definition request_code (t : telegram) (s : state) : completion bool * state :=
  let s := did SendCodeRequest s in
  match send_code_request t with
  | NoHash => (Return false, s)
  | CodeSent hash has_type =>
      let s := set_phone_code_hash (Some hash) s in
      if has_type then (Return true, s) else (Raise "AttributeError", s)
  | PhoneNumberInvalidError => (Return false, s)
  | FloodWaitError _ => (Return false, s)
  | CodeFails exn => (Raise exn, s)
  end.

(** The outer [try] block of [send_code]. *)
Definition send_code_try (t : telegram) (s : state) : completion bool * state :=
  let created :=
    if Account.client (self s) then (@Normal bool, s)
    else
      match new_client t with
      | Some exn => (Raise exn, s)
      | None => (Normal, set_client true s)
      end in
  match created with
  | (Raise exn, s) => (Raise exn, s)
  | (_, s) =>
      match ensure_connected t s with
      | (Raise exn, s) => (Raise exn, s)
      | (_, s) =>
          let s := did IsUserAuthorized s in
          match is_user_authorized t with
          | Fails exn => (Raise exn, s)
          | Ok true => (Return true, s)
          | Ok false => request_code t s
          end
      end
  end.

(** [send_code]: the outer handler disconnects the client, when there is
    one, and returns [False]; an exception of that [disconnect] leaves the
    method. *)
Definition send_code (t : telegram) (s : state) : outcome bool * state :=
  match send_code_try t s with
  | (Raise _, s) =>
      if Account.client (self s) then
        let s := did Disconnect s in
        match client_disconnect t with
        | Some exn => (Propagates exn, s)
        | None => (Value (Some false), s)
        end
      else (Value (Some false), s)
  | (c, s) => (Py.call c, s)
  end.

(** [bool(self.phone_code_hash)] *)
Definition has_hash (a : Account.account) : bool :=
  match Account.phone_code_hash a with
  | Some h => truthy h
  | None => false
  end.

(** How the [try] block of [sign_in] ends: it returns, or raises
    [SessionPasswordNeededError], or raises something else. *)
Inductive attempt :=
| Returns (v : bool)
| PasswordNeeded
| Other (e : string).

Definition sign_in_try (t : telegram) (code : string) (s : state)
  : attempt * state :=
  if negb (Account.client (self s)) then (Returns false, s)
  else
    match ensure_connected t s with
    | (Raise exn, s) => (Other exn, s)
    | (_, s) =>
        match Account.phone_code_hash (self s) with
        | Some hash =>
            if truthy hash then
              let s := did (SignIn code hash) s in
              match sign_in t code hash with
              | SignedIn => (Returns true, s)
              | SessionPasswordNeededError => (PasswordNeeded, s)
              | SignInFails exn => (Other exn, s)
              end
            else (Returns false, s)
        | None => (Returns false, s)
        end
    end.

(** [sign_in]: an exception whose text holds [phone code expired], in any
    case of letters, makes the method return what [send_code] returns. *)
Definition sign_in_code (t : telegram) (code : string) (s : state)
  : outcome bool * state :=
  match sign_in_try t code s with
  | (Returns v, s) => (Value (Some v), s)
  | (PasswordNeeded, s) => (Value (Some false), s)
  | (Other exn, s) =>
      if contains "phone code expired" (lower exn) then send_code t s
      else (Value (Some false), s)
  end.

End Login.

(* ===================================================================== *)
(** ** [TelegramBot.get_or_create_user_account] *)
(* ===================================================================== *)

Module Accounts.

Import Text Py.
Local Open Scope string_scope.

(** The collaborators: the listing of the sessions directory, Telegram as
    the account of each phone number sees it, and the operating system
    under the lock files. *)
Record env := Env {
  listdir : answer (list string);
  telegram_of : string -> Account.telegram;
  o_acquire : Locks.os;
  o_release : Locks.os;
}.

(** What the method touches of the bot: [user_accounts], the shared
    [SessionManager] and the terminal. *)
Record bot := Bot {
  user_accounts : gmap Z Account.account;
  session_manager : Locks.manager;
  stdin : list string;
}.

Definition world_of (a : Account.account) (b : bot) : Account.world :=
  Account.World a (session_manager b) (stdin b).

Definition bot_of (w : Account.world) (b : bot) : bot :=
  Bot (user_accounts b) (Account.session_manager w) (Account.stdin w).

Definition remember (user_id : Z) (a : Account.account) (b : bot) : bot :=
  Bot (<[user_id := a]> (user_accounts b)) (session_manager b) (stdin b).

(** [account.start_client()] and [account.disconnect()] on the bot's
    session manager and terminal. *)
Definition start_client (e : env) (a : Account.account) (b : bot)
  : outcome bool * Account.account * bot :=
  let '(started, w) :=
    Account.start_client (telegram_of e (Account.phone a))
                         (o_acquire e) (o_release e) (world_of a b) in
  (started, Account.self w, bot_of w b).

Definition disconnect (e : env) (a : Account.account) (b : bot) : bot :=
  bot_of (Account.disconnect (telegram_of e (Account.phone a)) (o_release e)
                             (world_of a b)) b.



End Accounts.

(* ===================================================================== *)
(** ** [process_file_handler] *)
(* ===================================================================== *)

Module Upload.

Import Text Py.
Local Open Scope string_scope.

(** *** The texts *)

Definition press_button_first : string :=
  "❌ Сначала нажмите кнопку 'Загрузить список каналов'".
Definition wait_for_previous : string :=
  "⚠️ Дождитесь окончания обработки предыдущего файла".
Definition processing_file : string := "🔄 Обрабатываю файл...".
Definition no_links : string := "❌ В файле не найдено ссылок на каналы".
Definition log_in_first : string := "❌ Сначала необходимо войти в аккаунт".
Definition no_valid_links : string :=
  "❌ Не найдено корректных ссылок на каналы".
Definition captcha_header : string := "📸 Скриншоты сообщений с капчей:".
Definition choose_action : string := "Выберите действие:".
Definition error_text (error : string) : string := "❌ Ошибка: " +:+ error.
Definition failure_text (exn : string) : string :=
  "❌ Произошла ошибка при обработке файла: " +:+ exn.

(** The analysis shown before the joins start: [estimated_time] is one
    minute per link, split by [// 3600] and [% 3600 // 60]. *)
Definition analysis (links chat_links current_chats : nat) (premium : bool)
  : string :=
  let max_chats := if premium then 1000%Z else 500%Z in
  let available_joins := (max_chats - Z.of_nat current_chats)%Z in
  let estimated_time := (chat_links * 60)%nat in
  let hours := (estimated_time / 3600)%nat in
  let minutes := ((estimated_time mod 3600) / 60)%nat in
  "📊 Детальный анализ списка:" +:+ Info.nl +:+ Info.nl
  +:+ "📋 Распознано ссылок в файле: " +:+ pretty links +:+ Info.nl
  +:+ "✅ Валидных ссылок на каналы: " +:+ pretty chat_links +:+ Info.nl
  +:+ "📱 Текущие подписки: " +:+ pretty current_chats +:+ "/"
  +:+ pretty max_chats +:+ Info.nl
  +:+ "➕ Доступно для вступления: " +:+ pretty available_joins +:+ Info.nl
  +:+ "⌛️ Примерное время выполнения: " +:+ pretty hours +:+ "ч "
  +:+ pretty minutes +:+ "мин" +:+ Info.nl +:+ Info.nl
  +:+ "🔄 Начинаю вступление в каналы...".

(** *** The bot and its collaborators *)

(** A [UserAccount] in [user_accounts]: what [start_client] made of it and
    the two pacing attributes that [join_chats] reads and writes. *)
Record member := Member {
  account : Account.account;
  join_count : nat;
  current_delay : Q;
}.

(** The bot: the two dictionaries, the messages that reached the user, and
    the runs of [join_chats], each with the links it was given and the
    state it ended in. *)
Record bot := Bot {
  user_states : gmap Z Info.user_state;
  user_accounts : gmap Z member;
  sent : list Info.message;
  runs : list (list string * Join.state);
}.

(** How the calls of one invocation end; an [option string] is the
    exception raised, if any.  [get_me] gives [me.premium], [get_dialogs]
    gives [len(dialogs)]; [joining] is the account's client as
    [join_chats] sees it, [status_msg] the message [event.respond]
    returned. *)
Record env := Env {
  respond : string -> option string;
  edit : string -> option string;
  download_media : answer Files.bytes_io;
  readers : Files.readers;
  get_me : answer bool;
  get_dialogs : answer nat;
  joining : Join.env;
  status_msg : Join.message;
}.

Definition send (m : Info.message) (b : bot) : bot :=
  Bot (user_states b) (user_accounts b) (sent b ++ [m]) (runs b).

Definition set_user_states (f : gmap Z Info.user_state -> gmap Z Info.user_state)
    (b : bot) : bot :=
  Bot (f (user_states b)) (user_accounts b) (sent b) (runs b).

(** [await event.respond(text)] and [await status_msg.edit(text)]; [after]
    is how the block goes on when the call does not raise. *)
Definition call_respond (e : env) (text : string) (after : completion ())
    (b : bot) : completion () * bot :=
  match respond e text with
  | Some exn => (Raise exn, b)
  | None => (after, send (Info.Respond text) b)
  end.

Definition call_edit (e : env) (text : string) (after : completion ())
    (b : bot) : completion () * bot :=
  match edit e text with
  | Some exn => (Raise exn, b)
  | None => (after, send (Info.Edit text) b)
  end.

(** [results = await user_account.join_chats(chat_links, status_msg)]:
    the account keeps the pacing attributes of the run. *)
Definition run_join_chats (e : env) (sender : Z) (user_account : member)
    (chat_links : list string) (b : bot) : outcome Join.dict * bot :=
  let '(results, s) :=
    Join.join_chats (joining e) chat_links (Some (status_msg e))
                    (join_count user_account) (current_delay user_account) in
  (results,
   Bot (user_states b)
       (<[sender := Member (account user_account) (Join.join_count s)
                           (Join.current_delay s)]> (user_accounts b))
       (sent b) (runs b ++ [(chat_links, s)])).

(** What follows the call of [join_chats].  The screenshots, were there
    any, are strings here, and [screenshot_info['link']] on a string
    raises [TypeError]. *)
Definition report (e : env) (results : outcome Join.dict) (b : bot)
  : completion () * bot :=
  match results with
  | Propagates exn => (Raise exn, b)
  | Value None => (Raise "TypeError", b)
  | Value (Some (Join.ErrorDict error)) =>
      call_edit e (error_text error) (Return ()) b
  | Value (Some (Join.ResultsDict r)) =>
      match Join.captcha_screenshots r with
      | [] => call_respond e choose_action Normal b
      | _ :: _ =>
          match call_respond e captcha_header Normal b with
          | (Raise exn, b) => (Raise exn, b)
          | (_, b) => (Raise "TypeError", b)
          end
      end
  end.

(** The [try] block. *)
Definition process_file_handler_try (e : env) (sender : Z) (b : bot)
  : completion () * bot :=
  let b :=
    set_user_states
      (alter (fun st => Info.UserState (Some "processing_file") (Info.account st))
             sender) b in
  match call_respond e processing_file Normal b with
  | (Raise exn, b) => (Raise exn, b)
  | (_, b) =>
      match download_media e with
      | Fails exn => (Raise exn, b)
      | Ok file =>
          let links := Files.process_file (readers e) file in
          match links with
          | [] => call_edit e no_links (Return ()) b
          | _ :: _ =>
              match user_accounts b !! sender with
              | None => call_edit e log_in_first (Return ()) b
              | Some user_account =>
                  let chat_links :=
                    Links.extract_chat_links (join (String newline "") links) in
                  match chat_links with
                  | [] => call_edit e no_valid_links (Return ()) b
                  | _ :: _ =>
                      if negb (Account.client (account user_account))
                      then (Raise "AttributeError", b)
                      else
                        match get_me e with
                        | Fails exn => (Raise exn, b)
                        | Ok premium =>
                        match get_dialogs e with
                        | Fails exn => (Raise exn, b)
                        | Ok current_chats =>
                        match call_edit e
                                (analysis (length links) (length chat_links)
                                          current_chats premium) Normal b with
                        | (Raise exn, b) => (Raise exn, b)
                        | (_, b) =>
                            let '(results, b) :=
                              run_join_chats e sender user_account chat_links b in
                            report e results b
                        end end end
                  end
              end
          end
      end
  end.

(** [process_file_handler]: the two guards, then the [try] with its
    [except Exception] and its [finally], which drops the state of the
    user whatever happened. *)
Definition process_file_handler (e : env) (sender : Z) (b : bot)
  : outcome () * bot :=
  match user_states b !! sender with
  | None =>
      let '(c, b) := call_respond e press_button_first (Return ()) b in
      (call c, b)
  | Some st =>
      if negb (bool_decide (Info.step st = Some "waiting_file")) then
        let '(c, b) := call_respond e wait_for_previous (Return ()) b in
        (call c, b)
      else
        let '(c, b) := process_file_handler_try e sender b in
        let '(c, b) :=
          match c with
          | Raise exn => call_respond e (failure_text exn) Normal b
          | _ => (c, b)
          end in
        (call c, set_user_states (delete sender) b)
  end.

End Upload.

(* ===================================================================== *)
(** ** [SessionManager.__del__] *)
(* ===================================================================== *)

Module Teardown.

Import Locks.

(** [for session_name in list(self.locks.keys()): self.release_lock(...)];
    [session_names] is the list of the keys, in the order of the
    dictionary, and [o] says what the operating system does to the release
    of each session. *)
Definition del (o : string -> os) (session_names : list string) (m : manager)
  : manager :=
  foldl (fun m session_name =>
           (release_lock (o session_name) session_name m).2)
        m session_names.

End Teardown.

(* ===================================================================== *)
(** * Properties of [extract_chat_links] *)
(* ===================================================================== *)

Module LinksFacts.

Import Text Links.
Local Open Scope string_scope.
Local Open Scope list_scope.

(** *** Definitions used in the statements *)

(** Keeping the first occurrence of every element. *)
Fixpoint first_occurrences (l : list string) : list string :=
  match l with
  | [] => []
  | x :: l' => x :: filter (fun y => y ≠ x) (first_occurrences l')
  end.

(** A non-empty string over [[a-zA-Z0-9_-]]. *)
Definition is_hash (h : string) : Prop :=
  truthy h = true ∧ take_while is_hash_char h = h.

(** Raw lines joined into one text, as the caller does with
    ["\n".join(links)]. *)
Definition lines (l : list string) : string := join (String newline "") l.

Lemma first_occurrences_subset l x : x ∈ first_occurrences l → x ∈ l.
Proof.
  revert x. induction l as [|y l IH]; intros x; simpl; [done|].
  rewrite !elem_of_cons, list_elem_of_filter. naive_solver.
Qed.

Lemma first_occurrences_NoDup l : NoDup (first_occurrences l).
Proof.
  induction l as [|y l IH]; simpl; constructor.
  - rewrite list_elem_of_filter. naive_solver.
  - by apply NoDup_filter.
Qed.

Lemma first_occurrences_complete l x : x ∈ l → x ∈ first_occurrences l.
Proof.
  induction l as [|y l IH]; simpl; [done|].
  rewrite !elem_of_cons, list_elem_of_filter.
  destruct (decide (x = y)); naive_solver.
Qed.

Lemma filter_all (P : string → Prop) `{!∀ x, Decision (P x)} (l : list string) :
  (∀ x, x ∈ l → P x) → filter P l = l.
Proof.
  induction l as [|y l IH]; intros HP; [done|].
  rewrite filter_cons_True by (apply HP; left).
  f_equal. apply IH. intros x Hx. apply HP. by right.
Qed.

(** The loop over raw lines is the loop over the links they stand for. *)
Lemma foldl_extract_line raws a :
  foldl extract_line a raws = foldl (fun a l => remember l a) a (omap line_link raws).
Proof.
  revert a. induction raws as [|r raws IH]; intros a; simpl; [done|].
  unfold extract_line at 2. destruct (line_link r); simpl; by rewrite IH.
Qed.

(** [seen_links] always holds exactly the elements of [links]; what the
    loop appends are the first occurrences not seen before. *)
Lemma foldl_remember cands ls (seen : gset string) :
  (∀ x, x ∈ seen ↔ x ∈ ls) →
  links (foldl (fun a l => remember l a) (Acc ls seen) cands)
  = (ls ++ filter (fun y => y ∉ ls) (first_occurrences cands))%list.
Proof.
  revert ls seen. induction cands as [|x cands IH]; intros ls seen Hseen; simpl.
  - by rewrite app_nil_r.
  - unfold remember at 2; simpl. destruct (decide (x ∈ seen)) as [Hin|Hout].
    + rewrite (IH _ _ Hseen). f_equal.
      rewrite filter_cons_False by (rewrite <- Hseen; naive_solver).
      rewrite list_filter_filter. apply list_filter_iff.
      intros y. split; [|naive_solver]. intros Hy. split; [done|].
      intros ->. apply Hy. by apply Hseen.
    + rewrite (IH (ls ++ [x]) ({[x]} ∪ seen)).
      2:{ intros y. rewrite elem_of_union, elem_of_singleton, elem_of_app,
            list_elem_of_singleton, Hseen. naive_solver. }
      rewrite <- app_assoc. f_equal. simpl.
      rewrite filter_cons_True by (by rewrite <- Hseen).
      f_equal. rewrite list_filter_filter. apply list_filter_iff.
      intros y. rewrite elem_of_app, list_elem_of_singleton. naive_solver.
  Qed.

Lemma extract_chat_links_first_occurrences text :
  extract_chat_links text
  = first_occurrences (omap line_link (split newline text)).
Proof.
  unfold extract_chat_links. rewrite foldl_extract_line.
  rewrite (foldl_remember _ [] ∅) by set_solver. simpl.
  apply filter_all. intros y _. set_solver.
Qed.

(** C4, as the code has it: the returned list never holds the same link
    string twice, it lists exactly the links of the input lines, each at
    the place of its first occurrence; the comparison is on the whole
    link, case included, so the lines @Foo, foo and https://t.me/FOO give
    three links. *)
Theorem extract_chat_links_dedup text :
  NoDup (extract_chat_links text)
  ∧ extract_chat_links text
    = first_occurrences (omap line_link (split newline text))
  ∧ (∀ link, link ∈ extract_chat_links text
             ↔ ∃ raw, raw ∈ split newline text ∧ line_link raw = Some link)
  ∧ extract_chat_links (lines ["@Foo"; "foo"; "https://t.me/FOO"])
    = ["https://t.me/Foo"; "https://t.me/foo"; "https://t.me/FOO"].
Proof.
  rewrite extract_chat_links_first_occurrences. split_and!.
  - apply first_occurrences_NoDup.
  - done.
  - intros link. rewrite <- list_elem_of_omap. split.
    + apply first_occurrences_subset.
    + apply first_occurrences_complete.
  - by vm_compute.
Qed.

(** C4, as stated, fails: the three spellings of one username are all
    kept, and their keys [(canonical_form, identifier.lower())] coincide. *)
Lemma dedup_is_case_sensitive :
  let out := extract_chat_links (lines ["@Foo"; "foo"; "https://t.me/FOO"]) in
  length out = 3
  ∧ dedup_key <$> out
    = [(PUBLIC_USERNAME, "foo"); (PUBLIC_USERNAME, "foo"); (PUBLIC_USERNAME, "foo")]
  ∧ ¬ NoDup (dedup_key <$> out).
Proof.
  assert (extract_chat_links (lines ["@Foo"; "foo"; "https://t.me/FOO"])
          = ["https://t.me/Foo"; "https://t.me/foo"; "https://t.me/FOO"]) as ->
    by (by vm_compute).
  cbn zeta. split_and!; [done| by vm_compute |].
  assert (dedup_key <$> ["https://t.me/Foo"; "https://t.me/foo"; "https://t.me/FOO"]
          = [(PUBLIC_USERNAME, "foo"); (PUBLIC_USERNAME, "foo"); (PUBLIC_USERNAME, "foo")])
    as -> by (by vm_compute).
  intros Hnd. apply NoDup_cons in Hnd as [Hnotin _]. apply Hnotin. left.
Qed.

(** *** Canonical invite links are fixed points *)

Lemma hash_char_plain c :
  is_hash_char c = true → isspace c = false ∧ Ascii.eqb c newline = false.
Proof. destruct c as [[] [] [] [] [] [] [] []]; by vm_compute. Qed.

Lemma is_hash_cons c h :
  take_while is_hash_char (String c h) = String c h →
  is_hash_char c = true ∧ take_while is_hash_char h = h.
Proof. simpl. destruct (is_hash_char c); [|done]. by intros [= ->]. Qed.

Lemma rstrip_hash h : is_hash h → rstrip h = h.
Proof.
  intros [Hne Hh]. induction h as [|c h IH]; [done|].
  apply is_hash_cons in Hh as [Hc Hh]. simpl.
  destruct h as [|c' h'].
  - simpl. by destruct (hash_char_plain c Hc) as [-> _].
  - by rewrite (IH eq_refl Hh).
Qed.

Lemma rstrip_cons a s : truthy s = true → rstrip s = s → rstrip (String a s) = String a s.
Proof. intros Hne Hs. simpl. rewrite Hs. by destruct s. Qed.

Lemma split_hash h : take_while is_hash_char h = h → split newline h = [h].
Proof.
  induction h as [|c h IH]; [done|]. intros Hh.
  apply is_hash_cons in Hh as [Hc Hh]. simpl.
  destruct (hash_char_plain c Hc) as [_ ->]. by rewrite (IH Hh).
Qed.

Lemma split_cons_single c s :
  Ascii.eqb c newline = false →
  split newline s = [s] → split newline (String c s) = [String c s].
Proof. intros Hc Hs. simpl. by rewrite Hc, Hs. Qed.

Lemma search_invite_head s g : match_invite_at s = Some g → search_invite s = Some g.
Proof. intros Hg. destruct s; cbn [search_invite]; by rewrite Hg. Qed.

(** Every link [https://t.me/joinchat/<hash>] normalises to itself. *)
Lemma canonical_invite_link_is_fixed h :
  is_hash h →
  extract_chat_links ("https://t.me/joinchat/" +:+ h) = ["https://t.me/joinchat/" +:+ h].
Proof.
  intros Hhash. pose proof Hhash as [Hne Hh].
  assert (split newline ("https://t.me/joinchat/" +:+ h)
          = ["https://t.me/joinchat/" +:+ h]) as Hsplit.
  { cbn [String.append]. repeat (apply split_cons_single; [done|]).
    by apply split_hash. }
  assert (strip ("https://t.me/joinchat/" +:+ h) = "https://t.me/joinchat/" +:+ h)
    as Hstrip.
  { unfold strip. cbn [String.append lstrip]. cbn.
    repeat (apply rstrip_cons; [done|]). by apply rstrip_hash. }
  assert (invite_hash_of ("https://t.me/joinchat/" +:+ h) = Some h) as Hinvite.
  { unfold invite_hash_of.
    replace (contains "joinchat" _) with true by reflexivity.
    cbn [orb]. apply search_invite_head. unfold match_invite_at.
    replace (scheme _) with (Some ("t.me/joinchat/" +:+ h)) by reflexivity.
    unfold match_host_marker at 1.
    replace (strip_prefix "t.me/" _) with (Some ("joinchat/" +:+ h)) by reflexivity.
    cbn [or_else].
    replace (strip_prefix "joinchat/" _) with (Some h) by reflexivity.
    cbn [or_else]. by rewrite Hh, Hne. }
  unfold extract_chat_links. rewrite Hsplit. cbn [foldl].
  unfold extract_line, line_link. rewrite Hstrip, Hinvite.
  replace (truthy _) with true by reflexivity. cbn [negb].
  unfold remember. cbn [seen_links links].
  by rewrite decide_False by set_solver.
Qed.

Lemma canonical_invite_link_is_fixed_witness :
  is_hash "AbC123"
  ∧ extract_chat_links "https://t.me/joinchat/AbC123" = ["https://t.me/joinchat/AbC123"].
Proof.
  assert (is_hash "AbC123") as Hhash by (split; reflexivity).
  split; [exact Hhash|].
  exact (canonical_invite_link_is_fixed "AbC123" Hhash).
Defined.

(** C6: both spellings of the invite AbC123 give the one link
    https://t.me/joinchat/AbC123, which the join loop reads back as an
    invite with hash AbC123, and which normalises to itself. *)
Theorem invite_links_normalize :
  extract_chat_links "https://t.me/joinchat/AbC123" = ["https://t.me/joinchat/AbC123"]
  ∧ extract_chat_links "t.me/+AbC123" = ["https://t.me/joinchat/AbC123"]
  ∧ form_of "https://t.me/joinchat/AbC123" = PRIVATE_INVITE
  ∧ last_segment "https://t.me/joinchat/AbC123" = "AbC123"
  ∧ extract_chat_links (lines (extract_chat_links "t.me/+AbC123"))
    = extract_chat_links "t.me/+AbC123"
  ∧ extract_chat_links (lines (extract_chat_links "https://t.me/joinchat/AbC123"))
    = extract_chat_links "https://t.me/joinchat/AbC123".
Proof. split_and!; by vm_compute. Qed.

End LinksFacts.

(* ===================================================================== *)
(** * Properties of [SessionManager.release_lock] *)
(* ===================================================================== *)

Module LocksFacts.

Import Text Py Locks.
Local Open Scope string_scope.

(** *** Definitions used in the statements *)

(** A manager that has taken the lock of one session. *)
Definition calm : os := OS false 3 false false false.
Definition idle : manager := Manager "sessions" ∅ ∅ ∅ ∅ ∅.
Definition holding : manager := (acquire_lock calm "user_1" idle).2.

Lemma release_lock_try_drops o session_name m :
  locks (release_lock_try o session_name m).2 !! session_name = None.
Proof.
  unfold release_lock_try, remove_quietly.
  destruct (locks m !! session_name) eqn:Hheld; simpl; [|done].
  repeat case_match; simpl; apply lookup_delete_eq.
Qed.

Lemma release_lock_try_unheld o session_name m :
  locks m !! session_name = None →
  release_lock_try o session_name m = (Normal, m).
Proof. intros Hfree. unfold release_lock_try. by rewrite Hfree. Qed.

Lemma release_lock_state o session_name m :
  (release_lock o session_name m).2 = (release_lock_try o session_name m).2.
Proof. unfold release_lock. by destruct (release_lock_try o session_name m). Qed.

Lemma release_lock_returns o session_name m :
  (release_lock o session_name m).1 = Value None.
Proof.
  unfold release_lock.
  destruct (release_lock_try o session_name m) as [c m'] eqn:Htry. simpl.
  unfold release_lock_try, remove_quietly in Htry.
  repeat case_match; by simplify_eq.
Qed.

(** C10: [release_lock] never lets an exception out; on a session that is
    not held it changes nothing (neither dictionary, nor the lock files);
    and a second release right after a first one, whatever the operating
    system did to either, leaves the state the first one produced. *)
Theorem release_lock_idempotent o1 o2 session_name m :
  (release_lock o1 session_name m).1 = Value None
  ∧ release_lock o2 session_name (release_lock o1 session_name m).2
    = (Value None, (release_lock o1 session_name m).2)
  ∧ (locks m !! session_name = None →
     release_lock o1 session_name m = (Value None, m)).
Proof.
  assert (∀ o m', locks m' !! session_name = None →
                  release_lock o session_name m' = (Value None, m')) as Hnoop.
  { intros o m' Hfree. unfold release_lock.
    by rewrite (release_lock_try_unheld _ _ _ Hfree). }
  split_and!.
  - apply release_lock_returns.
  - apply Hnoop. rewrite release_lock_state. apply release_lock_try_drops.
  - apply Hnoop.
Qed.

Lemma release_lock_idempotent_witness :
  locks idle !! "user_2" = None
  ∧ release_lock calm "user_2" idle = (Value None, idle).
Proof.
  split; [reflexivity|].
  apply (release_lock_idempotent calm calm "user_2" idle). reflexivity.
Defined.

(** What a successful [acquire_lock] leaves behind. *)
Lemma acquire_lock_success o session_name m :
  (acquire_lock o session_name m).1 = Value (Some true) →
  let m' := (acquire_lock o session_name m).2 in
  session_dir m' = session_dir m
  ∧ locks m' !! session_name = Some (File (lock_path m session_name) (fresh_fd o))
  ∧ lock_path m session_name ∈ flocked m'
  ∧ flocked m' = {[ lock_path m session_name ]} ∪ flocked m
  ∧ lock_path m session_name ∉ flocked m.
Proof.
  unfold acquire_lock, acquire_lock_try.
  destruct (open_fails o); [done|]. simpl.
  destruct (flock_fails o); [done|]. simpl.
  case_bool_decide as Hlocked; [done|]. simpl. intros _.
  split_and!; try done.
  - apply lookup_insert_eq.
  - set_solver.
Qed.



(** Once released without a fault of the operating system, the session can
    be acquired again. *)
Theorem released_lock_can_be_acquired o1 o2 o3 session_name m :
  (acquire_lock o1 session_name m).1 = Value (Some true) →
  flock_fails o2 = false → close_fails o2 = false →
  open_fails o3 = false → flock_fails o3 = false →
  let held := (acquire_lock o1 session_name m).2 in
  (acquire_lock o3 session_name (release_lock o2 session_name held).2).1
  = Value (Some true).
Proof.
  intros Hheld Hflock Hclose Hopen Hflock3.
  destruct (acquire_lock_success o1 session_name m Hheld)
    as (Hdir & Hlock & _ & Hfl & Hfree).
  cbv zeta. set (held := (acquire_lock o1 session_name m).2) in *.
  assert (session_dir (release_lock o2 session_name held).2 = session_dir m
          ∧ flocked (release_lock o2 session_name held).2 = flocked m) as [Hdir' Hfl'].
  { rewrite release_lock_state. unfold release_lock_try, remove_quietly.
    rewrite Hlock, Hflock, Hclose. simpl.
    repeat case_match; simpl; (split; [done|]); rewrite Hfl; set_solver. }
  unfold acquire_lock, acquire_lock_try. rewrite Hopen, Hflock3. simpl.
  assert (lock_path (release_lock o2 session_name held).2 session_name
          = lock_path m session_name) as ->
    by (unfold lock_path; by rewrite Hdir').
  rewrite Hfl'. by rewrite bool_decide_eq_false_2.
Qed.

Lemma released_lock_can_be_acquired_witness :
  (acquire_lock calm "user_1" idle).1 = Value (Some true)
  ∧ (acquire_lock calm "user_1" (release_lock calm "user_1" holding).2).1
    = Value (Some true).
Proof.
  assert ((acquire_lock calm "user_1" idle).1 = Value (Some true)) as Hheld
    by reflexivity.
  split; [exact Hheld|].
  exact (released_lock_can_be_acquired calm calm calm "user_1" idle
           Hheld eq_refl eq_refl eq_refl eq_refl).
Defined.

Example release_held_twice :
  locks holding !! "user_1" = Some (File "sessions/user_1.lock" 3)
  ∧ (release_lock calm "user_1" holding).2 = idle
  ∧ (release_lock calm "user_1" (release_lock calm "user_1" holding).2).2 = idle.
Proof. split_and!; by vm_compute. Qed.

End LocksFacts.

(* ===================================================================== *)
(** * Properties of [join_chats] *)
(* ===================================================================== *)

Module JoinFacts.

Import Text Py Join.
Local Open Scope string_scope.
Local Open Scope list_scope.

(** *** Definitions used in the statements *)

(** The dialogs fetched when every setup check passes: the client exists,
    is connected or connects, is authorised, and answers [get_dialogs]. *)
Definition dialogs_of (e : env) : option (list dialog) :=
  match client e with
  | Some c =>
      if is_connected c || bool_decide (connect c = None) then
        match is_user_authorized c, get_dialogs c with
        | Ok true, Ok dialogs => Some dialogs
        | _, _ => None
        end
      else None
  | None => None
  end.

(** The state the loop starts from once the setup has passed. *)
Definition after_setup (e : env) (s : state) : state :=
  match client e with
  | Some c => emit GetDialogs (if is_connected c then s else emit Connect s)
  | None => s
  end.

(** The failures that left a record: an entry of [failed_chats] or of
    [captcha_required]. *)
Definition recorded (r : run_result) : nat :=
  length (failed_chats r) + length (captcha_required r).

(** The links the membership test lets through, and those it skips. *)
Definition outside (existing : gmap string dialog) (link : string) : Prop :=
  is_member existing link = false.
Definition inside (existing : gmap string dialog) (link : string) : Prop :=
  is_member existing link = true.

Global Instance outside_dec existing link : Decision (outside existing link).
Proof. unfold outside. apply _. Defined.
Global Instance inside_dec existing link : Decision (inside existing link).
Proof. unfold inside. apply _. Defined.

(** What [on_error] does to [results]. *)
Definition on_error_results (link message : string) (r : run_result) : run_result :=
  if contains "captcha" (lower message)
  then incr_failed (append_captcha_required link r)
  else incr_failed (append_failed_chat (FailedChat link message) r).

(** The delay slept after the [k+1]-th successful join of a run. *)
Fixpoint delay_at (k : nat) : Q :=
  match k with
  | 0 => next_delay 1 10
  | S k' => next_delay (S (S k')) (delay_at k')
  end.




(** Concrete collaborators for the examples: an authorised, connected
    client; a clock that advances three seconds between two readings; a
    status message that can always be edited. *)
Definition account (dialogs : list dialog) : telegram :=
  Telegram true None (Ok true) (Ok dialogs).
Definition ticking (k : nat) : Z := (Z.of_nat k * 3000000)%Z.
Definition world (dialogs : list dialog) (answers : nat → join_answer) : env :=
  Env (Some (account dialogs)) (fun i _ => answers i) ticking (fun _ => None) None.
Definition no_client : env :=
  Env None (fun _ _ => Joined) ticking (fun _ => None) None.

(** A status message whose edits fail half of the time. *)
Definition flaky : env :=
  Env (Some (account [])) (fun _ _ => Joined) ticking
      (fun k => if Nat.even k then Some "MessageNotModified" else None) None.

(** *** Observers and appended events *)

Lemma sleeps_snoc t ev :
  sleeps (t ++ [ev]) = sleeps t ++ match ev with Sleep d => [d] | _ => [] end.
Proof. unfold sleeps. rewrite omap_app. by destruct ev. Qed.

Lemma requests_snoc t ev :
  requests (t ++ [ev])
  = requests t ++ match ev with
                  | ImportChatInvite _ | JoinChannel _ => [ev]
                  | _ => []
                  end.
Proof. unfold requests. rewrite omap_app. by destruct ev. Qed.

Lemma render_times_snoc t ev :
  render_times (t ++ [ev])
  = render_times t ++ match ev with StatusEdit at_ _ true => [at_] | _ => [] end.
Proof. unfold render_times. rewrite omap_app. by destruct ev as [| | | | |? ? []| |]. Qed.

Lemma final_edits_snoc t ev :
  final_edits (t ++ [ev])
  = final_edits t ++ match ev with FinalEdit ok => [ok] | _ => [] end.
Proof. unfold final_edits. rewrite omap_app. by destruct ev. Qed.

Lemma requests_request_of link : requests [request_of link] = [request_of link].
Proof. unfold request_of. by destruct (Links.is_invite_link link). Qed.

Lemma sleeps_request_of t link : sleeps (t ++ [request_of link]) = sleeps t.
Proof.
  rewrite sleeps_snoc. unfold request_of.
  destruct (Links.is_invite_link link); by rewrite app_nil_r.
Qed.



(** *** [update_status] touches nothing but the status message *)

Lemma update_status_frame e status_msg text s :
  let s' := update_status e status_msg text s in
  results s' = results s
  ∧ join_count s' = join_count s
  ∧ current_delay s' = current_delay s
  ∧ sleeps (trace s') = sleeps (trace s)
  ∧ requests (trace s') = requests (trace s)
  ∧ final_edits (trace s') = final_edits (trace s).
Proof.
  unfold update_status, datetime_now, call_edit_message. simpl.
  repeat case_match; simplify_eq; simpl;
    rewrite ?sleeps_snoc, ?requests_snoc, ?final_edits_snoc, ?app_nil_r; done.
Qed.


(** *** The setup checks *)

Lemma join_chats_try_ready e link chat_links status_msg s dialogs :
  dialogs_of e = Some dialogs →
  join_chats_try e (link :: chat_links) status_msg s
  = (Normal, run e status_msg dialogs (link :: chat_links) (after_setup e s)).
Proof.
  unfold dialogs_of, join_chats_try, after_setup. intros Hready.
  destruct (client e) as [c|]; [|done].
  destruct (is_connected c); simpl in *.
  - repeat case_match; by simplify_eq.
  - destruct (connect c); simpl in *; [done|].
    repeat case_match; by simplify_eq.
Qed.

Lemma after_setup_frame e s :
  results (after_setup e s) = results s
  ∧ sleeps (trace (after_setup e s)) = sleeps (trace s)
  ∧ requests (trace (after_setup e s)) = requests (trace s)
  ∧ render_times (trace (after_setup e s)) = render_times (trace s)
  ∧ final_edits (trace (after_setup e s)) = final_edits (trace s).
Proof.
  unfold after_setup. repeat case_match; simpl;
    rewrite ?sleeps_snoc, ?requests_snoc, ?render_times_snoc,
            ?final_edits_snoc, ?app_nil_r; done.
Qed.

(** *** Counting *)

Lemma inside_outside_length existing (chat_links : list string) :
  length (filter (inside existing) chat_links)
  + length (filter (outside existing) chat_links) = length chat_links.
Proof.
  induction chat_links as [|l ls IH]; [done|].
  rewrite !filter_cons. repeat case_decide; simpl; try lia;
    unfold inside, outside in *; destruct (is_member existing l); done.
Qed.

Lemma join_one_counts e status_msg existing i link s :
  let s' := join_one e status_msg existing i link s in
  already_member (results s') = already_member (results s)
  ∧ success (results s') + failed (results s')
    = success (results s) + failed (results s) + (if is_member existing link then 0 else 1)
  ∧ failed (results s') + recorded (results s) = failed (results s) + recorded (results s').
Proof.
  unfold join_one, datetime_now. simpl.
  destruct (is_member existing link); simpl; [lia|].
  match goal with |- context [update_status e status_msg (Processing link) ?s0] =>
    destruct (update_status_frame e status_msg (Processing link) s0) as (Hres & _);
    set (s1 := update_status e status_msg (Processing link) s0) in *
  end.
  simpl in Hres. unfold recorded.
  destruct (request e i link) as [|w|msg].
  - unfold on_joined, sleep. simpl. rewrite Hres. lia.
  - unfold on_flood_wait, sleep. simpl.
    match goal with |- context [update_status e status_msg (FloodNotice w) ?s0] =>
      destruct (update_status_frame e status_msg (FloodNotice w) s0) as (-> & _)
    end.
    simpl. rewrite Hres, length_app. simpl. lia.
  - unfold on_error. destruct (contains "captcha" (lower msg)); simpl;
      rewrite Hres, length_app; simpl; lia.
Qed.

Lemma join_loop_counts e status_msg existing chat_links : ∀ i s,
  let s' := join_loop e status_msg existing i chat_links s in
  already_member (results s') = already_member (results s)
  ∧ success (results s') + failed (results s')
    = success (results s) + failed (results s) + length (filter (outside existing) chat_links)
  ∧ failed (results s') + recorded (results s) = failed (results s) + recorded (results s').
Proof.
  induction chat_links as [|l ls IH]; intros i s; simpl; [lia|].
  destruct (IH (S i) (join_one e status_msg existing i l s)) as (Ha & Hsf & Hrec).
  destruct (join_one_counts e status_msg existing i l s) as (Ha1 & Hsf1 & Hrec1).
  simpl in *. rewrite filter_cons.
  case_decide as Hl; unfold outside in Hl; rewrite ?Hl in *;
    [|destruct (is_member existing l); [|done]]; simpl; lia.
Qed.

Lemma count_members_spec existing chat_links : ∀ s,
  let s' := count_members existing chat_links s in
  results s' = Results (success (results s)) (failed (results s)) (failed_chats (results s))
                   (captcha_required (results s)) (captcha_screenshots (results s))
                   (captcha_solved (results s))
                   (already_member (results s)
                    + length (filter (inside existing) chat_links))
  ∧ trace s' = trace s ∧ clock_reads s' = clock_reads s
  ∧ edit_calls s' = edit_calls s.
Proof.
  unfold count_members.
  induction chat_links as [|l ls IH]; intros s; simpl.
  - rewrite Nat.add_0_r. by destruct s as [[]].
  - match goal with |- context [foldl ?f ?s0 ls] =>
      destruct (IH s0) as (-> & -> & -> & ->) end.
    rewrite filter_cons.
    case_decide as Hl; unfold inside in Hl; rewrite ?Hl;
      [|destruct (is_member existing l); [done|]]; simpl;
      split_and!; try done; f_equal; lia.
Qed.

Lemma final_status_frame e status_msg s :
  let s' := final_status e status_msg s in
  results s' = results s
  ∧ sleeps (trace s') = sleeps (trace s)
  ∧ requests (trace s') = requests (trace s)
  ∧ render_times (trace s') = render_times (trace s)
  ∧ final_edits (trace s')
    = final_edits (trace s)
      ++ (if usable status_msg
          then [bool_decide (edit_message e (edit_calls s) = None)] else []).
Proof.
  unfold final_status, datetime_now, call_edit_message. simpl.
  destruct (usable status_msg); simpl; [|by rewrite app_nil_r].
  destruct (edit_message e (edit_calls s)) eqn:Hedit; simpl.
  - destruct (send_message e); simpl;
      rewrite !sleeps_snoc, !requests_snoc, !render_times_snoc,
              !final_edits_snoc, !app_nil_r; done.
  - rewrite !sleeps_snoc, !requests_snoc, !render_times_snoc,
            !final_edits_snoc, ?app_nil_r; done.
Qed.

Lemma run_unfold e status_msg dialogs chat_links s :
  run e status_msg dialogs chat_links s
  = final_status e status_msg
      (join_loop e status_msg (existing_chats dialogs) 1 chat_links
         (loop_entry e (existing_chats dialogs) chat_links s)).
Proof. done. Qed.

Lemma loop_entry_spec e existing chat_links s :
  let s' := loop_entry e existing chat_links s in
  results s' = results (count_members existing chat_links s)
  ∧ join_count s' = 0 ∧ current_delay s' = 10%Q
  ∧ trace s' = trace s.
Proof.
  unfold loop_entry, datetime_now. simpl.
  by destruct (count_members_spec existing chat_links s) as (_ & -> & _).
Qed.

(** The counters of a run that passed the setup. *)
Lemma run_counts e status_msg dialogs chat_links s :
  results s = fresh_results →
  let r := results (run e status_msg dialogs chat_links s) in
  success r + failed r + already_member r = length chat_links
  ∧ already_member r = length (filter (inside (existing_chats dialogs)) chat_links)
  ∧ failed r = recorded r.
Proof.
  intros Hfresh. rewrite run_unfold. simpl.
  destruct (final_status_frame e status_msg
              (join_loop e status_msg (existing_chats dialogs) 1 chat_links
                 (loop_entry e (existing_chats dialogs) chat_links s))) as (-> & _).
  destruct (join_loop_counts e status_msg (existing_chats dialogs) chat_links 1
              (loop_entry e (existing_chats dialogs) chat_links s))
    as (Ha & Hsf & Hrec).
  simpl in *.
  destruct (loop_entry_spec e (existing_chats dialogs) chat_links s) as (Hres & _).
  destruct (count_members_spec (existing_chats dialogs) chat_links s) as (Hcm & _).
  simpl in *. rewrite Hcm, Hfresh in Ha, Hsf, Hrec. simpl in *.
  unfold recorded in *. simpl in *.
  pose proof (inside_outside_length (existing_chats dialogs) chat_links).
  lia.
Qed.

(** *** One iteration, answer by answer *)

Lemma join_one_member e status_msg existing i link s :
  is_member existing link = true →
  let s' := join_one e status_msg existing i link s in
  results s' = results s ∧ join_count s' = join_count s
  ∧ current_delay s' = current_delay s ∧ trace s' = trace s.
Proof. intros Hin. unfold join_one, datetime_now. simpl. by rewrite Hin. Qed.

Lemma join_one_joined e status_msg existing i link s :
  is_member existing link = false →
  request e i link = Joined →
  let s' := join_one e status_msg existing i link s in
  let d := next_delay (S (join_count s)) (current_delay s) in
  results s' = incr_success (results s)
  ∧ join_count s' = S (join_count s)
  ∧ current_delay s' = d
  ∧ sleeps (trace s') = sleeps (trace s) ++ [d]
  ∧ requests (trace s') = requests (trace s) ++ [request_of link].
Proof.
  intros Hout Hans. unfold join_one, datetime_now. simpl. rewrite Hout, Hans.
  match goal with |- context [update_status e status_msg (Processing link) ?s0] =>
    destruct (update_status_frame e status_msg (Processing link) s0)
      as (Hres & Hjc & Hd & Hsl & Hrq & _);
    set (s1 := update_status e status_msg (Processing link) s0) in *
  end.
  simpl in *. unfold on_joined, sleep. simpl.
  rewrite Hres, Hjc, Hd. split_and!; try done.
  - by rewrite sleeps_snoc, sleeps_request_of, Hsl.
  - rewrite requests_snoc, app_nil_r, requests_snoc, Hrq. f_equal.
    unfold request_of. by destruct (Links.is_invite_link link).
Qed.

Lemma join_one_flood_wait e status_msg existing i link wait_time s :
  is_member existing link = false →
  request e i link = FloodWaitError wait_time →
  let s' := join_one e status_msg existing i link s in
  results s' = incr_failed
             (append_failed_chat (FailedChat link (flood_text wait_time)) (results s))
  ∧ join_count s' = join_count s
  ∧ current_delay s' = 10%Q
  ∧ sleeps (trace s') = sleeps (trace s) ++ [inject_Z wait_time]
  ∧ requests (trace s') = requests (trace s) ++ [request_of link].
Proof.
  intros Hout Hans. unfold join_one, datetime_now. simpl. rewrite Hout, Hans.
  match goal with |- context [update_status e status_msg (Processing link) ?s0] =>
    destruct (update_status_frame e status_msg (Processing link) s0)
      as (Hres & Hjc & Hd & Hsl & Hrq & _);
    set (s1 := update_status e status_msg (Processing link) s0) in *
  end.
  simpl in *. unfold on_flood_wait, sleep. simpl.
  match goal with |- context [update_status e status_msg (FloodNotice wait_time) ?s0] =>
    destruct (update_status_frame e status_msg (FloodNotice wait_time) s0)
      as (Hres' & Hjc' & Hd' & Hsl' & Hrq' & _);
    set (s2 := update_status e status_msg (FloodNotice wait_time) s0) in *
  end.
  simpl in *. rewrite Hres', Hjc', Hres, Hjc. split_and!; try done.
  - by rewrite sleeps_snoc, Hsl', sleeps_request_of, Hsl.
  - rewrite requests_snoc, app_nil_r, Hrq', requests_snoc, Hrq. f_equal.
    unfold request_of. by destruct (Links.is_invite_link link).
Qed.

Lemma join_one_error e status_msg existing i link message s :
  is_member existing link = false →
  request e i link = OtherError message →
  let s' := join_one e status_msg existing i link s in
  results s' = on_error_results link message (results s)
  ∧ join_count s' = join_count s
  ∧ current_delay s' = current_delay s
  ∧ sleeps (trace s') = sleeps (trace s)
  ∧ requests (trace s') = requests (trace s) ++ [request_of link].
Proof.
  intros Hout Hans. unfold join_one, datetime_now. simpl. rewrite Hout, Hans.
  match goal with |- context [update_status e status_msg (Processing link) ?s0] =>
    destruct (update_status_frame e status_msg (Processing link) s0)
      as (Hres & Hjc & Hd & Hsl & Hrq & _);
    set (s1 := update_status e status_msg (Processing link) s0) in *
  end.
  simpl in *. unfold on_error, on_error_results.
  destruct (contains "captcha" (lower message)); simpl;
    rewrite Hres, Hjc, Hd, sleeps_request_of, Hsl, requests_snoc, Hrq;
    split_and!; try done; f_equal;
    unfold request_of; by destruct (Links.is_invite_link link).
Qed.

(** *** Which targets are attempted *)

Lemma join_one_requests e status_msg existing i link s :
  requests (trace (join_one e status_msg existing i link s))
  = requests (trace s)
    ++ (if is_member existing link then [] else [request_of link]).
Proof.
  destruct (is_member existing link) eqn:Hm.
  - destruct (join_one_member e status_msg existing i link s Hm) as (_ & _ & _ & ->).
    by rewrite app_nil_r.
  - destruct (request e i link) as [|w|msg] eqn:Hans.
    + by destruct (join_one_joined e status_msg existing i link s Hm Hans)
        as (_ & _ & _ & _ & ->).
    + by destruct (join_one_flood_wait e status_msg existing i link w s Hm Hans)
        as (_ & _ & _ & _ & ->).
    + by destruct (join_one_error e status_msg existing i link msg s Hm Hans)
        as (_ & _ & _ & _ & ->).
Qed.

Lemma join_loop_requests e status_msg existing chat_links : ∀ i s,
  requests (trace (join_loop e status_msg existing i chat_links s))
  = requests (trace s) ++ (request_of <$> filter (outside existing) chat_links).
Proof.
  induction chat_links as [|l ls IH]; intros i s; simpl.
  - by rewrite app_nil_r.
  - rewrite IH, join_one_requests, <- app_assoc. f_equal.
    rewrite filter_cons.
    case_decide as Hl; unfold outside in Hl.
    + by rewrite Hl.
    + by destruct (is_member existing l).
Qed.

Lemma run_requests e status_msg dialogs chat_links s :
  requests (trace (run e status_msg dialogs chat_links s))
  = requests (trace s)
    ++ (request_of <$> filter (outside (existing_chats dialogs)) chat_links).
Proof.
  rewrite run_unfold.
  match goal with |- context [final_status e status_msg ?s0] =>
    destruct (final_status_frame e status_msg s0) as (_ & _ & -> & _) end.
  rewrite join_loop_requests.
  by destruct (loop_entry_spec e (existing_chats dialogs) chat_links s)
    as (_ & _ & _ & ->).
Qed.

(** The keys of [existing_chats]: the lowercased usernames of the channel
    dialogs that have one. *)
Lemma existing_chats_dom dialogs key :
  key ∈ dom (existing_chats dialogs)
  ↔ ∃ d u, d ∈ dialogs ∧ is_channel d = true ∧ username d = Some u
           ∧ truthy u = true ∧ lower u = key.
Proof.
  unfold existing_chats.
  enough (∀ m : gmap string dialog,
    key ∈ dom (foldl (fun m d =>
                        match username d with
                        | Some u => if is_channel d && truthy u
                                    then <[ lower u := d ]> m else m
                        | None => m
                        end) m dialogs)
    ↔ key ∈ dom m
      ∨ ∃ d u, d ∈ dialogs ∧ is_channel d = true ∧ username d = Some u
               ∧ truthy u = true ∧ lower u = key) as Hgen.
  { rewrite Hgen, dom_empty_L. set_solver. }
  induction dialogs as [|d ds IH]; intros m; simpl.
  - split; [by left|]. intros [?|(d & u & Hd & _)]; [done|]. by apply elem_of_nil in Hd.
  - rewrite IH. clear IH. split.
    + intros [Hm|(d' & u & Hd' & Hrest)].
      * destruct (username d) as [u|] eqn:Hu; [|by left].
        destruct (is_channel d) eqn:Hc, (truthy u) eqn:Ht; simpl in Hm;
          try by left.
        rewrite dom_insert_L, elem_of_union, elem_of_singleton in Hm.
        destruct Hm as [->|Hm]; [|by left].
        right. exists d, u. split_and!; try done. left.
      * right. exists d', u. split; [by right|done].
    + intros [Hm|(d' & u & Hd' & Hc & Hu & Ht & Hk)].
      * left. destruct (username d) as [u|]; [|done].
        destruct (is_channel d && truthy u); [|done].
        rewrite dom_insert_L. set_solver.
      * apply elem_of_cons in Hd' as [->|Hd'].
        -- left. rewrite Hu, Hc, Ht. simpl. rewrite dom_insert_L. set_solver.
        -- right. exists d', u. by split_and!.
Qed.

(** *** Pacing *)

Lemma py_min_Qmin a b : (py_min a b == Qmin b a)%Q.
Proof.
  unfold py_min. destruct (b ?= a)%Q eqn:Hcmp.
  - apply Qeq_alt in Hcmp. rewrite Q.min_l; [by symmetry|]. rewrite Hcmp. apply Qle_refl.
  - apply Qlt_alt in Hcmp. rewrite Q.min_l; [reflexivity|]. by apply Qlt_le_weak.
  - apply Qgt_alt in Hcmp. rewrite Q.min_r; [reflexivity|]. by apply Qlt_le_weak.
Qed.

Lemma py_min_le_l a b : (py_min a b <= a)%Q.
Proof. rewrite py_min_Qmin. apply Q.le_min_r. Qed.

Lemma py_min_glb a b c : (c <= a)%Q → (c <= b)%Q → (c <= py_min a b)%Q.
Proof. intros Ha Hb. rewrite py_min_Qmin. by apply Q.min_glb. Qed.










(** *** Throttling *)








(** *** The final summary *)




(** *** Whole runs *)

Lemma join_chats_ready e link chat_links status_msg count0 delay0 dialogs :
  dialogs_of e = Some dialogs →
  let s := run e status_msg dialogs (link :: chat_links)
               (after_setup e (entry count0 delay0)) in
  join_chats e (link :: chat_links) status_msg count0 delay0
  = (Value (Some (ResultsDict (results s))), s).
Proof.
  intros Hready. unfold join_chats.
  by rewrite (join_chats_try_ready _ _ _ _ _ _ Hready).
Qed.

Lemma join_chats_empty e status_msg count0 delay0 :
  join_chats e [] status_msg count0 delay0
  = (Value (Some (ResultsDict fresh_results)), entry count0 delay0).
Proof. done. Qed.

(** The dictionary a run that passed the setup returns. *)
Lemma run_already_member e chat_links status_msg count0 delay0 dialogs :
  dialogs_of e = Some dialogs →
  ∃ r, (join_chats e chat_links status_msg count0 delay0).1
       = Value (Some (ResultsDict r))
       ∧ (success r + failed r + already_member r = length chat_links)%nat
       ∧ already_member r
         = length (filter (inside (existing_chats dialogs)) chat_links)
       ∧ (failed r = recorded r)%nat.
Proof.
  intros Hready. destruct chat_links as [|l ls].
  - exists fresh_results. by rewrite join_chats_empty.
  - rewrite (join_chats_ready _ _ _ _ _ _ _ Hready). simpl.
    eexists. split; [done|].
    apply run_counts. by destruct (after_setup_frame e (entry count0 delay0)) as (-> & _).
Qed.

(** **** C8 *)

(** C8: whatever the collaborators do, the caller of [join_chats] gets the
    [results] accumulator as the body left it: never a dictionary with an
    error key, never an exception.  On the empty list the body returns the
    error dictionary, the caller still gets the accumulator, all counters
    zero, and nothing was requested, slept or edited. *)
Theorem join_chats_always_returns_results e chat_links status_msg count0 delay0 :
  (join_chats e chat_links status_msg count0 delay0).1
  = Value (Some (ResultsDict
                   (results (join_chats e chat_links status_msg count0 delay0).2)))
  ∧ (join_chats_try e [] status_msg (entry count0 delay0)).1
    = Return (ErrorDict "Список каналов пуст")
  ∧ join_chats e [] status_msg count0 delay0
    = (Value (Some (ResultsDict fresh_results)), entry count0 delay0)
  ∧ trace (join_chats e [] status_msg count0 delay0).2 = [].
Proof.
  split_and!; try done.
  unfold join_chats.
  destruct (join_chats_try e chat_links status_msg (entry count0 delay0))
    as [[|v|exn] s]; done.
Qed.

(** The early returns and the exceptions are really there, and really
    overridden. *)
Example error_returns_are_overridden :
  let broken := Env (Some (Telegram false (Some "ConnectionError") (Ok true) (Ok [])))
                    (fun _ _ => Joined) ticking (fun _ => None) None in
  (join_chats_try no_client ["https://t.me/a"] None (entry 0 10)).1
  = Return (ErrorDict "Клиент не инициализирован")
  ∧ (join_chats no_client ["https://t.me/a"] None 0 10).1
    = Value (Some (ResultsDict fresh_results))
  ∧ (join_chats_try broken ["https://t.me/a"] None (entry 0 10)).1
    = Raise "ConnectionError"
  ∧ (join_chats broken ["https://t.me/a"] None 0 10).1
    = Value (Some (ResultsDict fresh_results)).
Proof. split_and!; by vm_compute. Qed.

(** **** C2 *)




(** **** C1 *)

(** C1, as the code has it: an iteration answered by a flood wait of
    [wait_time] seconds sleeps exactly [wait_time], then sets
    [current_delay] back to 10; [join_count] is left as it was.  So the
    delay of the next successful join is 10 only when no join succeeded
    before in this run; it is 60 after exactly one, and
    [min(600, 10 * 1.1)], that is 11, after two or more. *)
Theorem flood_wait_resets_delay_only e status_msg existing i link wait_time s :
  is_member existing link = false →
  request e i link = FloodWaitError wait_time →
  let s1 := join_one e status_msg existing i link s in
  sleeps (trace s1) = sleeps (trace s) ++ [inject_Z wait_time]
  ∧ current_delay s1 = 10%Q
  ∧ join_count s1 = join_count s
  ∧ ∀ i' link',
      is_member existing link' = false →
      request e i' link' = Joined →
      ∃ d, sleeps (trace (join_one e status_msg existing i' link' s1))
           = sleeps (trace s1) ++ [d]
           ∧ (join_count s = 0%nat → d = 10%Q)
           ∧ (join_count s = 1%nat → d = 60%Q)
           ∧ ((2 ≤ join_count s)%nat → (d == 11)%Q).
Proof.
  intros Hout Hflood.
  destruct (join_one_flood_wait e status_msg existing i link wait_time s Hout Hflood)
    as (_ & Hjc & Hd & Hsl & _).
  simpl. split_and!; try done.
  intros i' link' Hout' Hjoined.
  destruct (join_one_joined e status_msg existing i' link'
              (join_one e status_msg existing i link s) Hout' Hjoined)
    as (_ & _ & _ & Hsl' & _).
  simpl in Hsl'. rewrite Hjc, Hd in Hsl'.
  eexists. split; [exact Hsl'|].
  split_and!.
  - by intros ->.
  - by intros ->.
  - intros Hge. destruct (join_count s) as [|[|n]]; [lia|lia|]. by vm_compute.
Qed.

Lemma flood_wait_resets_delay_only_witness :
  let e := world [] (fun i => match i with 2 => FloodWaitError 120 | _ => Joined end) in
  let s := join_one e None ∅ 1 "https://t.me/a" (entry 0 10) in
  is_member ∅ "https://t.me/b" = false
  ∧ request e 2 "https://t.me/b" = FloodWaitError 120
  ∧ join_count s = 1%nat
  ∧ sleeps (trace (join_one e None ∅ 2 "https://t.me/b" s))
    = sleeps (trace s) ++ [inject_Z 120]
  ∧ current_delay (join_one e None ∅ 2 "https://t.me/b" s) = 10%Q
  ∧ join_count (join_one e None ∅ 2 "https://t.me/b" s) = join_count s.
Proof.
  cbv zeta.
  assert (is_member ∅ "https://t.me/b" = false) as Hout by reflexivity.
  split; [exact Hout|]. split; [reflexivity|]. split; [reflexivity|].
  destruct (flood_wait_resets_delay_only
              (world [] (fun i => match i with 2 => FloodWaitError 120 | _ => Joined end))
              None ∅ 2 "https://t.me/b" 120
              (join_one (world [] (fun i => match i with
                                            | 2 => FloodWaitError 120
                                            | _ => Joined
                                            end))
                        None ∅ 1 "https://t.me/a" (entry 0 10))
              Hout eq_refl) as (Hsleep & Hdelay & Hcount & _).
  split; [exact Hsleep|]. split; [exact Hdelay|exact Hcount].
Defined.

(** C1, as stated, fails: after one successful join and a flood wait of
    120 seconds the counter still stands at 1, so the next successful join
    sleeps 60 seconds, not 10. *)
Lemma counter_survives_flood_wait :
  let e := world [] (fun i => match i with 2 => FloodWaitError 120 | _ => Joined end) in
  let s2 := (join_chats e ["https://t.me/a"; "https://t.me/b"] None 0 10).2 in
  let s3 := (join_chats e ["https://t.me/a"; "https://t.me/b"; "https://t.me/c"]
                        None 0 10).2 in
  sleeps (trace s2) = [10%Q; inject_Z 120]
  ∧ join_count s2 = 1%nat
  ∧ current_delay s2 = 10%Q
  ∧ sleeps (trace s3) = [10%Q; inject_Z 120; 60%Q]
  ∧ ¬ (60 == 10)%Q.
Proof. cbv zeta. split_and!; by vm_compute. Qed.

(** **** C3 *)

(** C3, as the code has it: a flood wait does not stop the run.  The
    iteration sends its one request, sleeps the [wait_time] it was given
    and the loop goes on to request every remaining link that is not in
    the dialogs; the link itself is not tried again, and it is recorded as
    a failure at once: [failed] grows by one and [failed_chats] receives
    the link with the text of [flood_text]. *)
Theorem flood_wait_is_recorded_as_failure
    e status_msg existing i link wait_time s :
  is_member existing link = false →
  request e i link = FloodWaitError wait_time →
  let s' := join_one e status_msg existing i link s in
  sleeps (trace s') = sleeps (trace s) ++ [inject_Z wait_time]
  ∧ requests (trace s') = requests (trace s) ++ [request_of link]
  ∧ success (results s') = success (results s)
  ∧ failed (results s') = S (failed (results s))
  ∧ failed_chats (results s')
    = failed_chats (results s) ++ [FailedChat link (flood_text wait_time)]
  ∧ ∀ rest,
      requests (trace (join_loop e status_msg existing (S i) rest s'))
      = requests (trace s') ++ (request_of <$> filter (outside existing) rest).
Proof.
  intros Hout Hflood.
  destruct (join_one_flood_wait e status_msg existing i link wait_time s Hout Hflood)
    as (Hres & _ & _ & Hsl & Hrq).
  simpl. rewrite Hres. split_and!; try done.
  intros rest. apply join_loop_requests.
Qed.

Lemma flood_wait_is_recorded_as_failure_witness :
  let e := world [] (fun i => match i with 1 => FloodWaitError 120 | _ => Joined end) in
  is_member ∅ "https://t.me/a" = false
  ∧ request e 1 "https://t.me/a" = FloodWaitError 120
  ∧ failed (results (join_one e None ∅ 1 "https://t.me/a" (entry 0 10))) = 1%nat
  ∧ failed_chats (results (join_one e None ∅ 1 "https://t.me/a" (entry 0 10)))
    = [FailedChat "https://t.me/a" (flood_text 120)].
Proof.
  cbv zeta.
  assert (is_member ∅ "https://t.me/a" = false) as Hout by reflexivity.
  split; [exact Hout|]. split; [reflexivity|].
  destruct (flood_wait_is_recorded_as_failure
              (world [] (fun i => match i with 1 => FloodWaitError 120 | _ => Joined end))
              None ∅ 1 "https://t.me/a" 120 (entry 0 10) Hout eq_refl)
    as (_ & _ & _ & Hfailed & Hchats & _).
  split; [exact Hfailed|exact Hchats].
Defined.

(** C3, as stated, fails: a single flood wait, met once for that link,
    already counts as a failure and enters [failed_chats]. *)
Lemma single_flood_wait_counts_as_failure :
  let e := world [] (fun i => match i with 1 => FloodWaitError 120 | _ => Joined end) in
  let out := join_chats e ["https://t.me/a"; "https://t.me/b"] None 0 10 in
  out.1 = Value (Some (ResultsDict
            (Results 1 1 [FailedChat "https://t.me/a" "Нужно подождать 120 секунд"]
                     [] [] [] 0)))
  ∧ requests (trace out.2) = [JoinChannel "a"; JoinChannel "b"]
  ∧ sleeps (trace out.2) = [inject_Z 120; 10%Q].
Proof. cbv zeta. split_and!; by vm_compute. Qed.

(** **** Failures other than a flood wait *)

(** A request that fails with anything but a flood wait is recorded and
    the loop moves on at once: no sleep, [join_count] and [current_delay]
    untouched.  The link goes to [captcha_required] when the lowercased
    message contains captcha, to [failed_chats] with the message otherwise;
    [failed] grows by one in both cases. *)
Theorem failures_are_not_paced e status_msg existing i link message s :
  is_member existing link = false →
  request e i link = OtherError message →
  let s' := join_one e status_msg existing i link s in
  sleeps (trace s') = sleeps (trace s)
  ∧ join_count s' = join_count s
  ∧ current_delay s' = current_delay s
  ∧ success (results s') = success (results s)
  ∧ failed (results s') = S (failed (results s))
  ∧ (if contains "captcha" (lower message)
     then captcha_required (results s') = captcha_required (results s) ++ [link]
          ∧ failed_chats (results s') = failed_chats (results s)
     else captcha_required (results s') = captcha_required (results s)
          ∧ failed_chats (results s')
            = failed_chats (results s) ++ [FailedChat link message]).
Proof.
  intros Hout Herr.
  destruct (join_one_error e status_msg existing i link message s Hout Herr)
    as (Hres & Hjc & Hd & Hsl & _).
  simpl. rewrite Hres. unfold on_error_results.
  destruct (contains "captcha" (lower message)); by split_and!.
Qed.

Lemma failures_are_not_paced_witness :
  let e := world [] (fun _ => OtherError "CAPTCHA required") in
  is_member ∅ "https://t.me/a" = false
  ∧ request e 1 "https://t.me/a" = OtherError "CAPTCHA required"
  ∧ sleeps (trace (join_one e None ∅ 1 "https://t.me/a" (entry 0 10))) = []
  ∧ failed (results (join_one e None ∅ 1 "https://t.me/a" (entry 0 10))) = 1%nat.
Proof.
  cbv zeta.
  assert (is_member ∅ "https://t.me/a" = false) as Hout by reflexivity.
  split; [exact Hout|]. split; [reflexivity|].
  destruct (failures_are_not_paced (world [] (fun _ => OtherError "CAPTCHA required"))
              None ∅ 1 "https://t.me/a" "CAPTCHA required" (entry 0 10) Hout eq_refl)
    as (Hsleeps & _ & _ & _ & Hfailed & _).
  split; [exact Hsleeps|exact Hfailed].
Defined.

(** **** C5 *)



Example fresh_ramp_five :
  sleeps (trace (join_chats (world [] (fun _ => Joined))
                            ["https://t.me/a"; "https://t.me/b"; "https://t.me/c";
                             "https://t.me/d"; "https://t.me/e"] None 7 300).2)
  = [10 # 1; 60 # 1; 660 # 10; 7260 # 100; 79860 # 1000]%Q.
Proof. by vm_compute. Qed.

(** **** C7 *)

Lemma truthy_nonempty u : truthy u = true ↔ u ≠ "".
Proof. by destruct u. Qed.

(** C7, as the code has it: the membership test does not look at the
    kind of link.  A link, invite or username alike, is skipped as already
    joined exactly when the lowercased last [/]-segment of the link is the
    lowercased username of a channel dialog; the links requested are the
    others, in input order, each once, and [already_member] counts the
    skipped ones.  An invite link is therefore skipped when its hash,
    lowercased, happens to be such a username. *)
Theorem membership_ignores_link_kind
    e chat_links status_msg count0 delay0 dialogs :
  dialogs_of e = Some dialogs →
  let existing := existing_chats dialogs in
  let out := join_chats e chat_links status_msg count0 delay0 in
  requests (trace out.2) = request_of <$> filter (outside existing) chat_links
  ∧ (∃ r, out.1 = Value (Some (ResultsDict r))
          ∧ already_member r = length (filter (inside existing) chat_links))
  ∧ (∀ link, is_member existing link = true
             ↔ ∃ d u, d ∈ dialogs ∧ is_channel d = true ∧ username d = Some u
                      ∧ u ≠ "" ∧ lower u = lower (last_segment link)).
Proof.
  intros Hready. cbv zeta. split_and!.
  - destruct chat_links as [|l ls]; [by rewrite join_chats_empty|].
    rewrite (join_chats_ready _ _ _ _ _ _ _ Hready). simpl.
    rewrite run_requests.
    by destruct (after_setup_frame e (entry count0 delay0)) as (_ & _ & -> & _).
  - destruct (run_already_member e chat_links status_msg count0 delay0 dialogs Hready)
      as (r & Hr & _ & Hmem & _).
    by exists r.
  - intros link. unfold is_member. rewrite bool_decide_eq_true, existing_chats_dom.
    split; intros (d & u & Hd & Hc & Hu & Ht & Hk); exists d, u;
      split_and!; try done; by apply truthy_nonempty.
Qed.

Lemma membership_ignores_link_kind_witness :
  let e := world [Dialog true (Some "News"); Dialog false (Some "chat");
                  Dialog true None] (fun _ => Joined) in
  let links := ["https://t.me/news"; "https://t.me/chat";
                "https://t.me/joinchat/AbC123"] in
  dialogs_of e = Some [Dialog true (Some "News"); Dialog false (Some "chat");
                       Dialog true None]
  ∧ requests (trace (join_chats e links None 0 10).2)
    = request_of <$> filter (outside (existing_chats
                                        [Dialog true (Some "News");
                                         Dialog false (Some "chat");
                                         Dialog true None])) links.
Proof.
  cbv zeta. split; [reflexivity|].
  destruct (membership_ignores_link_kind
              (world [Dialog true (Some "News"); Dialog false (Some "chat");
                      Dialog true None] (fun _ => Joined))
              ["https://t.me/news"; "https://t.me/chat"; "https://t.me/joinchat/AbC123"]
              None 0%nat 10%Q
              [Dialog true (Some "News"); Dialog false (Some "chat"); Dialog true None]
              eq_refl) as (Hrequests & _).
  exact Hrequests.
Defined.

Example membership_example :
  let e := world [Dialog true (Some "News"); Dialog false (Some "chat");
                  Dialog true None] (fun _ => Joined) in
  requests (trace (join_chats e ["https://t.me/news"; "https://t.me/chat";
                                 "https://t.me/joinchat/AbC123"] None 0 10).2)
  = [JoinChannel "chat"; ImportChatInvite "AbC123"].
Proof. by vm_compute. Qed.

(** C7, as stated, fails: an invite link whose hash, lowercased, is the
    username of a channel in the dialogs is counted as already joined and
    never requested. *)
Lemma invite_link_skipped_as_member :
  let e := world [Dialog true (Some "abc123")] (fun _ => Joined) in
  let out := join_chats e ["https://t.me/joinchat/AbC123"] None 0 10 in
  Links.form_of "https://t.me/joinchat/AbC123" = Links.PRIVATE_INVITE
  ∧ is_member (existing_chats [Dialog true (Some "abc123")])
              "https://t.me/joinchat/AbC123" = true
  ∧ requests (trace out.2) = []
  ∧ out.1 = Value (Some (ResultsDict (Results 0 0 [] [] [] [] 1))).
Proof. cbv zeta. split_and!; by vm_compute. Qed.

(** **** C9 *)



Example flaky_run :
  trace (join_chats flaky ["https://t.me/a"; "https://t.me/b"; "https://t.me/c"]
                    (Some (Message false 7)) 0 10).2
  = [GetDialogs;
     StatusEdit 9000000 (Processing "https://t.me/a") false;
     JoinChannel "a"; Sleep 10;
     StatusEdit 15000000 (Processing "https://t.me/b") true;
     JoinChannel "b"; Sleep 60;
     StatusEdit 21000000 (Processing "https://t.me/c") false;
     JoinChannel "c"; Sleep (py_min 600 (60 * 1.1));
     FinalEdit true].
Proof. by vm_compute. Qed.


End JoinFacts.

(* ===================================================================== *)
(** * The delay ramp with binary64 rounding *)
(* ===================================================================== *)

Module Binary64Facts.

Import Binary64.
Local Open Scope float_scope.

(** The delay slept after the [k+1]-th successful join of a run. *)
Fixpoint delay_at (k : nat) : float :=
  match k with
  | O => next_delay 1 10
  | S k' => next_delay (S (S k')) (delay_at k')
  end.




Example binary64_first_delays :
  delay_at <$> [0; 1; 2; 3]%nat = [10; 60; 66; 0x1.2266666666667p+6].
Proof. vm_compute. reflexivity. Qed.

End Binary64Facts.

(* ===================================================================== *)
(** * Properties of [cleanup_old_files] *)
(* ===================================================================== *)

Module ResourcesFacts.

Import Resources.
Local Open Scope Z_scope.

(** The files a cleanup deletes: listed, old enough, and neither
    [getctime] nor [remove] fails on them. *)
Definition expires (o : os) (current_time max_age_hours : Z)
    (filename : string) (file_time : Z) : bool :=
  negb (getctime_fails o filename)
  && too_old current_time max_age_hours file_time
  && negb (remove_fails o filename).

Definition quiet : os := OS false (fun _ => false) (fun _ => false).

Definition hour : Z := 3600 * 1000000.

Lemma cleanup_file_lookup o now age (dir : gmap string Z) filename f :
  cleanup_file o now age dir filename !! f
  = match dir !! f with
    | Some t => if bool_decide (f = filename) && expires o now age f t
                then None else Some t
    | None => None
    end.
Proof.
  unfold cleanup_file, expires.
  destruct (decide (f = filename)) as [->|Hne].
  - destruct (dir !! filename) as [t|] eqn:Ht.
    + rewrite bool_decide_eq_true_2 by done. simpl.
      destruct (getctime_fails o filename); simpl; [done|].
      destruct (too_old now age t); simpl; [|done].
      destruct (remove_fails o filename); simpl; [done|].
      apply lookup_delete_eq.
    + by destruct (getctime_fails o filename); rewrite ?Ht.
  - assert (∀ d : gmap string Z, d = dir ∨ d = delete filename dir → d !! f = dir !! f)
      as Hsame.
    { intros d [->| ->]; [done|]. by apply lookup_delete_ne. }
    rewrite (Hsame _).
    + destruct (dir !! f); [|done]. by rewrite bool_decide_eq_false_2.
    + repeat case_match; auto.
Qed.

Lemma foldl_cleanup_file_lookup o now age names : ∀ (dir : gmap string Z) f,
  foldl (cleanup_file o now age) dir names !! f
  = match dir !! f with
    | Some t => if bool_decide (f ∈ names) && expires o now age f t
                then None else Some t
    | None => None
    end.
Proof.
  induction names as [|x names IH]; intros dir f; simpl.
  - by destruct (dir !! f).
  - rewrite IH, cleanup_file_lookup.
    destruct (dir !! f) as [t|]; [|done].
    destruct (decide (f = x)) as [->|Hne].
    + rewrite (bool_decide_eq_true_2 (x = x)) by done.
      rewrite (bool_decide_eq_true_2 (x ∈ x :: names)) by left.
      simpl. destruct (expires o now age x t) eqn:Hexp; [done|].
      simpl. by rewrite Hexp, andb_false_r.
    + rewrite (bool_decide_eq_false_2 (f = x)) by done. simpl.
      destruct (decide (f ∈ names)) as [Hin|Hout].
      * rewrite !bool_decide_eq_true_2; [done|by right|done].
      * rewrite !bool_decide_eq_false_2; [done| |done].
        rewrite elem_of_cons. naive_solver.
Qed.

(** Which files are left after a cleanup. *)
Lemma cleanup_old_files_lookup o now age (dir : gmap string Z) f :
  cleanup_old_files o now age dir !! f
  = match dir !! f with
    | Some t => if negb (listdir_fails o) && expires o now age f t
                then None else Some t
    | None => None
    end.
Proof.
  unfold cleanup_old_files. destruct (listdir_fails o); simpl.
  - by destruct (dir !! f).
  - rewrite foldl_cleanup_file_lookup.
    destruct (dir !! f) as [t|] eqn:Hf; [|done].
    rewrite bool_decide_eq_true_2; [done|].
    apply list_elem_of_fmap. exists (f, t). split; [done|].
    by apply elem_of_map_to_list.
Qed.

(** A cleanup keeps every file that is not older than [max_age_hours],
    never adds or re-dates a file, deletes every file older than the limit
    whose [getctime] and [remove] succeed, and leaves the directory alone
    when [os.listdir] fails. *)
Theorem cleanup_old_files_retention o now age (dir : gmap string Z) :
  let dir' := cleanup_old_files o now age dir in
  (∀ f t, dir !! f = Some t → now - t <= age * 3600 * 1000000 → dir' !! f = Some t)
  ∧ (∀ f t, dir' !! f = Some t → dir !! f = Some t)
  ∧ (∀ f t, dir !! f = Some t → age * 3600 * 1000000 < now - t →
            listdir_fails o = false → getctime_fails o f = false →
            remove_fails o f = false → dir' !! f = None)
  ∧ (listdir_fails o = true → dir' = dir).
Proof.
  cbv zeta. split_and!.
  - intros f t Hf Hyoung. rewrite cleanup_old_files_lookup, Hf.
    unfold expires, too_old. rewrite (proj2 (Z.ltb_ge _ _) Hyoung).
    by rewrite andb_false_r, andb_false_r.
  - intros f t. rewrite cleanup_old_files_lookup.
    destruct (dir !! f) as [t'|]; [|done]. by case_match.
  - intros f t Hf Hold Hls Hct Hrm. rewrite cleanup_old_files_lookup, Hf.
    unfold expires, too_old. by rewrite Hls, Hct, Hrm, (proj2 (Z.ltb_lt _ _) Hold).
  - intros Hls. unfold cleanup_old_files. by rewrite Hls.
Qed.

Lemma cleanup_old_files_retention_witness :
  let dir : gmap string Z := {[ "captcha_1.png" := 0; "captcha_2.png" := 20 * hour ]} in
  let dir' := cleanup_old_files quiet (25 * hour) 24 dir in
  dir' !! "captcha_1.png" = None
  ∧ dir' !! "captcha_2.png" = Some (20 * hour).
Proof.
  cbv zeta.
  destruct (cleanup_old_files_retention quiet (25 * hour) 24
              {[ "captcha_1.png" := 0; "captcha_2.png" := 20 * hour ]})
    as (Hkeep & _ & Hdrop & _).
  split.
  - apply (Hdrop "captcha_1.png" 0); reflexivity.
  - apply (Hkeep "captcha_2.png" (20 * hour)); [reflexivity|discriminate].
Defined.

(** A second cleanup at the same instant, met by the same faults, finds
    nothing more to delete. *)
Theorem cleanup_old_files_idempotent o now age (dir : gmap string Z) :
  cleanup_old_files o now age (cleanup_old_files o now age dir)
  = cleanup_old_files o now age dir.
Proof.
  apply map_eq. intros f.
  rewrite (cleanup_old_files_lookup o now age (cleanup_old_files o now age dir)).
  rewrite cleanup_old_files_lookup.
  destruct (dir !! f) as [t|]; [|done].
  destruct (negb (listdir_fails o) && expires o now age f t) eqn:Hgone; [done|].
  by rewrite Hgone.
Qed.

End ResourcesFacts.

(* ===================================================================== *)
(** * Invariants of a [join_chats] run *)
(* ===================================================================== *)

Module RunFacts.

Import Text Py Join JoinFacts.
Local Open Scope string_scope.
Local Open Scope list_scope.

(** A sleep the pacing allows: a delay between 10 and 600 seconds, or the
    wait some flood error of this run asked for. *)
Definition paced_sleep (e : env) (d : Q) : Prop :=
  (10 <= d ∧ d <= 600)%Q
  ∨ ∃ i link wait_time, request e i link = FloodWaitError wait_time
                        ∧ d = inject_Z wait_time.

(** What holds before and after every iteration of the loop. *)
Definition steady (e : env) (s : state) : Prop :=
  captcha_screenshots (results s) = []
  ∧ captcha_solved (results s) = []
  ∧ join_count s = success (results s)
  ∧ (10 <= current_delay s ∧ current_delay s <= 600)%Q
  ∧ Forall (paced_sleep e) (sleeps (trace s)).

Lemma next_delay_bounds n d :
  (10 <= d ∧ d <= 600)%Q → (10 <= next_delay n d ∧ next_delay n d <= 600)%Q.
Proof.
  intros [Hlo Hhi]. unfold next_delay.
  destruct (n =? 1)%nat; [by vm_compute|].
  destruct (n =? 2)%nat; [by vm_compute|].
  split; [|apply py_min_le_l]. apply py_min_glb; lra.
Qed.

Lemma join_one_steady e status_msg existing i link s :
  steady e s → steady e (join_one e status_msg existing i link s).
Proof.
  intros (Hshots & Hsolved & Hcount & Hdelay & Hsleeps).
  destruct (is_member existing link) eqn:Hm.
  { destruct (join_one_member e status_msg existing i link s Hm)
      as (Hres & Hjc & Hd & Htr).
    unfold steady. by rewrite Hres, Hjc, Hd, Htr. }
  destruct (request e i link) as [|w|msg] eqn:Hans.
  - destruct (join_one_joined e status_msg existing i link s Hm Hans)
      as (Hres & Hjc & Hd & Hsl & _).
    unfold steady. rewrite Hres, Hjc, Hd, Hsl. simpl.
    pose proof (next_delay_bounds (S (join_count s)) _ Hdelay) as Hnext.
    split_and!; try done; try (by rewrite Hcount); try apply Hnext.
    apply Forall_app. split; [done|]. apply Forall_singleton. by left.
  - destruct (join_one_flood_wait e status_msg existing i link w s Hm Hans)
      as (Hres & Hjc & Hd & Hsl & _).
    unfold steady. rewrite Hres, Hjc, Hd, Hsl. simpl.
    split_and!; try done; try (by vm_compute).
    apply Forall_app. split; [done|]. apply Forall_singleton.
    right. by exists i, link, w.
  - destruct (join_one_error e status_msg existing i link msg s Hm Hans)
      as (Hres & Hjc & Hd & Hsl & _).
    unfold steady. rewrite Hres, Hjc, Hd, Hsl. unfold on_error_results.
    by destruct (contains "captcha" (lower msg)).
Qed.

Lemma join_loop_steady e status_msg existing chat_links : ∀ i s,
  steady e s → steady e (join_loop e status_msg existing i chat_links s).
Proof.
  induction chat_links as [|l ls IH]; intros i s Hs; simpl; [done|].
  by apply IH, join_one_steady.
Qed.

Lemma final_status_pacing e status_msg s :
  join_count (final_status e status_msg s) = join_count s
  ∧ current_delay (final_status e status_msg s) = current_delay s.
Proof.
  unfold final_status, datetime_now, call_edit_message. simpl.
  by repeat case_match.
Qed.

Lemma run_steady e status_msg dialogs chat_links s :
  results s = fresh_results → sleeps (trace s) = [] →
  steady e (run e status_msg dialogs chat_links s).
Proof.
  intros Hfresh Hquiet. rewrite run_unfold.
  match goal with |- steady e (final_status e status_msg ?s0) =>
    assert (steady e s0) as (Hshots & Hsolved & Hcount & Hdelay & Hsleeps);
    [|destruct (final_status_frame e status_msg s0) as (Hres & Hsl & _);
      destruct (final_status_pacing e status_msg s0) as (Hjc & Hd);
      unfold steady; by rewrite Hres, Hsl, Hjc, Hd]
  end.
  apply join_loop_steady.
  destruct (loop_entry_spec e (existing_chats dialogs) chat_links s)
    as (Hres & Hjc & Hd & Htr).
  destruct (count_members_spec (existing_chats dialogs) chat_links s) as (Hcm & _).
  unfold steady. rewrite Hres, Hcm, Hjc, Hd, Htr, Hquiet, Hfresh. simpl.
  split_and!; try done; by vm_compute.
Qed.

(** The state [join_chats] ends in: the one it started from, up to the
    events of the setup, or the state of a full run. *)
Lemma join_chats_final_state e chat_links status_msg count0 delay0 :
  let s := (join_chats e chat_links status_msg count0 delay0).2 in
  (results s = fresh_results ∧ sleeps (trace s) = [] ∧ requests (trace s) = [])
  ∨ ∃ dialogs s0, results s0 = fresh_results ∧ sleeps (trace s0) = []
                  ∧ s = run e status_msg dialogs chat_links s0.
Proof.
  unfold join_chats, join_chats_try.
  destruct chat_links as [|l ls]; [by left|].
  destruct (client e) as [c|]; [|by left].
  destruct (is_connected c); simpl.
  - destruct (is_user_authorized c) as [[]|]; [|by left|by left].
    destruct (get_dialogs c) as [ds|]; [|by left].
    right. by exists ds, (emit GetDialogs (entry count0 delay0)).
  - destruct (connect c); [by left|].
    destruct (is_user_authorized c) as [[]|]; [|by left|by left].
    destruct (get_dialogs c) as [ds|]; [|by left].
    right. by exists ds, (emit GetDialogs (emit Connect (entry count0 delay0))).
Qed.

Lemma join_chats_always_returns e chat_links status_msg count0 delay0 :
  ∃ r, (join_chats e chat_links status_msg count0 delay0).1
       = Value (Some (ResultsDict r))
       ∧ r = results (join_chats e chat_links status_msg count0 delay0).2.
Proof.
  eexists. split; [|done]. unfold join_chats.
  by destruct (join_chats_try e chat_links status_msg (entry count0 delay0))
    as [[|v|exn] s].
Qed.

(** [join_chats] never fills [captcha_screenshots] or [captcha_solved]:
    whatever the collaborators answer, both lists of the returned
    dictionary are empty. *)
Theorem captcha_lists_stay_empty e chat_links status_msg count0 delay0 :
  ∃ r, (join_chats e chat_links status_msg count0 delay0).1
       = Value (Some (ResultsDict r))
       ∧ captcha_screenshots r = [] ∧ captcha_solved r = [].
Proof.
  destruct (join_chats_always_returns e chat_links status_msg count0 delay0) as [r Hr].
  exists r. split; [apply Hr|]. destruct Hr as [_ ->].
  destruct (join_chats_final_state e chat_links status_msg count0 delay0)
    as [(-> & _)|(ds & s0 & Hfresh & Hquiet & ->)]; [done|].
  by destruct (run_steady e status_msg ds chat_links s0 Hfresh Hquiet) as (? & ? & _).
Qed.

(** In every run, whatever the answers to the join requests: every sleep
    is a delay between 10 and 600 seconds or the wait a flood error asked
    for; and when the loop was reached, [join_count] ends equal to the
    number of successful joins and [current_delay] between 10 and 600. *)
Theorem pacing_stays_in_bounds e chat_links status_msg count0 delay0 :
  let s := (join_chats e chat_links status_msg count0 delay0).2 in
  Forall (paced_sleep e) (sleeps (trace s))
  ∧ (∀ dialogs, dialogs_of e = Some dialogs → chat_links ≠ [] →
       join_count s = success (results s)
       ∧ (10 <= current_delay s ∧ current_delay s <= 600)%Q).
Proof.
  cbv zeta. split.
  - destruct (join_chats_final_state e chat_links status_msg count0 delay0)
      as [(_ & -> & _)|(ds & s0 & Hfresh & Hquiet & ->)]; [done|].
    by destruct (run_steady e status_msg ds chat_links s0 Hfresh Hquiet)
      as (_ & _ & _ & _ & ?).
  - intros ds Hready Hne. destruct chat_links as [|l ls]; [done|].
    rewrite (join_chats_ready _ _ _ _ _ _ _ Hready). simpl.
    destruct (after_setup_frame e (entry count0 delay0)) as (Hres & Hsl & _).
    by destruct (run_steady e status_msg ds (l :: ls)
                   (after_setup e (entry count0 delay0)) Hres Hsl)
      as (_ & _ & ? & ? & _).
Qed.

Lemma pacing_stays_in_bounds_witness :
  let e := world [] (fun i => match i with
                              | 2 => FloodWaitError 7200
                              | 4 => OtherError "CHANNELS_TOO_MUCH"
                              | _ => Joined
                              end) in
  let links := ["https://t.me/a"; "https://t.me/b"; "https://t.me/c";
                "https://t.me/d"; "https://t.me/e"] in
  dialogs_of e = Some [] ∧ links ≠ []
  ∧ join_count (join_chats e links None 9 1).2
    = success (results (join_chats e links None 9 1).2)
  ∧ (10 <= current_delay (join_chats e links None 9 1).2
     ∧ current_delay (join_chats e links None 9 1).2 <= 600)%Q.
Proof.
  cbv zeta.
  assert (["https://t.me/a"; "https://t.me/b"; "https://t.me/c";
           "https://t.me/d"; "https://t.me/e"] ≠ []) as Hne by discriminate.
  split; [reflexivity|]. split; [exact Hne|].
  destruct (pacing_stays_in_bounds
              (world [] (fun i => match i with
                                  | 2 => FloodWaitError 7200
                                  | 4 => OtherError "CHANNELS_TOO_MUCH"
                                  | _ => Joined
                                  end))
              ["https://t.me/a"; "https://t.me/b"; "https://t.me/c";
               "https://t.me/d"; "https://t.me/e"] None 9%nat 1%Q) as (_ & Hloop).
  exact (Hloop [] eq_refl Hne).
Defined.

End RunFacts.

(* ===================================================================== *)
(** * Properties of [start_client], [disconnect] and the session files *)
(* ===================================================================== *)

Module AccountFacts.

Import Text Py Locks Account.
Local Open Scope string_scope.

(** *** Definitions used in the statements *)

(** The session of the account is in [self.locks]. *)
Definition holds_lock (w : world) : Prop :=
  is_Some (locks (session_manager w) !! session_name (phone (self w))).

(** An operating system without faults, a terminal, and a Telegram side
    that asks for the two-factor password and accepts the second one. *)
Definition calm : os := OS false 5 false false false.
Definition two_factor : telegram :=
  Telegram None None (Ok false) (Ok "hash") SessionPasswordNeededError
           (fun k => match k with 0 => Some "PasswordHashInvalid" | _ => None end)
           None.
Definition fresh (lines : list string) : world :=
  World (Account "+79990001122" false None) (Manager "sessions" ∅ ∅ ∅ ∅ ∅) lines.

(** *** The lock table across [acquire_lock] and [release] *)

Lemma acquire_lock_cases o name m :
  ((acquire_lock o name m).1 = Value (Some true)
   ∧ is_Some (locks (acquire_lock o name m).2 !! name))
  ∨ ((acquire_lock o name m).1 = Value (Some false)
     ∧ locks (acquire_lock o name m).2 = locks m).
Proof.
  unfold acquire_lock, acquire_lock_try.
  destruct (open_fails o); [by right|]. simpl.
  destruct (flock_fails o || bool_decide (lock_path m name ∈ flocked m));
    [by right|].
  left. split; [done|]. simpl. rewrite lookup_insert_eq. by eexists.
Qed.

Lemma release_drops o w :
  locks (session_manager (release o w)) !! session_name (phone (self w)) = None.
Proof.
  unfold release. simpl. rewrite LocksFacts.release_lock_state.
  apply LocksFacts.release_lock_try_drops.
Qed.

Lemma release_self o w : self (release o w) = self w.
Proof. done. Qed.

Lemma password_loop_total t k lines :
  ∃ how rest, password_loop t k lines = (how, rest).
Proof. destruct (password_loop t k lines) as [how rest]. by exists how, rest. Qed.

(** What the [try] block leaves behind, path by path. *)
Lemma start_client_try_lock t oa orl w :
  locks (session_manager w) !! session_name (phone (self w)) = None →
  let '(c, w') := start_client_try t oa orl w in
  phone (self w') = phone (self w)
  ∧ match c with
    | Return true => holds_lock w' ∧ client (self w') = true
    | Return false => ¬ holds_lock w'
    | Raise _ => True
    | Normal => False
    end.
Proof.
  intros Hfree. unfold start_client_try, holds_lock.
  destruct (acquire_lock oa (session_name (phone (self w))) (session_manager w))
    as [locked m] eqn:Hacq.
  pose proof (acquire_lock_cases oa (session_name (phone (self w)))
                (session_manager w)) as Hcases.
  rewrite Hacq in Hcases. simpl in Hcases.
  destruct Hcases as [[-> Hheld]|[-> Hsame]]; simpl.
  2:{ split; [done|]. rewrite Hsame, Hfree. by intros [? ?]. }
  destruct (new_client t); [done|].
  destruct (connect t); [done|].
  destruct (is_user_authorized t) as [[]|]; [done| |done].
  destruct (send_code_request t) as [hash|]; [|done].
  simpl. destruct (stdin w) as [|code rest]; [done|]. simpl.
  destruct (sign_in_code t); [done| |done].
  destruct (password_loop t 0 rest) as [[| |exn] rest'] eqn:Hloop; simpl; try done.
  split; [done|].
  rewrite LocksFacts.release_lock_state, LocksFacts.release_lock_try_drops.
  by intros [? ?].
Qed.

(** *** [start_client] *)

(** Starting from a session this manager does not hold: when
    [start_client] returns [True] the session is locked and the client
    exists; on every other way out (it returned [False], or the
    [disconnect] of its handler raised) the session is not locked. *)
Theorem start_client_keeps_lock_only_on_success t o_acquire o_release w :
  ¬ holds_lock w →
  let out := start_client t o_acquire o_release w in
  (out.1 = Value (Some true) → holds_lock out.2 ∧ client (self out.2) = true)
  ∧ (out.1 ≠ Value (Some true) → ¬ holds_lock out.2).
Proof.
  intros Hfree.
  assert (locks (session_manager w) !! session_name (phone (self w)) = None) as Hnone.
  { unfold holds_lock in Hfree. by destruct (locks _ !! _); [destruct Hfree; eauto|]. }
  pose proof (start_client_try_lock t o_acquire o_release w Hnone) as Htry.
  cbv zeta. unfold start_client.
  destruct (start_client_try t o_acquire o_release w) as [[|[]|exn] w'];
    destruct Htry as [Hphone Htry]; simpl.
  - done.
  - split; [by intros _|]. by intros [].
  - split; [done|]. by intros _.
  - assert (¬ holds_lock (release o_release w')) as Hreleased.
    { unfold holds_lock. rewrite release_self, (release_drops o_release w').
      by intros [? ?]. }
    destruct (client (self w')); [destruct (client_disconnect t)|]; by simpl.
Qed.

Lemma start_client_keeps_lock_only_on_success_witness :
  ¬ holds_lock (fresh ["12345"; "wrong"; "Y"; "right"])
  ∧ (start_client two_factor calm calm (fresh ["12345"; "wrong"; "Y"; "right"])).1
    = Value (Some true)
  ∧ holds_lock (start_client two_factor calm calm
                  (fresh ["12345"; "wrong"; "Y"; "right"])).2
  ∧ (start_client two_factor calm calm (fresh ["12345"; "wrong"; "n"])).1
    = Value (Some false)
  ∧ ¬ holds_lock (start_client two_factor calm calm
                    (fresh ["12345"; "wrong"; "n"])).2.
Proof.
  assert (∀ lines, ¬ holds_lock (fresh lines)) as Hfree.
  { intros lines [x Hx]. vm_compute in Hx. discriminate. }
  assert ((start_client two_factor calm calm (fresh ["12345"; "wrong"; "Y"; "right"])).1
          = Value (Some true)) as Hyes by reflexivity.
  assert ((start_client two_factor calm calm (fresh ["12345"; "wrong"; "n"])).1
          = Value (Some false)) as Hno by reflexivity.
  split; [apply Hfree|]. split; [exact Hyes|]. split.
  - apply (start_client_keeps_lock_only_on_success two_factor calm calm
             (fresh ["12345"; "wrong"; "Y"; "right"]) (Hfree _)). exact Hyes.
  - split; [exact Hno|].
    apply (start_client_keeps_lock_only_on_success two_factor calm calm
             (fresh ["12345"; "wrong"; "n"]) (Hfree _)).
    rewrite Hno. discriminate.
Defined.

(** A busy session stops [start_client] at once: it returns [False]
    without creating a client and without reading the terminal. *)
Theorem start_client_busy t o_acquire o_release w :
  lock_path (session_manager w) (session_name (phone (self w)))
    ∈ flocked (session_manager w) →
  let out := start_client t o_acquire o_release w in
  out.1 = Value (Some false)
  ∧ self out.2 = self w
  ∧ stdin out.2 = stdin w
  ∧ locks (session_manager out.2) = locks (session_manager w).
Proof.
  intros Hbusy. cbv zeta. unfold start_client, start_client_try.
  unfold acquire_lock, acquire_lock_try.
  destruct (open_fails o_acquire); [done|]. simpl.
  rewrite bool_decide_eq_true_2 by done. by rewrite orb_true_r.
Qed.

Lemma start_client_busy_witness :
  let w := (start_client two_factor calm calm (fresh ["12345"; "wrong"; "Y"; "right"])).2 in
  lock_path (session_manager w) (session_name (phone (self w)))
    ∈ flocked (session_manager w)
  ∧ (start_client two_factor calm calm w).1 = Value (Some false)
  ∧ stdin (start_client two_factor calm calm w).2 = stdin w.
Proof.
  cbv zeta.
  assert (lock_path
            (session_manager
               (start_client two_factor calm calm
                  (fresh ["12345"; "wrong"; "Y"; "right"])).2)
            (session_name
               (phone (self (start_client two_factor calm calm
                               (fresh ["12345"; "wrong"; "Y"; "right"])).2)))
          ∈ flocked (session_manager
                       (start_client two_factor calm calm
                          (fresh ["12345"; "wrong"; "Y"; "right"])).2)) as Hbusy.
  { vm_compute. set_solver. }
  split; [exact Hbusy|].
  destruct (start_client_busy two_factor calm calm _ Hbusy) as (Hret & _ & Hin & _).
  split; [exact Hret|exact Hin].
Defined.

(** *** [disconnect] *)

(** [disconnect] does nothing at all without a client, and nothing when
    [client.disconnect()] raises: the lock stays where it was.  Otherwise
    it forgets the client and the code hash and the session leaves the
    lock table. *)
Theorem disconnect_releases_after_client t o w :
  (client (self w) = false → disconnect t o w = w)
  ∧ (is_Some (client_disconnect t) → disconnect t o w = w)
  ∧ (client (self w) = true → client_disconnect t = None →
     client (self (disconnect t o w)) = false
     ∧ phone_code_hash (self (disconnect t o w)) = None
     ∧ ¬ holds_lock (disconnect t o w)).
Proof.
  unfold disconnect. split_and!.
  - by intros ->.
  - intros [exn ->]. by destruct (client (self w)).
  - intros -> ->. split_and!; try done.
    unfold holds_lock.
    match goal with |- ¬ is_Some (locks (session_manager (release o ?w0)) !! _) =>
      pose proof (release_drops o w0) as Hdrop end.
    simpl in *. rewrite Hdrop. by intros [? ?].
Qed.

Lemma disconnect_releases_after_client_witness :
  let w := (start_client two_factor calm calm (fresh ["12345"; "wrong"; "Y"; "right"])).2 in
  client (self w) = true ∧ client_disconnect two_factor = None
  ∧ holds_lock w
  ∧ ¬ holds_lock (disconnect two_factor calm w).
Proof.
  cbv zeta.
  assert (client (self (start_client two_factor calm calm
                          (fresh ["12345"; "wrong"; "Y"; "right"])).2) = true)
    as Hclient by reflexivity.
  split; [exact Hclient|]. split; [reflexivity|]. split.
  - vm_compute. by eexists.
  - destruct (disconnect_releases_after_client two_factor calm
                (start_client two_factor calm calm
                   (fresh ["12345"; "wrong"; "Y"; "right"])).2) as (_ & _ & Hdone).
    by destruct (Hdone Hclient eq_refl) as (_ & _ & Hfree).
Defined.

(** *** Session files *)

Lemma length_append x y :
  String.length (x +:+ y) = (String.length x + String.length y)%nat.
Proof. induction x as [|a x IH]; simpl; [done|]. by rewrite IH. Qed.

Lemma endswith_cons suffix a s :
  endswith suffix (String a s)
  = String.eqb (String a s) suffix || endswith suffix s.
Proof. done. Qed.

Lemma endswith_append suffix x : endswith suffix (x +:+ suffix) = true.
Proof.
  induction x as [|a x IH].
  - change ("" +:+ suffix) with suffix.
    destruct suffix; [done|]. by rewrite endswith_cons, String.eqb_refl.
  - change (String a x +:+ suffix) with (String a (x +:+ suffix)).
    by rewrite endswith_cons, IH, orb_true_r.
Qed.

Lemma endswith_other x : endswith ".lock" (x +:+ ".session") = false.
Proof.
  induction x as [|a x IH]; [done|].
  change (String a x +:+ ".session") with (String a (x +:+ ".session")).
  rewrite endswith_cons, IH, orb_false_r.
  apply String.eqb_neq. intros Heq.
  apply (f_equal String.length) in Heq. simpl in Heq.
  rewrite length_append in Heq. simpl in Heq. lia.
Qed.

Lemma contains_char_cons c a p :
  contains (String c "") (String a p)
  = Ascii.eqb c a || contains (String c "") p.
Proof.
  change (contains (String c "") (String a p))
    with (startswith (String c "") (String a p) || contains (String c "") p).
  f_equal. unfold startswith. cbn [strip_prefix]. by destruct (Ascii.eqb c a).
Qed.

(** The first field of a split is what stands before the separator. *)
Lemma split_first c p rest :
  contains (String c "") p = false →
  hd "" (split c (p +:+ String c rest)) = p ∧ hd "" (split c p) = p.
Proof.
  induction p as [|a p IH]; intros Hc.
  - simpl. by rewrite Ascii.eqb_refl.
  - rewrite contains_char_cons, Ascii.eqb_sym in Hc.
    destruct (Ascii.eqb a c) eqn:Hac; [done|]. simpl in Hc.
    destruct (IH Hc) as [IH1 IH2].
    change (String a p +:+ String c rest) with (String a (p +:+ String c rest)).
    cbn [split]. rewrite Hac.
    split.
    + destruct (split c (p +:+ String c rest)); simpl in *; by subst.
    + destruct (split c p); simpl in *; by subst.
Qed.

(** The phone number of an account is read back from the name of its
    session file, with or without an extension, as long as the number holds
    neither a dot nor an underscore; the files [acquire_lock] creates are
    never taken for session files. *)
Theorem session_file_round_trip phone extension :
  contains "." phone = false →
  contains "_" phone = false →
  phone_of_session_file (session_name phone +:+ "." +:+ extension) = phone
  ∧ phone_of_session_file (session_name phone) = phone
  ∧ is_session_file (session_name phone +:+ ".session") = true
  ∧ is_session_file (session_name phone +:+ ".lock") = false.
Proof.
  intros Hdot Hunder.
  assert (slice_from 5 (session_name phone +:+ "." +:+ extension)
          = phone +:+ String "." extension) as Hcut by reflexivity.
  assert (slice_from 5 (session_name phone) = phone) as Hcut' by reflexivity.
  assert (∀ rest, startswith "user_" (session_name phone +:+ rest) = true)
    as Hstart by reflexivity.
  destruct (split_first "." phone extension Hdot) as [Hstem Hstem'].
  destruct (split_first "_" phone "" Hunder) as [_ Hfirst].
  unfold phone_of_session_file, is_session_file.
  rewrite Hcut, Hcut', Hstem, Hstem', Hfirst, !Hstart.
  by rewrite endswith_other, endswith_append.
Qed.

Lemma session_file_round_trip_witness :
  contains "." "+79990001122" = false
  ∧ contains "_" "+79990001122" = false
  ∧ phone_of_session_file (session_name "+79990001122" +:+ "." +:+ "session")
    = "+79990001122"
  ∧ is_session_file (session_name "+79990001122" +:+ ".lock") = false.
Proof.
  assert (contains "." "+79990001122" = false) as Hdot by reflexivity.
  assert (contains "_" "+79990001122" = false) as Hunder by reflexivity.
  split; [exact Hdot|]. split; [exact Hunder|].
  destruct (session_file_round_trip "+79990001122" "session" Hdot Hunder)
    as (Hphone & _ & _ & Hlock).
  split; [exact Hphone|exact Hlock].
Defined.

End AccountFacts.

(* ===================================================================== *)
(** * Properties of [process_file] *)
(* ===================================================================== *)

Module FilesFacts.

Import Text Py Links Files.
Local Open Scope string_scope.
Local Open Scope list_scope.

(** *** Definitions used in the statements *)

(** The link starts with [http://] or [https://]. *)
Definition has_scheme (link : string) : Prop :=
  startswith "http://" link = true ∨ startswith "https://" link = true.


(** A string over the class [f]. *)
Definition pure (f : ascii → bool) (s : string) : Prop := take_while f s = s.



(** *** The normalisation *)

Lemma normalize_first_occurrences links :
  normalize links = LinksFacts.first_occurrences (normalize_link <$> links).
Proof.
  unfold normalize.
  assert (∀ a, foldl (fun a link => remember (normalize_link link) a) a links
               = foldl (fun a l => remember l a) a (normalize_link <$> links))
    as ->.
  { induction links as [|l links IH]; intros a; simpl; [done|]. by rewrite IH. }
  rewrite (LinksFacts.foldl_remember _ [] ∅) by set_solver. simpl.
  apply LinksFacts.filter_all. intros y _. set_solver.
Qed.

Lemma first_occurrences_fixed l :
  NoDup l → LinksFacts.first_occurrences l = l.
Proof.
  induction 1 as [|x l Hx _ IH]; simpl; [done|].
  rewrite IH. f_equal. apply LinksFacts.filter_all. intros y Hy ->. done.
Qed.

Lemma normalize_link_has_scheme link : has_scheme (normalize_link link).
Proof.
  unfold normalize_link, has_scheme.
  destruct (startswith "@" link);
    match goal with
    | |- context [startswith "http://" ?l || _] =>
        destruct (startswith "http://" l) eqn:H1;
        [by left|destruct (startswith "https://" l) eqn:H2]
    end; simpl; by right.
Qed.

Lemma has_scheme_head link :
  has_scheme link → ∃ rest, link = String "h" rest.
Proof.
  intros [H|H]; destruct link as [|a rest]; try done;
    unfold startswith in H; cbn [strip_prefix] in H;
    destruct (Ascii.eqb "h" a) eqn:Ha; try done;
    apply Ascii.eqb_eq in Ha as <-; by eexists.
Qed.

Lemma normalize_link_fixed link : has_scheme link → normalize_link link = link.
Proof.
  intros Hs. destruct (has_scheme_head _ Hs) as [rest ->].
  unfold normalize_link.
  replace (startswith "@" (String "h" rest)) with false by reflexivity.
  by destruct Hs as [-> | ->]; rewrite ?orb_true_r.
Qed.

Lemma normalize_spec links :
  NoDup (normalize links)
  ∧ Forall has_scheme (normalize links)
  ∧ normalize (normalize links) = normalize links.
Proof.
  assert (Forall has_scheme (normalize links)) as Hall.
  { rewrite normalize_first_occurrences. apply Forall_forall. intros x Hx.
    apply LinksFacts.first_occurrences_subset, list_elem_of_fmap in Hx
      as (l & -> & _).
    apply normalize_link_has_scheme. }
  assert (NoDup (normalize links)) as Hnd.
  { rewrite normalize_first_occurrences. apply LinksFacts.first_occurrences_NoDup. }
  split; [done|]. split; [done|].
  rewrite (normalize_first_occurrences (normalize links)).
  replace (normalize_link <$> normalize links) with (normalize links).
  - by apply first_occurrences_fixed.
  - symmetry. transitivity (id <$> normalize links); [|apply list_fmap_id].
    apply Forall_fmap_ext_1. eapply Forall_impl; [exact Hall|].
    intros x Hx. by apply normalize_link_fixed.
Qed.

(** *** The encodings *)






(** *** What the text patterns find *)

Lemma findall_from_found match_at skip s found :
  found ∈ findall_from match_at skip s → ∃ s', match_at s' = Some found.
Proof.
  revert skip. induction s as [|a s IH]; intros skip.
  - destruct skip; simpl; by intros ?%elem_of_nil.
  - destruct skip as [|k]; cbn [findall_from]; [|by apply IH].
    destruct (match_at (String a s)) as [m|] eqn:Hm; [|by apply IH].
    intros [->|Hin]%elem_of_cons; [by eexists|by eapply IH].
Qed.

Lemma findall_from_complete match_at s found :
  match_at s = Some found → truthy s = true →
  found ∈ findall_from match_at 0 s.
Proof. intros Hm Hs. destruct s; [done|]. cbn [findall_from]. rewrite Hm. left. Qed.

Lemma word_char_hash c : is_word_char c = true → is_hash_char c = true.
Proof. destruct c as [[] [] [] [] [] [] [] []]; by vm_compute. Qed.

Lemma letter_word c : is_letter c = true → is_word_char c = true.
Proof. unfold is_word_char. by intros ->. Qed.

Lemma take_while_pure f s : pure f (take_while f s).
Proof.
  unfold pure. induction s as [|a s IH]; [done|]. simpl.
  destruct (f a) eqn:Hf; [|done]. simpl. by rewrite Hf, IH.
Qed.

Lemma pure_weaken (f g : ascii → bool) s :
  (∀ c, f c = true → g c = true) → pure f s → pure g s.
Proof.
  unfold pure. intros Hfg. induction s as [|a s IH]; [done|]. simpl.
  destruct (f a) eqn:Hf; [|done]. intros [= Hs].
  rewrite (Hfg _ Hf). f_equal. by apply IH.
Qed.

Lemma pure_cons f a s : f a = true → pure f s → pure f (String a s).
Proof. unfold pure. simpl. by intros -> ->. Qed.

Lemma pure_inv f a s : pure f (String a s) → f a = true ∧ pure f s.
Proof. unfold pure. simpl. destruct (f a); [|done]. by intros [= ->]. Qed.

Lemma rstrip_space s w : isspace w = true → rstrip (s +:+ String w "") = rstrip s.
Proof.
  intros Hw. induction s as [|a s IH].
  - simpl. by rewrite Hw.
  - change (String a s +:+ String w "") with (String a (s +:+ String w "")).
    cbn [rstrip]. by rewrite IH.
Qed.

(** What a match of the user-name pattern looks like. *)
Lemma username_at_shape s found :
  username_at s = Some found →
  ∃ c run, is_letter c = true ∧ pure is_word_char run
    ∧ (3 ≤ String.length run)%nat
    ∧ (found = String "@" (String c run)
       ∨ ∃ w, isspace w = true
              ∧ found = String "@" (String c (run +:+ String w ""))).
Proof.
  unfold username_at. destruct s as [|a s]; [done|].
  destruct (Ascii.eqb a "@") eqn:Ha.
  2:{ destruct a as [[] [] [] [] [] [] [] []]; done. }
  apply Ascii.eqb_eq in Ha as ->.
  destruct s as [|c rest]; [done|].
  destruct (is_letter c) eqn:Hc; [|done].
  destruct (3 <=? String.length (take_while is_word_char rest))%nat eqn:Hlen;
    [|done].
  apply Nat.leb_le in Hlen.
  destruct (Account.slice_from _ rest) as [|w after].
  - intros [= <-]. exists c, (take_while is_word_char rest).
    split_and!; [done|apply take_while_pure|done|by left].
  - destruct (isspace w) eqn:Hw; [|done]. intros [= <-].
    exists c, (take_while is_word_char rest).
    split_and!; [done|apply take_while_pure|done|right; by exists w].
Qed.

(** *** Strings over [[a-zA-Z0-9_-]] inside a link *)

Lemma append_cons a p s : String a p +:+ s = String a (p +:+ s).
Proof. done. Qed.

Lemma append_nil s : "" +:+ s = s.
Proof. done. Qed.

(** Spell out the characters of a literal prefix. *)
Ltac spell := rewrite ?append_cons, ?append_nil.

Lemma take_while_app f p r : pure f (p +:+ r) → pure f p.
Proof.
  unfold pure. induction p as [|a p IH]; [done|].
  change (String a p +:+ r) with (String a (p +:+ r)). simpl.
  destruct (f a); [|done]. intros [= H]. by rewrite IH.
Qed.

Lemma strip_prefix_app p s r : strip_prefix p s = Some r → s = p +:+ r.
Proof.
  revert s. induction p as [|a p IH]; intros s; simpl.
  - by intros [= ->].
  - destruct s as [|b s]; [done|].
    destruct (Ascii.eqb a b) eqn:Hab; [|done].
    apply Ascii.eqb_eq in Hab as ->. intros H.
    change (String b p +:+ r) with (String b (p +:+ r)). f_equal. by apply IH.
Qed.

(** A prefix that holds a character outside the class is not a prefix of
    a string over the class. *)
Lemma strip_prefix_pure f p s :
  pure f s → ¬ pure f p → strip_prefix p s = None.
Proof.
  intros Hs Hp. destruct (strip_prefix p s) as [r|] eqn:Hr; [|done].
  apply strip_prefix_app in Hr as ->. by apply take_while_app in Hs.
Qed.

Lemma startswith_pure f p s : pure f s → ¬ pure f p → startswith p s = false.
Proof. intros Hs Hp. unfold startswith. by rewrite (strip_prefix_pure f). Qed.

Lemma contains_cons needle a s :
  contains needle (String a s) = startswith needle (String a s) || contains needle s.
Proof. done. Qed.

Lemma contains_pure f needle s :
  pure f s → ¬ pure f needle → contains needle s = false.
Proof.
  intros Hs Hn. induction s as [|a s IH].
  - simpl. by apply (startswith_pure f).
  - rewrite contains_cons, (startswith_pure f) by done.
    apply pure_inv in Hs as [_ Hs]. by apply IH.
Qed.

Lemma match_invite_at_pure s : pure is_hash_char s → match_invite_at s = None.
Proof.
  intros Hs. unfold match_invite_at, scheme, match_host_marker.
  by rewrite !(strip_prefix_pure is_hash_char) by done.
Qed.

Lemma search_invite_pure s : pure is_hash_char s → search_invite s = None.
Proof.
  intros Hs. induction s as [|a s IH]; [done|].
  cbn [search_invite]. rewrite match_invite_at_pure by done.
  apply pure_inv in Hs as [_ Hs]. by apply IH.
Qed.

Lemma search_invite_cons a s :
  match_invite_at (String a s) = None →
  search_invite (String a s) = search_invite s.
Proof. intros H. cbn [search_invite]. by rewrite H. Qed.

Lemma match_host_marker_public s :
  pure is_hash_char s → match_host_marker ("t.me/" +:+ s) = None.
Proof.
  intros Hs. unfold match_host_marker.
  replace (strip_prefix "t.me/" _) with (Some s) by reflexivity.
  cbn [or_else]. by rewrite !(strip_prefix_pure is_hash_char) by done.
Qed.

Lemma search_invite_host s :
  pure is_hash_char s → search_invite ("t.me/" +:+ s) = None.
Proof.
  intros Hs.
  assert (match_invite_at ("t.me/" +:+ s) = None) as H0.
  { unfold match_invite_at.
    replace (scheme _) with (@None string) by reflexivity.
    by apply match_host_marker_public. }
  revert H0. spell. intros H0.
  rewrite search_invite_cons by exact H0.
  do 4 (rewrite search_invite_cons by reflexivity).
  by apply search_invite_pure.
Qed.

Lemma search_invite_public s :
  pure is_hash_char s → search_invite ("https://t.me/" +:+ s) = None.
Proof.
  intros Hs.
  assert (match_invite_at ("https://t.me/" +:+ s) = None) as H0.
  { unfold match_invite_at.
    replace (scheme _) with (Some ("t.me/" +:+ s)) by reflexivity.
    by rewrite match_host_marker_public. }
  pose proof (search_invite_host s Hs) as H8.
  revert H0 H8. spell. intros H0 H8.
  rewrite search_invite_cons by exact H0.
  do 7 (rewrite search_invite_cons by reflexivity).
  exact H8.
Qed.

Lemma search_invite_doubled s :
  pure is_hash_char s → search_invite ("https://t.me/t.me/" +:+ s) = None.
Proof.
  intros Hs. pose proof (search_invite_host s Hs) as H13.
  revert H13. spell. intros H13.
  do 13 (rewrite search_invite_cons by reflexivity).
  exact H13.
Qed.

Lemma split_pure s : pure is_hash_char s → split "/" s = [s].
Proof.
  induction s as [|a s IH]; [done|]. intros [Ha Hs]%pure_inv.
  cbn [split]. rewrite (IH Hs).
  replace (Ascii.eqb a "/") with false; [done|].
  destruct a as [[] [] [] [] [] [] [] []]; done.
Qed.

(** How a public link [https://t.me/<name>] fares: [extract_chat_links]
    keeps it as it is and [join_chats] asks to join [<name>]. *)
Lemma public_link_joined name :
  truthy name = true → pure is_hash_char name →
  line_link ("https://t.me/" +:+ name) = Some ("https://t.me/" +:+ name)
  ∧ Join.request_of ("https://t.me/" +:+ name) = Join.JoinChannel name.
Proof.
  intros Hne Hname. split.
  - assert (strip ("https://t.me/" +:+ name) = "https://t.me/" +:+ name) as Hstrip.
    { unfold strip. cbn [String.append lstrip]. cbn.
      repeat (apply LinksFacts.rstrip_cons; [done|]).
      by apply LinksFacts.rstrip_hash. }
    assert (invite_hash_of ("https://t.me/" +:+ name) = None) as Hinvite.
    { unfold invite_hash_of. rewrite search_invite_public by done.
      by destruct (_ || _). }
    unfold line_link. rewrite Hstrip, Hinvite.
    replace (truthy ("https://t.me/" +:+ name)) with true by reflexivity.
    cbn [negb].
    replace (username_of ("https://t.me/" +:+ name)) with name by reflexivity.
    by rewrite Hne.
  - unfold Join.request_of, is_invite_link.
    assert (contains "/joinchat/" ("https://t.me/" +:+ name) = false) as ->.
    { spell.
      do 12 (rewrite contains_cons;
             replace (startswith "/joinchat/" _) with false by reflexivity;
             cbn [orb]).
      rewrite contains_cons.
      replace (startswith "/joinchat/" (String "/" name))
        with (startswith "joinchat/" name) by reflexivity.
      rewrite (startswith_pure is_hash_char) by done.
      by apply (contains_pure is_hash_char). }
    assert (contains "+" ("https://t.me/" +:+ name) = false) as ->.
    { spell.
      do 13 (rewrite contains_cons;
             replace (startswith "+" _) with false by reflexivity;
             cbn [orb]).
      by apply (contains_pure is_hash_char). }
    cbn [orb]. f_equal. unfold last_segment. spell.
    pose proof (split_pure name Hname) as Hsplit.
    simpl. by rewrite Hsplit.
Qed.

(** The same for a link that names the host twice. *)
Lemma doubled_link_joined name :
  truthy name = true → pure is_hash_char name →
  line_link ("https://t.me/t.me/" +:+ name) = Some ("https://t.me/t.me/" +:+ name)
  ∧ Join.request_of ("https://t.me/t.me/" +:+ name) = Join.JoinChannel name.
Proof.
  intros Hne Hname. split.
  - assert (strip ("https://t.me/t.me/" +:+ name) = "https://t.me/t.me/" +:+ name)
      as Hstrip.
    { unfold strip. spell. cbn [lstrip]. cbn.
      repeat (apply LinksFacts.rstrip_cons; [done|]).
      by apply LinksFacts.rstrip_hash. }
    assert (invite_hash_of ("https://t.me/t.me/" +:+ name) = None) as Hinvite.
    { unfold invite_hash_of. rewrite search_invite_doubled by done.
      by destruct (_ || _). }
    unfold line_link. rewrite Hstrip, Hinvite.
    replace (truthy ("https://t.me/t.me/" +:+ name)) with true by reflexivity.
    cbn [negb].
    replace (username_of ("https://t.me/t.me/" +:+ name))
      with ("t.me/" +:+ name) by reflexivity.
    by replace (truthy ("t.me/" +:+ name)) with true by reflexivity.
  - unfold Join.request_of, is_invite_link.
    assert (contains "/joinchat/" ("https://t.me/t.me/" +:+ name) = false) as ->.
    { spell.
      do 17 (rewrite contains_cons;
             replace (startswith "/joinchat/" _) with false by reflexivity;
             cbn [orb]).
      rewrite contains_cons.
      replace (startswith "/joinchat/" (String "/" name))
        with (startswith "joinchat/" name) by reflexivity.
      rewrite (startswith_pure is_hash_char) by done.
      by apply (contains_pure is_hash_char). }
    assert (contains "+" ("https://t.me/t.me/" +:+ name) = false) as ->.
    { spell.
      do 18 (rewrite contains_cons;
             replace (startswith "+" _) with false by reflexivity;
             cbn [orb]).
      by apply (contains_pure is_hash_char). }
    cbn [orb]. f_equal. unfold last_segment. spell.
    pose proof (split_pure name Hname) as Hsplit.
    simpl. by rewrite Hsplit.
Qed.

Lemma hash_char_link c : is_hash_char c = true → is_link_char c = true.
Proof. destruct c as [[] [] [] [] [] [] [] []]; by vm_compute. Qed.

(** *** Theorems *)

(** Whatever the file holds and whatever the readers do, the links
    [process_file] returns are pairwise different, each starts with
    [http://] or [https://], and normalising them again changes
    nothing. *)
Theorem process_file_links_are_normal r file :
  NoDup (process_file r file)
  ∧ Forall has_scheme (process_file r file)
  ∧ normalize (process_file r file) = process_file r file.
Proof. unfold process_file. apply normalize_spec. Qed.



(** A user name found in a text file ends as a request to join it: the
    match, stripped, is [@<name>]; the normalisation turns it into
    [https://t.me/<name>], which [extract_chat_links] keeps as it is and for
    which [join_chats] sends [JoinChannelRequest(<name>)]. *)
Theorem file_usernames_are_joined content found :
  found ∈ findall username_at content →
  ∃ name,
    strip found = String "@" name
    ∧ normalize_link (strip found) = "https://t.me/" +:+ name
    ∧ line_link ("https://t.me/" +:+ name) = Some ("https://t.me/" +:+ name)
    ∧ Join.request_of ("https://t.me/" +:+ name) = Join.JoinChannel name.
Proof.
  intros (s & Hs)%findall_from_found.
  apply username_at_shape in Hs as (c & run & Hc & Hrun & Hlen & Hfound).
  set (name := String c run).
  assert (pure is_word_char name) as Hword.
  { apply pure_cons; [by apply letter_word|done]. }
  assert (pure is_hash_char name) as Hname.
  { revert Hword. apply pure_weaken, word_char_hash. }
  assert (strip found = String "@" name) as Hstrip.
  { assert (rstrip (String "@" name) = String "@" name) as Hr.
    { apply LinksFacts.rstrip_cons; [done|].
      by apply LinksFacts.rstrip_hash. }
    destruct Hfound as [->|(w & Hw & ->)]; unfold strip; cbn [lstrip];
      replace (isspace "@") with false by reflexivity; [exact Hr|].
    change (String "@" (String c (run +:+ String w "")))
      with (String "@" name +:+ String w "").
    by rewrite rstrip_space. }
  exists name. split; [done|]. rewrite Hstrip. split.
  - unfold normalize_link.
    replace (startswith "@" (String "@" name)) with true by reflexivity.
    by rewrite !(startswith_pure is_hash_char) by done.
  - by apply public_link_joined.
Qed.

Lemma file_usernames_are_joined_witness :
  "@durov_news "
    ∈ findall username_at "write to @durov_news or to t.me/durov"
  ∧ ∃ name,
      strip "@durov_news " = String "@" name
      ∧ Join.request_of ("https://t.me/" +:+ name) = Join.JoinChannel name.
Proof.
  assert ("@durov_news "
            ∈ findall username_at "write to @durov_news or to t.me/durov")
    as Hfound.
  { replace (findall username_at "write to @durov_news or to t.me/durov")
      with ["@durov_news "] by reflexivity.
    left. }
  split; [exact Hfound|].
  destruct (file_usernames_are_joined _ _ Hfound) as (name & Hn & _ & _ & Hr).
  exists name. split; [exact Hn|exact Hr].
Defined.

(** A link written without a scheme, [t.me/<name>], one of the formats the
    bot asks for: both passes over the file take it, and the normalisation
    puts [https://t.me/] in front of it, host included.  The doubled
    address is kept by [extract_chat_links] beside the plain
    [https://t.me/<name>], as a different link, and [join_chats] sends the
    same request for both. *)
Theorem schemeless_link_gets_doubled_host name :
  truthy name = true →
  pure is_hash_char name →
  tg_link_at ("t.me/" +:+ name) = Some ("t.me/" +:+ name)
  ∧ looks_like_link ("t.me/" +:+ name) = true
  ∧ normalize_link ("t.me/" +:+ name) = "https://t.me/t.me/" +:+ name
  ∧ line_link ("https://t.me/t.me/" +:+ name)
    = Some ("https://t.me/t.me/" +:+ name)
  ∧ line_link ("https://t.me/" +:+ name) = Some ("https://t.me/" +:+ name)
  ∧ "https://t.me/t.me/" +:+ name ≠ "https://t.me/" +:+ name
  ∧ Join.request_of ("https://t.me/t.me/" +:+ name) = Join.JoinChannel name
  ∧ Join.request_of ("https://t.me/" +:+ name) = Join.JoinChannel name.
Proof.
  intros Hne Hname.
  destruct (doubled_link_joined name Hne Hname) as [Hline2 Hreq2].
  destruct (public_link_joined name Hne Hname) as [Hline1 Hreq1].
  split_and!; try done.
  - unfold tg_link_at, host_path_at.
    replace (strip_prefix "https://" ("t.me/" +:+ name)) with (@None string)
      by reflexivity.
    replace (strip_prefix "http://" ("t.me/" +:+ name)) with (@None string)
      by reflexivity.
    replace (strip_prefix "t.me" ("t.me/" +:+ name)) with (Some (String "/" name))
      by reflexivity.
    cbn [or_else].
    assert (take_while is_link_char name = name) as ->.
    { revert Hname. apply pure_weaken, hash_char_link. }
    by rewrite Hne.
  - intros Heq. apply (f_equal String.length) in Heq.
    rewrite !AccountFacts.length_append in Heq. simpl in Heq. lia.
Qed.

Lemma schemeless_link_gets_doubled_host_witness :
  normalize_link "t.me/durov" = "https://t.me/t.me/durov"
  ∧ Join.request_of "https://t.me/t.me/durov" = Join.JoinChannel "durov".
Proof.
  destruct (schemeless_link_gets_doubled_host "durov" eq_refl eq_refl)
    as (_ & _ & Hn & _ & _ & _ & Hr & _).
  split; [exact Hn|exact Hr].
Defined.

End FilesFacts.

(* ===================================================================== *)
(** * Properties of [get_account_info] and of [phone_handler] *)
(* ===================================================================== *)

Module InfoFacts.

Import Text Py Info.
Local Open Scope string_scope.
Local Open Scope list_scope.
Local Open Scope Z_scope.

(** *** Definitions used in the statements *)

(** The messages [phone_handler] is able to send. *)
Definition sendable : list message :=
  [Respond check_terminal; Edit authorization_failed; Respond try_later].

(** The user has just been asked for a phone number. *)
Definition waiting_phone (sender : Z) (b : bot) : Prop :=
  ∃ st, user_states b !! sender = Some st ∧ step st = Some "waiting_phone".


(** An account already authorized, with one channel and one group, and a
    bot that has asked user 7 for a phone number. *)
Definition authorized : Account.telegram :=
  Account.Telegram None None (Ok true) (Fails "unused") Account.SignedIn
                   (fun _ => None) None.

Definition two_dialogs : telegram :=
  Telegram true None (Ok true) (Ok (User (Some "Ann") None false)) None
           (Ok [Dialog true false false Missing;
                Dialog false true false (Count 12)]).

Definition steady_os : Locks.os := Locks.OS false 3 false false false.

Definition smooth : env :=
  Env authorized two_dialogs steady_os steady_os (fun _ => None) (fun _ => None).

Definition asked : bot :=
  Bot {[ 7 := UserState (Some "waiting_phone") None ]} ∅
      (Locks.Manager "sessions" ∅ ∅ ∅ ∅ ∅) [] [].

(** *** The dictionary *)



(** What [get_account_info] returns, spelled out. *)
Lemma get_account_info_shape t self d :
  get_account_info t self = Some d →
  ∃ me dialogs channels large_groups small_groups private_chats,
    get_dialogs t = Ok dialogs
    ∧ count (fun d => Ok (is_channel d)) dialogs = Ok channels
    ∧ count large_group dialogs = Ok large_groups
    ∧ d = [ ("first_name", Str (or_default (first_name me) "Без имени"));
            ("username", Str (or_default (username me) "Без username"));
            ("phone", Str (Account.phone self));
            ("account_type", Str (if premium me then "Premium" else "Обычный"));
            ("channels", Int channels);
            ("large_groups", Int large_groups);
            ("small_groups", Int small_groups);
            ("private_chats", Int private_chats);
            ("total_chats", Int (Z.of_nat (length dialogs)));
            ("limited_chats", Int (channels + large_groups));
            ("limits",
             Dict [ ("max_limited_chats", if premium me then 1000 else 500);
                    ("joins_per_day", if premium me then 300 else 200) ]);
            ("available_joins",
             Int ((if premium me then 1000 else 500) - (channels + large_groups))) ].
Proof.
  unfold get_account_info.
  destruct (negb (Account.client self)); [done|].
  destruct (if is_connected t then None else connect t); [done|].
  destruct (is_user_authorized t) as [[]|]; try done.
  destruct (get_me t) as [me|]; [|done].
  destruct (get_entity t); [done|].
  destruct (get_dialogs t) as [dialogs|]; [|done].
  destruct (count (fun d => Ok (is_channel d)) dialogs) as [channels|] eqn:Hc;
    [|done].
  destruct (count large_group dialogs) as [large_groups|] eqn:Hl; [|done].
  destruct (count small_group dialogs) as [small_groups|]; [|done].
  destruct (count (fun d => Ok (is_user d)) dialogs) as [private_chats|];
    [|done].
  intros [= <-].
  by exists me, dialogs, channels, large_groups, small_groups, private_chats.
Qed.

Lemma connected_raises t self d :
  get_account_info t self = Some d → format connected d = Fails "KeyError".
Proof.
  intros (me & dialogs & c & l & s & p & _ & _ & _ & ->)%get_account_info_shape.
  reflexivity.
Qed.

(** *** The handler *)

Local Arguments format : simpl never.

(** What a run adds to the messages sent. *)
Definition adds (b b' : bot) (new : list message) : Prop :=
  sent b' = sent b ++ new.

Lemma call_respond_adds e text b :
  adds b (call_respond e text b).2
       (match (call_respond e text b).1 with Raise _ => [] | _ => [Respond text] end)
  ∧ user_states (call_respond e text b).2 = user_states b
  ∧ user_accounts (call_respond e text b).2 = user_accounts b
  ∧ session_manager (call_respond e text b).2 = session_manager b
  ∧ stdin (call_respond e text b).2 = stdin b
  ∧ ((call_respond e text b).1 = Normal ↔ respond e text = None).
Proof.
  unfold call_respond, adds. destruct (respond e text); simpl;
    rewrite ?app_nil_r; by split_and!.
Qed.

(** Name the messages a path adds. *)
Ltac adding l :=
  exists l; split; [by rewrite <- ?app_assoc, ?app_nil_r|set_solver].

Lemma phone_handler_try_adds e sender phone b :
  ∃ new, adds b (phone_handler_try e sender phone b).2 new
         ∧ new ⊆ [Respond check_terminal; Edit authorization_failed].
Proof.
  unfold phone_handler_try, call_respond, call_edit, run_start_client, adds.
  destruct (respond e check_terminal); simpl; [adding (@nil message)|].
  destruct (Account.start_client _ _ _ _) as [[[[]|]|exn] w]; simpl.
  - destruct (get_account_info _ _) as [[|kv d]|] eqn:Hinfo;
      rewrite ?(connected_raises _ _ _ Hinfo); simpl;
      adding [Respond check_terminal].
  - destruct (edit e authorization_failed); simpl;
      [adding [Respond check_terminal]
      |adding [Respond check_terminal; Edit authorization_failed]].
  - destruct (edit e authorization_failed); simpl;
      [adding [Respond check_terminal]
      |adding [Respond check_terminal; Edit authorization_failed]].
  - adding [Respond check_terminal].
Qed.

(** *** Theorems *)



(** Whatever Telegram, the terminal and the operating system do,
    [phone_handler] sends nothing but the request to look at the terminal
    and its two error messages: the message that confirms the connection
    is never sent. *)
Theorem phone_handler_never_confirms e sender phone b :
  ∃ new, sent (phone_handler e sender phone b).2 = sent b ++ new
         ∧ new ⊆ sendable.
Proof.
  unfold phone_handler, sendable.
  destruct (user_states b !! sender) as [st|]; simpl;
    [|adding (@nil message)].
  destruct (negb _); simpl; [adding (@nil message)|].
  destruct (phone_handler_try_adds e sender phone b) as (new & Hnew & Hsub).
  unfold adds in Hnew.
  destruct (phone_handler_try e sender phone b) as [[| |exn] b1]; simpl in *;
    try (exists new; split; [done|set_solver]).
  unfold call_respond. destruct (respond e try_later); simpl.
  - exists new. split; [done|set_solver].
  - exists (new ++ [Respond try_later]). rewrite Hnew, <- app_assoc.
    split; [done|set_solver].
Qed.

(** A log-in that succeeds is reported as an error: the account is
    connected, stored in [user_accounts] and keeps its session, but
    the user, whose state is dropped, is told that an error occurred. *)
Theorem successful_log_in_is_reported_as_error e sender phone b w :
  waiting_phone sender b →
  (∀ text, respond e text = None) →
  Account.start_client (log_in e) (o_acquire e) (o_release e)
    (Account.World (Account.Account phone false None)
                   (session_manager b) (stdin b))
  = (Value (Some true), w) →
  let b' := (phone_handler e sender phone b).2 in
  sent b' = sent b ++ [Respond check_terminal; Respond try_later]
  ∧ user_accounts b' !! sender = Some (Account.self w)
  ∧ user_states b' !! sender = None
  ∧ session_manager b' = Account.session_manager w.
Proof.
  intros (st & Hst & Hstep) Hrespond Hstart b'. subst b'.
  unfold phone_handler. rewrite Hst, Hstep. simpl.
  unfold phone_handler_try, call_respond, run_start_client.
  rewrite !Hrespond. simpl. rewrite Hstart. simpl.
  destruct (get_account_info _ _) as [[|kv d]|] eqn:Hinfo;
    rewrite ?(connected_raises _ _ _ Hinfo); simpl;
    rewrite ?Hrespond; simpl;
    rewrite <- ?app_assoc, ?lookup_insert_eq, ?lookup_delete_eq; done.
Qed.

Lemma successful_log_in_is_reported_as_error_witness :
  waiting_phone 7 asked
  ∧ sent (phone_handler smooth 7 "+79990001122" asked).2
    = [Respond check_terminal; Respond try_later]
  ∧ is_Some (user_accounts (phone_handler smooth 7 "+79990001122" asked).2 !! 7).
Proof.
  assert (waiting_phone 7 asked) as Hwait.
  { eexists. split; [apply lookup_singleton_eq|done]. }
  split; [exact Hwait|].
  destruct (successful_log_in_is_reported_as_error smooth 7 "+79990001122" asked
              _ Hwait (fun _ => eq_refl) eq_refl) as (Hsent & Hacc & _ & _).
  split; [exact Hsent|]. rewrite Hacc. by eexists.
Defined.

End InfoFacts.

(* ===================================================================== *)
(** * Properties of the webhook entry points *)
(* ===================================================================== *)

Module WebhookFacts.

Import Text Py Json Webhook.
Local Open Scope string_scope.
Local Open Scope list_scope.

(** *** Definitions used in the statements *)

(** [request.get('method', '') == 'POST'] *)
Definition posted (request : list (string * json)) : bool :=
  is_string "POST" (from_option id (JString "") (lookup "method" request)).

(** The same collaborators, with a [start] that succeeds. *)
Definition starting (e : env) : env :=
  Env (loads e) (new_client e) None (send_message e).

(** A [/start] message from chat 42, and collaborators whose client
    cannot start. *)
Definition start_update : json :=
  JDict [("message", JDict [("chat", JDict [("id", JNumber 42)]);
                            ("text", JString "/start")])].

Definition offline : env :=
  Env (fun _ => Ok start_update) None (Some "ConnectionError")
      (fun _ _ => None).

Definition post : list (string * json) :=
  [("method", JString "POST"); ("body", JString "{...}")].

Lemma is_string_eq s x : is_string s x = true → x = JString s.
Proof.
  destruct x; simpl; try done. by intros ->%String.eqb_eq.
Qed.

Lemma get_client_sent e s : sent (get_client e s).2 = sent s.
Proof.
  unfold get_client. destruct (client s); [done|].
  destruct (new_client e); [done|]. by destruct (start e).
Qed.

(** What [handle_webhook] sends. *)
Lemma handle_webhook_sends e data s :
  sent (handle_webhook e data s).2 = sent s
  ∨ ∃ items message chat chat_id,
      data = JDict items
      ∧ lookup "message" items = Some (JDict message)
      ∧ lookup "chat" message = Some (JDict chat)
      ∧ lookup "id" chat = Some chat_id
      ∧ lookup "text" message = Some (JString "/start")
      ∧ sent (handle_webhook e data s).2 = sent s ++ [(chat_id, greeting)]
      ∧ (handle_webhook e data s).1 = Success.
Proof.
  unfold handle_webhook, handle_webhook_try.
  pose proof (get_client_sent e s) as Hsent.
  destruct (get_client e s) as [[|[]|exn] s1]; simpl in Hsent; [| |by left].
  all: destruct (contains_key "message" data) as [[]|] eqn:Hin;
    [|by left|by left].
  all: destruct data as [| | | | |items]; simpl; try by left.
  all: destruct (lookup "message" items) as [message|] eqn:Hm; [|by left].
  all: destruct message as [| | | | |message]; simpl; try by left.
  all: destruct (lookup "chat" message) as [chat|] eqn:Hc; [|by left].
  all: destruct chat as [| | | | |chat]; simpl; try by left.
  all: destruct (lookup "id" chat) as [chat_id|] eqn:Hid; [|by left].
  all: destruct (lookup "text" message) as [text|] eqn:Ht; simpl; [|by left].
  all: destruct (is_string "/start" text) eqn:Hstart; [|by left].
  all: apply is_string_eq in Hstart as ->.
  all: destruct (send_message e chat_id greeting); simpl; [by left|].
  all: right; exists items, message, chat, chat_id; by rewrite Hsent.
Qed.

(** *** Theorems *)

(** The only message the webhook ever sends is the greeting, once, to the
    chat of a message whose text is exactly [/start]; the answer is then
    200 with status success.  In every other case nothing is sent. *)
Theorem webhook_greets_only_on_start e request s :
  sent (handle_request e request s).2 = sent s
  ∨ ∃ items message chat chat_id,
      request_data e request = Ok (JDict items)
      ∧ lookup "message" items = Some (JDict message)
      ∧ lookup "chat" message = Some (JDict chat)
      ∧ lookup "id" chat = Some chat_id
      ∧ lookup "text" message = Some (JString "/start")
      ∧ sent (handle_request e request s).2 = sent s ++ [(chat_id, greeting)]
      ∧ (handle_request e request s).1 = Response 200 Success.
Proof.
  unfold handle_request. destruct (negb _); [by left|].
  destruct (request_data e request) as [data|exn]; [|by left].
  destruct (handle_webhook_sends e data s)
    as [Hsame|(items & message & chat & chat_id & -> & Hm & Hc & Hid & Ht & Hs & Hr)].
  - left. by destruct (handle_webhook e data s).
  - right. exists items, message, chat, chat_id.
    destruct (handle_webhook e (JDict items) s) as [r s']; simpl in *.
    by subst r.
Qed.

(** A client that could not be started is kept: the request during which
    [start] raises is answered 200 with an error status, the global is set
    all the same, and every later request is handled as if the client had
    started, for [start] is never awaited again. *)
Theorem failed_start_is_kept e request data exn s :
  client s = false →
  new_client e = None →
  start e = Some exn →
  posted request = true →
  request_data e request = Ok data →
  (handle_request e request s).1 = Response 200 (Error exn)
  ∧ client (handle_request e request s).2 = true
  ∧ sent (handle_request e request s).2 = sent s
  ∧ ∀ later, handle_request e later (handle_request e request s).2
             = handle_request (starting e) later (handle_request e request s).2.
Proof.
  intros Hclient Hnew Hstart Hpost Hdata.
  assert (handle_request e request s
          = (Response 200 (Error exn), State true (sent s))) as ->.
  { unfold handle_request. fold (posted request). rewrite Hpost, Hdata. simpl.
    unfold handle_webhook, handle_webhook_try, get_client.
    by rewrite Hclient, Hnew, Hstart. }
  by split_and!.
Qed.

Lemma failed_start_is_kept_witness :
  (handle_request offline post (State false [])).1
  = Response 200 (Error "ConnectionError")
  ∧ client (handle_request offline post (State false [])).2 = true.
Proof.
  destruct (failed_start_is_kept offline post start_update "ConnectionError"
              (State false []) eq_refl eq_refl eq_refl eq_refl eq_refl)
    as (Hr & Hc & _).
  split; [exact Hr|exact Hc].
Defined.

End WebhookFacts.

Module IndexFacts.

Import Text Py Json Index.
Local Open Scope string_scope.
Local Open Scope list_scope.
Local Open Scope Z_scope.

(** [handler] of [api/index.py] never answers 200: [TelegramBot] has no
    method [handle_update], so every POST ends in the handler of
    [except Exception] and is answered 500, whatever the body and the
    environment; the other methods are answered 405, and an event without
    [httpMethod] raises [KeyError]. *)
Theorem index_handler_never_succeeds e event bot :
  (∀ method, lookup "httpMethod" event = Some method →
     is_string "POST" method = true →
     ∃ exn, (handler e event bot).1 = Value (Some (Response 500 exn)))
  ∧ (∀ method, lookup "httpMethod" event = Some method →
       is_string "POST" method = false →
       handler e event bot
       = (Value (Some (Response 405 "Method not allowed")), bot))
  ∧ (lookup "httpMethod" event = None →
       handler e event bot = (Propagates "KeyError", bot))
  ∧ (∀ r, (handler e event bot).1 = Value (Some r) → statusCode r ≠ 200).
Proof.
  assert (∃ exn b, handler_try e event bot = (Raise exn, b)) as (exn & b & Htry).
  { unfold handler_try. destruct (lookup "body" event); [|by eexists _, _].
    destruct (loads e j); [|by eexists _, _].
    destruct (init_bot e bot) as [[| |exn] b]; by eexists _, _. }
  unfold handler. rewrite Htry. split_and!.
  - intros method -> ->. by eexists.
  - by intros method -> ->.
  - by intros ->.
  - intros r. destruct (lookup "httpMethod" event) as [method|]; [|done].
    destruct (is_string "POST" method); by intros [= <-].
Qed.

End IndexFacts.

(* ===================================================================== *)
(** * Properties of [sign_in] and [send_code] *)
(* ===================================================================== *)

Module LoginFacts.

Import Text Py Login.
Local Open Scope string_scope.
Local Open Scope list_scope.

(** *** Definitions used in the statements *)

(** The text of the exception says that the code has expired. *)
Definition expired (exn : string) : Prop :=
  contains "phone code expired" (lower exn) = true.

(** The exception, if any, that ends the [try] block of [sign_in]
    otherwise than by [SessionPasswordNeededError]. *)
Definition raised (t : telegram) (code : string) (s : state) : option string :=
  match (sign_in_try t code s).1 with
  | Other exn => Some exn
  | _ => None
  end.

(** A connected account waiting for its code, and a Telegram side that
    finds the code expired and sends a new one. *)
Definition waiting : state :=
  State (Account.Account "+79990001122" true (Some "old")) [].

Definition late : telegram :=
  Telegram None true None (Ok false) (CodeSent "new" true)
           (fun _ _ => SignInFails "The phone code expired (PHONE_CODE_EXPIRED)")
           None.

Lemma send_code_true t s :
  (send_code t s).1 = Value (Some true) →
  is_user_authorized t = Ok true
  ∨ ∃ hash, send_code_request t = CodeSent hash true
            ∧ Account.phone_code_hash (self (send_code t s).2) = Some hash.
Proof.
  assert (∀ s1 : state,
            (if Account.client (self s1)
             then match client_disconnect t with
                  | Some exn => (Propagates exn, did Disconnect s1)
                  | None => (Value (Some false), did Disconnect s1)
                  end
             else (Value (Some false), s1)).1 ≠ Value (Some true)) as Hhandler.
  { intros s1. destruct (Account.client (self s1)); [|done].
    by destruct (client_disconnect t). }
  unfold send_code.
  destruct (send_code_try t s) as [[|[]|exn] s1] eqn:Htry; simpl; try done.
  2:{ intros Htrue. by destruct (Hhandler s1). }
  intros _. unfold send_code_try, ensure_connected, request_code in Htry.
  destruct (Account.client (self s)); [|destruct (new_client t)];
    simpl in Htry; try done.
  all: destruct (is_connected t); [|destruct (connect t)]; simpl in Htry;
    try done.
  all: destruct (is_user_authorized t) as [[]|]; simpl in Htry; try done;
    try by left.
  all: destruct (send_code_request t) as [hash []| | | |]; simpl in Htry;
    try done.
  all: injection Htry as <-; right; by exists hash.
Qed.

(** *** Theorems *)

(** [sign_in] returns [True] in two cases only: [client.sign_in] accepted
    the code with the stored hash; or an exception whose text holds
    [phone code expired] was raised and [send_code] returned [True], which
    means that the client was authorized already or that a new code has
    just been requested.  Without a client, [sign_in] returns [False] and
    calls nothing. *)
Theorem sign_in_true_cases t code s :
  ((sign_in_code t code s).1 = Value (Some true) →
   (∃ hash, Account.phone_code_hash (self s) = Some hash
            ∧ sign_in t code hash = SignedIn)
   ∨ (∃ exn, raised t code s = Some exn ∧ expired exn
             ∧ (is_user_authorized t = Ok true
                ∨ ∃ hash, send_code_request t = CodeSent hash true
                          ∧ Account.phone_code_hash (self (sign_in_code t code s).2)
                            = Some hash)))
  ∧ (Account.client (self s) = false →
     sign_in_code t code s = (Value (Some false), s)).
Proof.
  split.
  - unfold sign_in_code, raised, expired.
    destruct (sign_in_try t code s) as [[[]| |exn] s1] eqn:Htry; simpl;
      try done.
    + intros _. left. unfold sign_in_try, ensure_connected in Htry.
      destruct (negb (Account.client (self s))); [done|].
      destruct (is_connected t); [|destruct (connect t)]; simpl in Htry;
        try done.
      all: destruct (Account.phone_code_hash (self s)) as [hash|]; [|done].
      all: destruct (truthy hash); [|done].
      all: destruct (sign_in t code hash) eqn:Hsign; try done.
      all: by exists hash.
    + destruct (contains "phone code expired" (lower exn)) eqn:Hexp; [|done].
      intros Htrue. right. exists exn. split; [done|]. split; [done|].
      by apply send_code_true.
  - intros Hclient. unfold sign_in_code, sign_in_try. by rewrite Hclient.
Qed.

Lemma sign_in_true_cases_witness :
  (sign_in_code late "12345" waiting).1 = Value (Some true)
  ∧ sign_in late "12345" "old"
    = SignInFails "The phone code expired (PHONE_CODE_EXPIRED)"
  ∧ is_user_authorized late = Ok false
  ∧ calls (sign_in_code late "12345" waiting).2
    = [SignIn "12345" "old"; IsUserAuthorized; SendCodeRequest]
  ∧ ((∃ hash, Account.phone_code_hash (self waiting) = Some hash
              ∧ sign_in late "12345" hash = SignedIn)
     ∨ ∃ exn, raised late "12345" waiting = Some exn ∧ expired exn
              ∧ (is_user_authorized late = Ok true
                 ∨ ∃ hash, send_code_request late = CodeSent hash true
                           ∧ Account.phone_code_hash
                               (self (sign_in_code late "12345" waiting).2)
                             = Some hash)).
Proof.
  split; [reflexivity|]. split; [reflexivity|]. split; [reflexivity|].
  split; [reflexivity|].
  exact (proj1 (sign_in_true_cases late "12345" waiting) eq_refl).
Defined.

End LoginFacts.

(* ===================================================================== *)
(** * Properties of [get_or_create_user_account] *)
(* ===================================================================== *)

Module AccountsFacts.

Import Text Py Accounts.
Local Open Scope string_scope.
Local Open Scope list_scope.

(** *** Definitions used in the statements *)







(** *** Theorems *)



End AccountsFacts.

(* ===================================================================== *)
(** * Properties of [process_file_handler] *)
(* ===================================================================== *)

Module UploadFacts.

Import Text Py Upload.
Local Open Scope string_scope.
Local Open Scope list_scope.

(** *** Definitions used in the statements *)

(** The user has been asked for a file. *)
Definition waiting_file (sender : Z) (b : bot) : Prop :=
  ∃ st, user_states b !! sender = Some st
        ∧ Info.step st = Some "waiting_file".

(** The links [join_chats] is given for a file:
    [extract_chat_links("\n".join(process_file(file)))]. *)
Definition chat_links_of (e : env) (file : Files.bytes_io) : list string :=
  Links.extract_chat_links
    (join (String newline "") (Files.process_file (readers e) file)).

(** The run of [join_chats] the handler starts for an account. *)
Definition join_run (e : env) (file : Files.bytes_io) (user_account : member)
  : outcome Join.dict * Join.state :=
  Join.join_chats (joining e) (chat_links_of e file) (Some (status_msg e))
                  (join_count user_account) (current_delay user_account).

(** A text file with two lines, sent by user 7, who is logged in; the
    client joins whatever it is asked to. *)
Definition two_lines : Files.bytes_io :=
  Files.BytesIO ("@durov_news" +:+ Info.nl +:+ "https://t.me/telegram") 0.

Definition plain_text : Files.readers :=
  Files.Readers (Fails "BadZipFile") (fun _ data => Ok data) (fun _ => Ok ()).

Definition willing : Join.env :=
  Join.Env (Some (Join.Telegram true None (Ok true) (Ok [])))
           (fun _ _ => Join.Joined) (fun k => Z.of_nat k) (fun _ => None) None.

Definition upload : env :=
  Env (fun _ => None) (fun _ => None) (Ok two_lines) plain_text
      (Ok false) (Ok 3%nat) willing (Join.Message false 1).

Definition ready : bot :=
  Bot {[ 7%Z := Info.UserState (Some "waiting_file") None ]}
      {[ 7%Z := Member (Account.Account "+79990001122" true None) 0 10 ]}
      [] [].

(** *** What [extract_chat_links] returns *)



(** [join_chats] hands back its results, and no screenshot in them. *)
Lemma join_chats_plain e chat_links status_msg count0 delay0 :
  ∃ r, (Join.join_chats e chat_links status_msg count0 delay0).1
       = Value (Some (Join.ResultsDict r))
       ∧ Join.captcha_screenshots r = [].
Proof.
  destruct (RunFacts.join_chats_always_returns e chat_links status_msg count0 delay0)
    as (r & Hr & ->).
  eexists. split; [exact Hr|].
  destruct (RunFacts.join_chats_final_state e chat_links status_msg count0 delay0)
    as [(-> & _)|(ds & s0 & Hfresh & Hquiet & ->)]; [done|].
  by destruct (RunFacts.run_steady e status_msg ds chat_links s0 Hfresh Hquiet)
    as (? & _).
Qed.

(** *** The [try] block *)


Lemma call_respond_frame e text after b :
  user_states (call_respond e text after b).2 = user_states b
  ∧ user_accounts (call_respond e text after b).2 = user_accounts b
  ∧ runs (call_respond e text after b).2 = runs b.
Proof. unfold call_respond. by destruct (respond e text). Qed.

Lemma call_edit_frame e text after b :
  user_states (call_edit e text after b).2 = user_states b
  ∧ user_accounts (call_edit e text after b).2 = user_accounts b
  ∧ runs (call_edit e text after b).2 = runs b.
Proof. unfold call_edit. by destruct (edit e text). Qed.

Lemma report_frame e results b :
  user_states (report e results b).2 = user_states b
  ∧ user_accounts (report e results b).2 = user_accounts b
  ∧ runs (report e results b).2 = runs b.
Proof.
  unfold report. destruct results as [[[err|r]|]|exn]; try done.
  - apply call_edit_frame.
  - destruct (Join.captcha_screenshots r); [apply call_respond_frame|].
    pose proof (call_respond_frame e captcha_header Normal b) as Hframe.
    by destruct (call_respond e captcha_header Normal b) as [[] b1].
Qed.

(** The block changes the state of the user to [processing_file] and
    nothing else in [user_states]; it runs [join_chats] at most once, on
    the links of the file, for the account of the sender. *)
Lemma process_file_handler_try_frame e sender b c b1 :
  process_file_handler_try e sender b = (c, b1) →
  user_states b1
  = alter (fun st => Info.UserState (Some "processing_file") (Info.account st))
          sender (user_states b)
  ∧ ((runs b1 = runs b ∧ user_accounts b1 = user_accounts b)
     ∨ ∃ file user_account,
         download_media e = Ok file
         ∧ user_accounts b !! sender = Some user_account
         ∧ chat_links_of e file ≠ []
         ∧ runs b1
           = runs b ++ [(chat_links_of e file, (join_run e file user_account).2)]
         ∧ (respond e choose_action = None →
            c = Normal
            ∧ ∃ text, sent b1 = sent b ++ [Info.Respond processing_file;
                                           Info.Edit text;
                                           Info.Respond choose_action])).
Proof.
  unfold process_file_handler_try, call_respond at 1.
  destruct (respond e processing_file);
    [by intros [= <- <-]; split; [|left]|].
  destruct (download_media e) as [file|];
    [|by intros [= <- <-]; split; [|left]].
  destruct (Files.process_file (readers e) file) as [|l links] eqn:Hlinks.
  { unfold call_edit.
    by destruct (edit e no_links); intros [= <- <-]; (split; [|left]). }
  cbn [user_accounts send set_user_states].
  destruct (user_accounts b !! sender) as [user_account|] eqn:Hacc.
  2:{ unfold call_edit.
      by destruct (edit e log_in_first); intros [= <- <-]; (split; [|left]). }
  destruct (Links.extract_chat_links _) as [|l' chat_links] eqn:Hchat.
  { unfold call_edit.
    by destruct (edit e no_valid_links); intros [= <- <-]; (split; [|left]). }
  destruct (negb _); [by intros [= <- <-]; split; [|left]|].
  destruct (get_me e) as [premium|]; [|by intros [= <- <-]; split; [|left]].
  destruct (get_dialogs e) as [current_chats|];
    [|by intros [= <- <-]; split; [|left]].
  unfold call_edit at 1.
  destruct (edit e _); [by intros [= <- <-]; split; [|left]|].
  unfold run_join_chats.
  assert (chat_links_of e file = l' :: chat_links) as Hof.
  { unfold chat_links_of. by rewrite Hlinks. }
  assert (Join.join_chats (joining e) (l' :: chat_links) (Some (status_msg e))
            (join_count user_account) (current_delay user_account)
          = join_run e file user_account) as ->.
  { unfold join_run. by rewrite Hof. }
  destruct (join_chats_plain (joining e) (chat_links_of e file)
              (Some (status_msg e)) (join_count user_account)
              (current_delay user_account)) as (r & Hr & Hshots).
  fold (join_run e file user_account) in Hr.
  destruct (join_run e file user_account) as [results s] eqn:Hjoin.
  simpl in Hr. subst results. cbn [snd].
  unfold report. rewrite Hshots. unfold call_respond.
  destruct (respond e choose_action) eqn:Hrespond; intros [= <- <-]; simpl.
  - split; [done|]. right. exists file, user_account. by rewrite Hof, Hjoin.
  - split; [done|]. right. exists file, user_account. rewrite Hof, Hjoin.
    split_and!; try done. intros _. split; [done|].
    rewrite <- !app_assoc. by eexists.
Qed.

Lemma upload_always_clears_state_frame e sender b :
  (waiting_file sender b →
   user_states (process_file_handler e sender b).2 = delete sender (user_states b))
  ∧ (¬ waiting_file sender b →
     user_states (process_file_handler e sender b).2 = user_states b
     ∧ user_accounts (process_file_handler e sender b).2 = user_accounts b
     ∧ runs (process_file_handler e sender b).2 = runs b).
Proof.
  unfold process_file_handler, waiting_file. split.
  - intros (st & -> & ->). simpl.
    destruct (process_file_handler_try e sender b) as [c b1] eqn:Htry.
    destruct (process_file_handler_try_frame e sender b c b1 Htry) as [Hus _].
    destruct c as [| |exn]; simpl.
    1,2: by rewrite Hus, delete_alter_eq.
    destruct (call_respond_frame e (failure_text exn) Normal b1) as (Hus' & _).
    destruct (call_respond e (failure_text exn) Normal b1) as [c b2].
    simpl in *. by rewrite Hus', Hus, delete_alter_eq.
  - intros Hnot. destruct (user_states b !! sender) as [st|].
    + case_bool_decide as Hstep; simpl.
      { destruct Hnot. by exists st. }
      pose proof (call_respond_frame e wait_for_previous (Return ()) b) as Hf.
      by destruct (call_respond e wait_for_previous (Return ()) b).
    + pose proof (call_respond_frame e press_button_first (Return ()) b) as Hf.
      by destruct (call_respond e press_button_first (Return ()) b).
Qed.

(** *** Theorems *)

(** A file from a user who was asked for one always ends with the state of
    that user dropped, whichever way the handler ends, and with the states
    of the other users untouched.  A file from anyone else changes neither
    [user_states] nor [user_accounts] and starts no run. *)
Theorem upload_always_clears_state e sender b :
  (waiting_file sender b →
   user_states (process_file_handler e sender b).2 = delete sender (user_states b)
   ∧ (∀ other, other ≠ sender →
        user_states (process_file_handler e sender b).2 !! other
        = user_states b !! other))
  ∧ (¬ waiting_file sender b →
     user_states (process_file_handler e sender b).2 = user_states b
     ∧ user_accounts (process_file_handler e sender b).2 = user_accounts b
     ∧ runs (process_file_handler e sender b).2 = runs b).
Proof.
  destruct (upload_always_clears_state_frame e sender b) as [Hwait Hnot].
  split; [|done]. intros Hw. split; [by apply Hwait|].
  intros other Hother. rewrite (Hwait Hw). by apply lookup_delete_ne.
Qed.

Lemma upload_always_clears_state_witness :
  waiting_file 7 ready
  ∧ user_states (process_file_handler upload 7 ready).2 = delete 7%Z (user_states ready).
Proof.
  assert (waiting_file 7 ready) as Hwait.
  { eexists. split; [apply lookup_singleton_eq|done]. }
  split; [exact Hwait|].
  exact (proj1 (proj1 (upload_always_clears_state upload 7 ready) Hwait)).
Defined.


(** The links of the patterns come first, the user names after them. *)
Lemma upload_example :
  runs (process_file_handler upload 7 ready).2
  = [(["https://t.me/telegram"; "https://t.me/durov_news"],
      (join_run upload two_lines
                (Member (Account.Account "+79990001122" true None) 0 10)).2)]
  ∧ Join.requests
      (Join.trace
         (join_run upload two_lines
                   (Member (Account.Account "+79990001122" true None) 0 10)).2)
    = [Join.JoinChannel "telegram"; Join.JoinChannel "durov_news"].
Proof. split; by vm_compute. Qed.

End UploadFacts.

(* ===================================================================== *)
(** * Properties of [SessionManager.__del__] *)
(* ===================================================================== *)

Module TeardownFacts.

Import Text Py Locks Teardown.
Local Open Scope string_scope.
Local Open Scope list_scope.

(** *** Definitions used in the statements *)

(** [session_names] lists the keys of [self.locks], in some order. *)
Definition keys_of (m : manager) (session_names : list string) : Prop :=
  ∀ name, name ∈ session_names ↔ is_Some (locks m !! name).

(** Two sessions held at once; unlocking the second one fails. *)
Definition smooth : os := OS false 3 false false false.
Definition two_held : manager :=
  (acquire_lock (OS false 4 false false false) "user_2"
     (acquire_lock smooth "user_1" (Manager "sessions" ∅ ∅ ∅ ∅ ∅)).2).2.
Definition stuck_on_second (session_name : string) : os :=
  if String.eqb session_name "user_2" then OS false 0 true false false
  else smooth.

(** *** One release *)

Lemma release_lock_locks o name m :
  locks (release_lock o name m).2 = delete name (locks m).
Proof.
  rewrite LocksFacts.release_lock_state. unfold release_lock_try, remove_quietly.
  destruct (locks m !! name) eqn:Hheld; simpl.
  - by repeat case_match.
  - symmetry. by apply delete_id.
Qed.

(** A release touches no entry of [lock_files] but its own, and that one
    it can only delete. *)
Lemma release_lock_files o name m k :
  lock_files (release_lock o name m).2 !! k = None
  ∨ lock_files (release_lock o name m).2 !! k = lock_files m !! k.
Proof.
  rewrite LocksFacts.release_lock_state. unfold release_lock_try, remove_quietly.
  destruct (locks m !! name); simpl; [|by right].
  destruct (flock_fails o); simpl; [by right|].
  destruct (close_fails o); simpl; [by right|].
  destruct (decide (k = name)) as [->|Hne].
  - left. repeat case_match; simpl; apply lookup_delete_eq.
  - right. repeat case_match; simpl; by apply lookup_delete_ne.
Qed.

Lemma release_lock_files_held o name m :
  is_Some (locks m !! name) →
  flock_fails o = false → close_fails o = false →
  lock_files (release_lock o name m).2 !! name = None.
Proof.
  intros [f Hf] Hflock Hclose.
  rewrite LocksFacts.release_lock_state. unfold release_lock_try, remove_quietly.
  rewrite Hf, Hflock, Hclose. simpl.
  repeat case_match; simpl; apply lookup_delete_eq.
Qed.

(** *** The loop *)

Lemma del_locks o names m k :
  locks (del o names m) !! k
  = if bool_decide (k ∈ names) then None else locks m !! k.
Proof.
  unfold del. revert m. induction names as [|n names IH]; intros m; [done|].
  cbn [foldl]. rewrite IH, release_lock_locks.
  destruct (decide (k = n)) as [->|Hne].
  - rewrite lookup_delete_eq, (bool_decide_eq_true_2 (n ∈ n :: names)) by left.
    by case_bool_decide.
  - rewrite lookup_delete_ne by done.
    assert (bool_decide (k ∈ n :: names) = bool_decide (k ∈ names)) as ->;
      [|done].
    apply bool_decide_ext. rewrite elem_of_cons. naive_solver.
Qed.

Lemma del_lock_files_gone o names m k :
  lock_files m !! k = None → lock_files (del o names m) !! k = None.
Proof.
  unfold del. revert m. induction names as [|n names IH]; intros m Hk; [done|].
  cbn [foldl]. apply IH.
  by destruct (release_lock_files (o n) n m k) as [?| ->].
Qed.

Lemma del_lock_files o names m k :
  k ∈ names → is_Some (locks m !! k) →
  flock_fails (o k) = false → close_fails (o k) = false →
  lock_files (del o names m) !! k = None.
Proof.
  revert m. induction names as [|n names IH]; intros m Hin Hheld Hflock Hclose.
  { by apply elem_of_nil in Hin. }
  destruct (decide (k = n)) as [->|Hne].
  - change (del o (n :: names) m) with (del o names (release_lock (o n) n m).2).
    apply del_lock_files_gone. by apply release_lock_files_held.
  - change (del o (n :: names) m) with (del o names (release_lock (o n) n m).2).
    apply IH; try done.
    + apply elem_of_cons in Hin as [?|?]; done.
    + by rewrite release_lock_locks, lookup_delete_ne.
Qed.

(** *** Theorems *)

(** When a [SessionManager] is destroyed, [self.locks] ends empty whatever
    the operating system does to the releases, in whatever order the
    sessions come; the entry of [lock_files] goes with it for every
    session whose unlocking and closing do not fail, and stays otherwise
    only for sessions that had one. *)
Theorem del_releases_every_lock o session_names m :
  keys_of m session_names →
  locks (del o session_names m) = ∅
  ∧ (∀ name, name ∈ session_names →
       flock_fails (o name) = false → close_fails (o name) = false →
       lock_files (del o session_names m) !! name = None)
  ∧ (∀ name, lock_files m !! name = None →
       lock_files (del o session_names m) !! name = None).
Proof.
  intros Hkeys. split_and!.
  - apply map_eq. intros k. rewrite del_locks, lookup_empty.
    case_bool_decide as Hin; [done|].
    destruct (locks m !! k) eqn:Hk; [|done].
    destruct Hin. apply Hkeys. by eexists.
  - intros name Hin Hflock Hclose. apply del_lock_files; try done.
    by apply Hkeys.
  - intros name. apply del_lock_files_gone.
Qed.

Lemma del_releases_every_lock_witness :
  keys_of two_held ["user_2"; "user_1"]
  ∧ locks (del stuck_on_second ["user_2"; "user_1"] two_held) = ∅
  ∧ lock_files (del stuck_on_second ["user_2"; "user_1"] two_held) !! "user_1"
    = None
  ∧ is_Some (lock_files (del stuck_on_second ["user_2"; "user_1"] two_held)
             !! "user_2").
Proof.
  assert (keys_of two_held ["user_2"; "user_1"]) as Hkeys.
  { assert (locks two_held
            = <["user_2" := File "sessions/user_2.lock" 4]>
                (<["user_1" := File "sessions/user_1.lock" 3]> ∅)) as Hlocks
      by reflexivity.
    intros name. rewrite Hlocks.
    rewrite !elem_of_cons, elem_of_nil, !lookup_insert_is_Some, lookup_empty.
    split; [naive_solver|].
    intros [?|[? [?|[? []%is_Some_None]]]]; naive_solver. }
  split; [exact Hkeys|].
  destruct (del_releases_every_lock stuck_on_second ["user_2"; "user_1"] two_held
              Hkeys) as (Hlocks & Hfiles & _).
  split; [exact Hlocks|]. split.
  - apply Hfiles; [set_solver|reflexivity|reflexivity].
  - vm_compute. by eexists.
Defined.

End TeardownFacts.
